(** * BookStack page exporter: a shallow embedding of scripts/export_bookstack.py

    The Python helpers are embedded as functions over Python strings (lists of
    Unicode code points); the export driver is embedded in a small
    state-and-exception monad over the process environment, an idealised
    POSIX file tree and the database server's reply. *)

From Stdlib Require Import NArith ZArith List String Ascii Bool Lia.
From Stdlib Require Import DecimalN DecimalPos Decimal.
From stdpp Require Import base option list gmap.
From Equations Require Import Equations.

Set Default Proof Using "Type".
Local Open Scope N_scope.

(** ** Python strings *)

(** A Python [str] is a sequence of code points. *)
Abbreviation pystr := (list N) (only parsing).

(** String literals of the source, as code points. *)
Definition py (s : string) : pystr := map N_of_ascii (list_ascii_of_string s).

(** Truthiness of a string and the idiom [a or b] on strings. *)
Definition truthy (s : pystr) : bool :=
  match s with [] => false | _ :: _ => true end.

Definition str_or (a b : pystr) : pystr := if truthy a then a else b.

(** [x or ""] for a value that may be [None]. *)
Definition or_empty (x : option pystr) : pystr :=
  match x with Some s => str_or s [] | None => [] end.

(** ** Character classes *)

(** [str.isspace] on one code point, which is also the class [\s] of a
    [str] pattern: the ASCII table of CPython plus the Unicode white space
    code points. *)
Definition isspace (c : N) : bool :=
  ((9 <=? c) && (c <=? 13)) || ((28 <=? c) && (c <=? 32))
  || (c =? 0x85) || (c =? 0xA0) || (c =? 0x1680)
  || ((0x2000 <=? c) && (c <=? 0x200A))
  || (c =? 0x2028) || (c =? 0x2029) || (c =? 0x202F)
  || (c =? 0x205F) || (c =? 0x3000).

Definition ascii_alnum (c : N) : bool :=
  ((48 <=? c) && (c <=? 57)) || ((65 <=? c) && (c <=? 90))
  || ((97 <=? c) && (c <=? 122)).

(** The Unicode database of the interpreter: which code points from 128 on
    are alphanumeric ([str.isalnum]).  The table belongs to the Python
    runtime, so the embedding is parametric in it. *)
Class UnicodeDB := uni_alnum : N -> bool.

(** The class [\w] of a [str] pattern: alphanumeric or underscore. *)
Definition isword `{UnicodeDB} (c : N) : bool :=
  if c <? 128 then ascii_alnum c || (c =? 95) else uni_alnum c.

(** An interpreter whose only alphanumerics are the ASCII ones, and one that
    also knows the Latin-1 letters; used to run the functions on examples. *)
Definition ascii_db : UnicodeDB := fun _ => false.

Definition latin1_db : UnicodeDB := fun c =>
  (c =? 0xAA) || (c =? 0xB5) || (c =? 0xBA)
  || ((0xC0 <=? c) && (c <=? 0xFF) && negb (c =? 0xD7) && negb (c =? 0xF7)).

(** ** String methods and the two regular-expression substitutions *)

Fixpoint lstrip (s : pystr) : pystr :=
  match s with
  | [] => []
  | c :: r => if isspace c then lstrip r else s
  end.

Definition rstrip (s : pystr) : pystr := rev (lstrip (rev s)).

(** [s.strip()] *)
Definition strip (s : pystr) : pystr := rstrip (lstrip s).

(** [s.replace(old, new)] for a one-character [old]. *)
Definition str_replace1 (old : N) (new : pystr) (s : pystr) : pystr :=
  flat_map (fun c => if c =? old then new else [c]) s.

(** [re.sub(p, repl, s)] where [p] is a single character set [cls]: every
    matching character is a match of its own. *)
Definition re_sub_set (cls : N -> bool) (repl : pystr) (s : pystr) : pystr :=
  flat_map (fun c => if cls c then repl else [c]) s.

(** [re.sub(p, repl, s)] where [p] is [cls+]: the scanner takes the longest
    run at the leftmost position; [in_match] tells that the previous
    character belongs to the match being consumed. *)
Fixpoint re_sub_plus_from (cls : N -> bool) (repl : pystr) (in_match : bool)
    (s : pystr) : pystr :=
  match s with
  | [] => []
  | c :: r =>
      if cls c then
        if in_match then re_sub_plus_from cls repl true r
        else repl ++ re_sub_plus_from cls repl true r
      else c :: re_sub_plus_from cls repl false r
  end.

Definition re_sub_plus (cls : N -> bool) (repl : pystr) (s : pystr) : pystr :=
  re_sub_plus_from cls repl false s.

(** ** [_safe_name] *)

Definition slash : N := 47.
Definition dash : N := 45.
Definition dot : N := 46.
Definition underscore : N := 95.
Definition backslash : N := 92.

(** The complement of the set [[^\w\-\s.]]. *)
Definition name_char `{UnicodeDB} (c : N) : bool :=
  isword c || (c =? dash) || isspace c || (c =? dot).

Definition _safe_name `{UnicodeDB} (name : pystr) : pystr :=
  let name := str_replace1 slash (py "-") (strip name) in
  let name := re_sub_set (fun c => negb (name_char c)) [] name in
  let name := re_sub_plus isspace (py "_") name in
  str_or (take 120 name) (py "untitled").

(** ** Page rows and [_pick_content] *)

(** One row of the query of [fetch_pages], with the columns the exporter
    reads; a SQL NULL is [None]. *)
Record PageRow := {
  r_id : Z;
  r_name : option pystr;
  r_slug : option pystr;
  r_book_name : option pystr;
  r_chapter_name : option pystr;
  r_html : option pystr;
  r_markdown : option pystr;
  r_updated_at : option pystr;
}.

Definition _pick_content (row : PageRow) (prefer_markdown : bool) : pystr * pystr :=
  let md := strip (or_empty (r_markdown row)) in
  if prefer_markdown && truthy md then (md, py "md")
  else
    let html := strip (or_empty (r_html row)) in
    (html, py "html").

(** The dictionaries of the source's self-tests: only two keys are set. *)
Definition row_of (markdown html : string) : PageRow :=
  {| r_id := 0; r_name := None; r_slug := None; r_book_name := None;
     r_chapter_name := None; r_html := Some (py html);
     r_markdown := Some (py markdown); r_updated_at := None |}.

(** ** The sanitizer as the specification words it *)

Module SafeNameSpec.

Definition is_path_separator (c : N) : bool := c =? slash.

Definition is_alphanumeric `{UnicodeDB} (c : N) : bool :=
  if c <? 128 then ascii_alnum c else uni_alnum c.

(** Step 1: trim surrounding whitespace, the tail first. *)
Definition trim_right (s : pystr) : pystr :=
  fold_right
    (fun c acc => if isspace c && negb (truthy acc) then [] else c :: acc)
    [] s.

Definition trim (s : pystr) : pystr := lstrip (trim_right s).

(** Step 2: path separators become a dash. *)
Definition dash_separators (s : pystr) : pystr :=
  map (fun c => if is_path_separator c then dash else c) s.

(** Step 3: keep alphanumerics, underscore, dash, whitespace and dot. *)
Definition allowed `{UnicodeDB} (c : N) : bool :=
  is_alphanumeric c || (c =? underscore) || (c =? dash) || isspace c
  || (c =? dot).

Definition remove_disallowed `{UnicodeDB} (s : pystr) : pystr :=
  List.filter allowed s.

(** Step 4: each maximal run of whitespace becomes one underscore. *)
Equations collapse_whitespace (s : pystr) : pystr by wf (length s) lt :=
  collapse_whitespace [] := [];
  collapse_whitespace (c :: r) :=
    if isspace c then underscore :: collapse_whitespace (lstrip r)
    else c :: collapse_whitespace r.
Next Obligation.
  clear. induction r as [|d r IH]; simpl; [lia|].
  destruct (isspace d); simpl in *; lia.
Qed.

(** Steps 5 and 6: at most 120 characters, and the placeholder. *)
Definition max_length : nat := 120.
Definition placeholder : pystr := py "untitled".

Definition sanitize `{UnicodeDB} (name : pystr) : pystr :=
  let t := take max_length
    (collapse_whitespace (remove_disallowed (dash_separators (trim name)))) in
  match t with [] => placeholder | _ => t end.

End SafeNameSpec.

(** ** Formatting the page id: [f"{n:06d}"] *)

Fixpoint uint_digits (d : Decimal.uint) : pystr :=
  match d with
  | Nil => []
  | D0 d => 48 :: uint_digits d
  | D1 d => 49 :: uint_digits d
  | D2 d => 50 :: uint_digits d
  | D3 d => 51 :: uint_digits d
  | D4 d => 52 :: uint_digits d
  | D5 d => 53 :: uint_digits d
  | D6 d => 54 :: uint_digits d
  | D7 d => 55 :: uint_digits d
  | D8 d => 56 :: uint_digits d
  | D9 d => 57 :: uint_digits d
  end.

(** [str(n)] for a natural number. *)
Definition decimal (n : N) : pystr := uint_digits (N.to_uint n).

(** Zero fill on the left up to [width] characters. *)
Definition zfill (width : nat) (s : pystr) : pystr :=
  replicate (width - length s) 48 ++ s.

(** The format [06d]: the sign, when there is one, counts in the width. *)
Definition format_06d (n : Z) : pystr :=
  match n with
  | Zneg p => dash :: zfill 5 (decimal (Npos p))
  | _ => zfill 6 (decimal (Z.to_N n))
  end.

(** ** Paths ([pathlib], POSIX flavour) *)

(** A path is an optional root and its parts. *)
Record Path := { p_abs : bool; p_parts : list pystr }.

Fixpoint split_on (sep : N) (s : pystr) : list pystr :=
  match s with
  | [] => [[]]
  | c :: r =>
      if c =? sep then [] :: split_on sep r
      else match split_on sep r with
           | [] => [[c]]
           | w :: ws => (c :: w) :: ws
           end
  end.

Definition pystr_eqb (a b : pystr) : bool := bool_decide (a = b).

(** The parts of a path given as a string: empty and [.] components go. *)
Definition parse_parts (s : pystr) : list pystr :=
  List.filter (fun x => truthy x && negb (pystr_eqb x (py ".")))
    (split_on slash s).

(** [p / s]: a string that starts at the root replaces [p]. *)
Definition path_join (p : Path) (s : pystr) : Path :=
  match s with
  | c :: _ =>
      if c =? slash then {| p_abs := true; p_parts := parse_parts s |}
      else {| p_abs := p_abs p; p_parts := p_parts p ++ parse_parts s |}
  | [] => p
  end.

Fixpoint str_join (sep : pystr) (l : list pystr) : pystr :=
  match l with
  | [] => []
  | [x] => x
  | x :: r => x ++ sep ++ str_join sep r
  end.

(** [str(p)] *)
Definition path_str (p : Path) : pystr :=
  if p_abs p then slash :: str_join (py "/") (p_parts p)
  else match p_parts p with
       | [] => py "."
       | _ => str_join (py "/") (p_parts p)
       end.

(** ** UTF-8 *)

Definition byte_of_N (n : N) : Byte.byte :=
  match Byte.of_N n with Some b => b | None => Byte.x00 end.

Definition is_surrogate (c : N) : bool := (0xD800 <=? c) && (c <=? 0xDFFF).

Definition utf8_encode_char (c : N) : option (list Byte.byte) :=
  if c <? 0x80 then Some [byte_of_N c]
  else if c <? 0x800 then
    Some [byte_of_N (0xC0 + c / 64); byte_of_N (0x80 + c mod 64)]
  else if c <? 0x10000 then
    if is_surrogate c then None
    else Some [byte_of_N (0xE0 + c / 4096);
               byte_of_N (0x80 + (c / 64) mod 64);
               byte_of_N (0x80 + c mod 64)]
  else if c <? 0x110000 then
    Some [byte_of_N (0xF0 + c / 262144);
          byte_of_N (0x80 + (c / 4096) mod 64);
          byte_of_N (0x80 + (c / 64) mod 64);
          byte_of_N (0x80 + c mod 64)]
  else None.

(** [s.encode("utf-8")]; [None] is [UnicodeEncodeError]. *)
Fixpoint utf8_encode (s : pystr) : option (list Byte.byte) :=
  match s with
  | [] => Some []
  | c :: r =>
      match utf8_encode_char c, utf8_encode r with
      | Some b, Some bs => Some (b ++ bs)
      | _, _ => None
      end
  end.

Definition cont (b : Byte.byte) : bool :=
  let n := Byte.to_N b in (0x80 <=? n) && (n <=? 0xBF).

Definition low6 (b : Byte.byte) : N := Byte.to_N b mod 64.

(** [bs.decode("utf-8")]; [None] is [UnicodeDecodeError]. *)
Fixpoint utf8_decode (bs : list Byte.byte) : option pystr :=
  match bs with
  | [] => Some []
  | b0 :: r0 =>
      let n0 := Byte.to_N b0 in
      if n0 <? 0x80 then cons n0 <$> utf8_decode r0
      else if (0xC2 <=? n0) && (n0 <=? 0xDF) then
        match r0 with
        | b1 :: r1 =>
            if cont b1 then
              cons ((n0 - 0xC0) * 64 + low6 b1) <$> utf8_decode r1
            else None
        | _ => None
        end
      else if (0xE0 <=? n0) && (n0 <=? 0xEF) then
        match r0 with
        | b1 :: b2 :: r2 =>
            let c := (n0 - 0xE0) * 4096 + low6 b1 * 64 + low6 b2 in
            if cont b1 && cont b2 && (0x800 <=? c) && negb (is_surrogate c)
            then cons c <$> utf8_decode r2
            else None
        | _ => None
        end
      else if (0xF0 <=? n0) && (n0 <=? 0xF4) then
        match r0 with
        | b1 :: b2 :: b3 :: r3 =>
            let c := (n0 - 0xF0) * 262144 + low6 b1 * 4096 + low6 b2 * 64
                     + low6 b3 in
            if cont b1 && cont b2 && cont b3 && (0x10000 <=? c)
               && (c <? 0x110000)
            then cons c <$> utf8_decode r3
            else None
        | _ => None
        end
      else None
  end.

(** Reading in text mode: [\r\n] and a lone [\r] arrive as [\n]. *)
Fixpoint universal_newlines (s : pystr) : pystr :=
  match s with
  | [] => []
  | c :: r =>
      if c =? 13 then
        match r with
        | d :: r' => if d =? 10 then 10 :: universal_newlines r'
                     else 10 :: universal_newlines r
        | [] => [10]
        end
      else c :: universal_newlines r
  end.

(** ** The file tree *)

(** A location is the list of names from the root; the tree has no links,
    and a lookup of the root always finds a directory. *)
Abbreviation loc := (list (list N)) (only parsing).

Inductive node :=
  | Dir
  | File (data : list Byte.byte).

Inductive oserr := ENOENT | ENOTDIR | EEXIST | EISDIR.

Definition node_at (fs : gmap loc node) (l : loc) : option node :=
  match l with
  | [] => Some Dir
  | _ => fs !! l
  end.

(** One component of a walk: [..] goes up (and stays at the root). *)
Definition step (cur : loc) (x : pystr) : loc :=
  if pystr_eqb x (py "..") then removelast cur else cur ++ [x].

(** Follow [parts] from [cur]; every one has to be a directory. *)
Fixpoint walk_dirs (fs : gmap loc node) (cur : loc) (parts : list pystr)
    : oserr + loc :=
  match parts with
  | [] => inr cur
  | x :: r =>
      let nxt := step cur x in
      match node_at fs nxt with
      | Some Dir => walk_dirs fs nxt r
      | Some (File _) => inl ENOTDIR
      | None => inl ENOENT
      end
  end.

(** The location a path names, for creating or opening its last part. *)
Definition locate (fs : gmap loc node) (base : loc) (parts : list pystr)
    : oserr + loc :=
  match parts with
  | [] => inr base
  | _ :: _ =>
      match walk_dirs fs base (removelast parts) with
      | inl e => inl e
      | inr d => inr (step d (List.last parts []))
      end
  end.

(** [os.mkdir] *)
Definition os_mkdir (fs : gmap loc node) (base : loc) (parts : list pystr)
    : oserr + gmap loc node :=
  match locate fs base parts with
  | inl e => inl e
  | inr l =>
      match node_at fs l with
      | Some _ => inl EEXIST
      | None => inr (<[l := Dir]> fs)
      end
  end.

(** [Path.is_dir], [Path.exists]: errors of the walk read as [False]. *)
Definition os_is_dir (fs : gmap loc node) (base : loc) (parts : list pystr)
    : bool :=
  match locate fs base parts with
  | inr l => match node_at fs l with Some Dir => true | _ => false end
  | inl _ => false
  end.

Definition os_exists (fs : gmap loc node) (base : loc) (parts : list pystr)
    : bool :=
  match locate fs base parts with
  | inr l => match node_at fs l with Some _ => true | None => false end
  | inl _ => false
  end.

(** [Path.mkdir(parents=True, exist_ok=True)] on the path made of the first
    [n] parts of [all]; the parent of that path has the first [n - 1]. *)
Fixpoint mkdir_prefix (fs : gmap loc node) (base : loc) (all : list pystr)
    (n : nat) : oserr + gmap loc node :=
  let parts := take n all in
  match os_mkdir fs base parts with
  | inr fs' => inr fs'
  | inl ENOENT =>
      match n with
      | O => inl ENOENT
      | S m =>
          match mkdir_prefix fs base all m with
          | inl e => inl e
          | inr fs1 =>
              match os_mkdir fs1 base parts with
              | inr fs2 => inr fs2
              | inl ENOENT => inl ENOENT
              | inl e => if os_is_dir fs1 base parts then inr fs1 else inl e
              end
          end
      end
  | inl e => if os_is_dir fs base parts then inr fs else inl e
  end.

Definition mkdir_parents (fs : gmap loc node) (base : loc)
    (parts : list pystr) : oserr + gmap loc node :=
  mkdir_prefix fs base parts (length parts).

(** [open(path, "w")]: the file is created or emptied. *)
Definition os_open_w (fs : gmap loc node) (base : loc) (parts : list pystr)
    : oserr + (loc * gmap loc node) :=
  match locate fs base parts with
  | inl e => inl e
  | inr l =>
      match node_at fs l with
      | Some Dir => inl EISDIR
      | _ => inr (l, <[l := File []]> fs)
      end
  end.

(** [open(path).read()] as bytes. *)
Definition os_read (fs : gmap loc node) (base : loc) (parts : list pystr)
    : oserr + list Byte.byte :=
  match locate fs base parts with
  | inl e => inl e
  | inr l =>
      match node_at fs l with
      | Some (File d) => inr d
      | Some Dir => inl EISDIR
      | None => inl ENOENT
      end
  end.

(** ** The world of a run *)

Record ExportRecord := {
  e_page_id : Z;
  e_book : option pystr;
  e_chapter : option pystr;
  e_name : option pystr;
  e_slug : option pystr;
  e_path : pystr;
  e_ext : pystr;
  e_updated_at : option pystr;
}.

Record ConnParams := {
  c_host : pystr;
  c_port : Z;
  c_user : pystr;
  c_password : pystr;
  c_database : pystr;
}.

(** What the server does with the one query of [fetch_pages]. *)
Inductive DbReply :=
  | ConnectFails
  | QueryFails
  | Rows (rows : list PageRow).

Inductive event :=
  | EvMkdir (p : Path)
  | EvConnect (c : ConnParams)
  | EvExecute (c : ConnParams)
  | EvWriteText (p : Path) (content : pystr)
  | EvToCsv (p : Path) (rows : list ExportRecord)
  | EvPrint (count : nat) (p : Path).

Inductive exn :=
  | SystemExit (msg : pystr)
  | OSError (e : oserr) (p : Path)
  | UnicodeEncodeError
  | UnicodeDecodeError
  | ValueError
  | KeyError
  | DatabaseError
  | AssertionError.

(** Library functions the script calls and this repository does not
    define: [int] on a string, and the text [DataFrame.to_csv] writes. *)
Class Libs := {
  int_of_str : pystr -> option Z;
  to_csv : list ExportRecord -> pystr;
}.

Record World := {
  w_cwd : loc;
  w_repo_env : Path;
  w_environ : gmap pystr pystr;
  w_fs : gmap loc node;
  w_db : ConnParams -> DbReply;
  w_trace : list event;
}.

Definition set_fs (w : World) (fs : gmap loc node) : World :=
  {| w_cwd := w_cwd w; w_repo_env := w_repo_env w; w_environ := w_environ w;
     w_fs := fs; w_db := w_db w; w_trace := w_trace w |}.

Definition set_environ (w : World) (env : gmap pystr pystr) : World :=
  {| w_cwd := w_cwd w; w_repo_env := w_repo_env w; w_environ := env;
     w_fs := w_fs w; w_db := w_db w; w_trace := w_trace w |}.

Definition add_event (w : World) (ev : event) : World :=
  {| w_cwd := w_cwd w; w_repo_env := w_repo_env w; w_environ := w_environ w;
     w_fs := w_fs w; w_db := w_db w; w_trace := w_trace w ++ [ev] |}.

(** Where the walk of a path starts. *)
Definition base_of (w : World) (p : Path) : loc :=
  if p_abs p then [] else w_cwd w.

(** ** Computations: the world is threaded, an exception ends the run and
    keeps the world as it is at that point. *)

Definition M (A : Type) : Type := World -> (exn + A) * World.

Definition ret {A} (a : A) : M A := fun w => (inr a, w).

Definition bind {A B} (c : M A) (k : A -> M B) : M B :=
  fun w =>
    match c w with
    | (inl e, w') => (inl e, w')
    | (inr a, w') => k a w'
    end.

Definition raise {A} (e : exn) : M A := fun w => (inl e, w).

Definition gets {A} (f : World -> A) : M A := fun w => (inr (f w), w).

Definition log (ev : event) : M unit := fun w => (inr tt, add_event w ev).

(** [try: c except Exception: h] *)
Definition try_except {A} (c : M A) (h : M A) : M A :=
  fun w =>
    match c w with
    | (inl (SystemExit m), w') => (inl (SystemExit m), w')
    | (inl _, w') => h w'
    | (inr a, w') => (inr a, w')
    end.

Notation "x <- c ;; k" := (bind c (fun x => k))
  (at level 100, c at next level, right associativity).
Notation "c ;; k" := (bind c (fun _ => k))
  (at level 100, right associativity).

(** ** File operations of [pathlib] *)

Definition path_exists (p : Path) : M bool :=
  gets (fun w => os_exists (w_fs w) (base_of w p) (p_parts p)).

Definition path_mkdir (p : Path) : M unit :=
  log (EvMkdir p) ;;
  fun w =>
    match mkdir_parents (w_fs w) (base_of w p) (p_parts p) with
    | inl e => (inl (OSError e p), w)
    | inr fs' => (inr tt, set_fs w fs')
    end.

Definition write_bytes_of (p : Path) (content : pystr) : M unit :=
  fun w =>
    match os_open_w (w_fs w) (base_of w p) (p_parts p) with
    | inl e => (inl (OSError e p), w)
    | inr (l, fs1) =>
        match utf8_encode content with
        | None => (inl UnicodeEncodeError, set_fs w fs1)
        | Some bs => (inr tt, set_fs w (<[l := File bs]> fs1))
        end
    end.

(** [p.write_text(content, encoding="utf-8")] *)
Definition path_write_text (p : Path) (content : pystr) : M unit :=
  log (EvWriteText p content) ;; write_bytes_of p content.

(** [p.read_text(encoding="utf-8")] *)
Definition path_read_text (p : Path) : M pystr :=
  fun w =>
    match os_read (w_fs w) (base_of w p) (p_parts p) with
    | inl e => (inl (OSError e p), w)
    | inr bs =>
        match utf8_decode bs with
        | None => (inl UnicodeDecodeError, w)
        | Some s => (inr (universal_newlines s), w)
        end
    end.

(** ** The process environment *)

(** [os.environ.get(k)] *)
Definition environ_get (k : pystr) : M (option pystr) :=
  gets (fun w => w_environ w !! k).

(** [not v] for the result of [os.environ.get]. *)
Definition falsy (v : option pystr) : bool :=
  match v with Some s => negb (truthy s) | None => true end.

(** [os.environ[k] = v]; a NUL in the value is refused. *)
Definition environ_set (k v : pystr) : M unit :=
  fun w =>
    if existsb (N.eqb 0) v then (inl ValueError, w)
    else (inr tt, set_environ w (<[k := v]> (w_environ w))).

(** ** [_load_repo_env_fallbacks] *)

Fixpoint startswith (prefix s : pystr) : bool :=
  match prefix, s with
  | [], _ => true
  | a :: p, b :: r => (a =? b) && startswith p r
  | _ :: _, [] => false
  end.

Definition endswith1 (c : N) (s : pystr) : bool :=
  match List.last (map Some s) None with
  | Some d => d =? c
  | None => false
  end.

(** [val[1:-1]] *)
Definition slice_1_m1 (s : pystr) : pystr := removelast (tail s).

Definition dquote : N := 34.
Definition squote : N := 39.

(** The inner function [get_key]: the first line of [content] that starts
    with [key=] gives the value, stripped, without its pair of quotes. *)
Definition get_key (content key : pystr) : option pystr :=
  match List.find (startswith (key ++ py "=")) (split_on 10 content) with
  | None => None
  | Some line =>
      let val := strip (drop (length key + 1) line) in
      if (startswith [dquote] val && endswith1 dquote val)
         || (startswith [squote] val && endswith1 squote val)
      then Some (slice_1_m1 val)
      else Some val
  end.

Definition fallback (content var key : pystr) : M unit :=
  cur <- environ_get var ;;
  if falsy cur then
    match get_key content key with
    | Some v => if truthy v then environ_set var v else ret tt
    | None => ret tt
    end
  else ret tt.

Definition _load_repo_env_fallbacks : M unit :=
  repo_env <- gets w_repo_env ;;
  present <- path_exists repo_env ;;
  if negb present then ret tt
  else
    read <- try_except (content <- path_read_text repo_env ;; ret (Some content))
                       (ret None) ;;
    match read with
    | None => ret tt
    | Some content =>
        fallback content (py "BS_DB_NAME") (py "DB_DATABASE") ;;
        fallback content (py "BS_DB_USER") (py "DB_USERNAME") ;;
        fallback content (py "BS_DB_PASS") (py "DB_PASSWORD")
    end.

(** ** [_connect] and [fetch_pages] *)

Definition BS_DB_HOST : pystr := py "BS_DB_HOST".
Definition BS_DB_PORT : pystr := py "BS_DB_PORT".
Definition BS_DB_NAME : pystr := py "BS_DB_NAME".
Definition BS_DB_USER : pystr := py "BS_DB_USER".
Definition BS_DB_PASS : pystr := py "BS_DB_PASS".

Definition required_vars : list pystr :=
  [BS_DB_HOST; BS_DB_NAME; BS_DB_USER; BS_DB_PASS].

(** The variables the loop of [_connect] collects in [missing]. *)
Definition missing_vars (env : gmap pystr pystr) : list pystr :=
  List.filter (fun k => falsy (env !! k)) required_vars.

Definition newline : pystr := [10].

Definition missing_message (missing : list pystr) (repo : pystr) : pystr :=
  py "Missing env: " ++ str_join (py ", ") missing ++ newline
  ++ py "Set BS_DB_HOST/BS_DB_PORT/BS_DB_NAME/BS_DB_USER/BS_DB_PASS."
  ++ newline
  ++ py "Repo .env loaded for DB name/user/pass: " ++ repo ++ newline
  ++ py "Hint: If DB isn't exposed on host, publish 3306:3306 to 127.0.0.1 or run inside the compose network.".

(** [os.environ[k]] *)
Definition environ_item (k : pystr) : M pystr :=
  v <- environ_get k ;;
  match v with Some s => ret s | None => raise KeyError end.

Definition _connect `{Libs} : M ConnParams :=
  env <- gets w_environ ;;
  let missing := missing_vars env in
  match missing with
  | _ :: _ =>
      repo_env <- gets w_repo_env ;;
      present <- path_exists repo_env ;;
      raise (SystemExit
        (missing_message missing
           (if present then path_str repo_env else py "not found")))
  | [] =>
      host <- environ_item BS_DB_HOST ;;
      port <- match env !! BS_DB_PORT with
              | None => ret 3306%Z
              | Some s => match int_of_str s with
                          | Some z => ret z
                          | None => raise ValueError
                          end
              end ;;
      user <- environ_item BS_DB_USER ;;
      password <- environ_item BS_DB_PASS ;;
      database <- environ_item BS_DB_NAME ;;
      let conn := {| c_host := host; c_port := port; c_user := user;
                     c_password := password; c_database := database |} in
      log (EvConnect conn) ;;
      reply <- gets (fun w => w_db w conn) ;;
      match reply with
      | ConnectFails => raise DatabaseError
      | _ => ret conn
      end
  end.

(** The data frame of [fetch_pages] is the list of its rows. *)
Definition fetch_pages `{Libs} : M (list PageRow) :=
  conn <- _connect ;;
  log (EvExecute conn) ;;
  reply <- gets (fun w => w_db w conn) ;;
  match reply with
  | Rows rows => ret rows
  | _ => raise DatabaseError
  end.

(** ** [export_pages] *)

(** [x or d] for a value that may be [None]. *)
Definition opt_or (x : option pystr) (d : pystr) : pystr :=
  match x with Some s => str_or s d | None => d end.

(** The variables [book_dir], [subdir], [fname] and [fpath] of the loop. *)
Definition book_dir `{UnicodeDB} (row : PageRow) : pystr :=
  _safe_name (opt_or (r_book_name row) (py "No_Book")).

Definition subdir `{UnicodeDB} (out_dir : Path) (row : PageRow) : Path :=
  match r_chapter_name row with
  | Some chapter =>
      if truthy chapter
      then path_join (path_join out_dir (book_dir row)) (_safe_name chapter)
      else path_join out_dir (book_dir row)
  | None => path_join out_dir (book_dir row)
  end.

Definition fname `{UnicodeDB} (row : PageRow) (ext : pystr) : pystr :=
  format_06d (r_id row) ++ py "_" ++ _safe_name (opt_or (r_name row) [])
  ++ py "." ++ ext.

Definition fpath `{UnicodeDB} (out_dir : Path) (prefer_markdown : bool)
    (row : PageRow) : Path :=
  path_join (subdir out_dir row)
    (fname row (snd (_pick_content row prefer_markdown))).

(** One turn of the loop: the directory, the file, and the record that is
    appended to [exports]. *)
Definition export_row `{UnicodeDB} (out_dir : Path) (prefer_markdown : bool)
    (row : PageRow) : M ExportRecord :=
  path_mkdir (subdir out_dir row) ;;
  let (content, ext) := _pick_content row prefer_markdown in
  let fpath := path_join (subdir out_dir row) (fname row ext) in
  path_write_text fpath content ;;
  ret {| e_page_id := r_id row;
         e_book := r_book_name row;
         e_chapter := r_chapter_name row;
         e_name := r_name row;
         e_slug := r_slug row;
         e_path := path_str fpath;
         e_ext := ext;
         e_updated_at := r_updated_at row |}.

Fixpoint export_rows `{UnicodeDB} (out_dir : Path) (prefer_markdown : bool)
    (rows : list PageRow) (exports : list ExportRecord)
    : M (list ExportRecord) :=
  match rows with
  | [] => ret exports
  | row :: rest =>
      record <- export_row out_dir prefer_markdown row ;;
      export_rows out_dir prefer_markdown rest (exports ++ [record])
  end.

Definition index_path (out_dir : Path) : Path :=
  path_join out_dir (py "_index.csv").

Definition export_pages `{UnicodeDB} `{Libs} (out_dir : Path)
    (prefer_markdown : bool) : M (list ExportRecord) :=
  path_mkdir out_dir ;;
  df <- fetch_pages ;;
  exports <- export_rows out_dir prefer_markdown df [] ;;
  log (EvToCsv (index_path out_dir) exports) ;;
  write_bytes_of (index_path out_dir) (to_csv exports) ;;
  ret exports.

(** ** [main] and the script *)

Record Args := { a_out : Path; a_html : bool }.

Definition main `{UnicodeDB} `{Libs} (args : Args) : M unit :=
  _load_repo_env_fallbacks ;;
  let prefer_md := negb (a_html args) in
  idx <- export_pages (a_out args) prefer_md ;;
  log (EvPrint (length idx) (a_out args)).

Definition py_assert (b : bool) : M unit :=
  if b then ret tt else raise AssertionError.

Definition _test_safe_name `{UnicodeDB} : M unit :=
  py_assert (pystr_eqb (_safe_name (py "A/B:C*D?")) (py "ABCD")) ;;
  py_assert (pystr_eqb (_safe_name (py "   Hello  World  ")) (py "Hello_World")).

Definition _test_pick_content : M unit :=
  py_assert (bool_decide (_pick_content (row_of "x" "y") true = (py "x", py "md"))) ;;
  py_assert (bool_decide (_pick_content (row_of "" "y") true = (py "y", py "html"))).

(** The block under [if __name__ == "__main__"]. *)
Definition script `{UnicodeDB} `{Libs} (args : Args) : M unit :=
  _test_safe_name ;;
  _test_pick_content ;;
  main args.

(** ** Predicates used to state the properties *)

(** No character of the string is white space. *)
Definition no_space (s : pystr) : bool := forallb (fun c => negb (isspace c)) s.

(** A character of a sanitized name: in the kept set and not white space. *)
Definition clean `{UnicodeDB} (c : N) : bool := name_char c && negb (isspace c).

(** The ASCII punctuation ([string.punctuation]). *)
Definition is_punctuation (c : N) : bool :=
  ((33 <=? c) && (c <=? 47)) || ((58 <=? c) && (c <=? 64))
  || ((91 <=? c) && (c <=? 96)) || ((123 <=? c) && (c <=? 126)).

(** The punctuation the sanitizer does not delete: dash, dot and underscore
    are kept, and a slash becomes a dash. *)
Definition kept_punctuation (c : N) : bool :=
  (c =? dash) || (c =? dot) || (c =? underscore) || (c =? slash).


(** A character of a formatted id: a digit or the sign. *)
Definition id_char (c : N) : bool := ((48 <=? c) && (c <=? 57)) || (c =? dash).

(** ** The output layout as the specification words it *)

Module LayoutSpec.

(** The directory [<p>/<name>/] for a single name: the name [.] is [p]
    itself. *)
Definition component (name : pystr) : list pystr :=
  if pystr_eqb name (py ".") then [] else [name].

(** The sanitized book name, or the placeholder when the row has none. *)
Definition book_component `{UnicodeDB} (row : PageRow) : pystr :=
  match r_book_name row with
  | Some b => if truthy b then SafeNameSpec.sanitize b else py "No_Book"
  | None => py "No_Book"
  end.

(** The chapter directory of a row whose chapter name is not empty. *)
Definition chapter_component `{UnicodeDB} (row : PageRow) : list pystr :=
  match r_chapter_name row with
  | Some c => if truthy c then component (SafeNameSpec.sanitize c) else []
  | None => []
  end.

Definition page_name (row : PageRow) : pystr :=
  match r_name row with Some s => s | None => [] end.

(** Id, underscore, sanitized page name, dot, extension. *)
Definition file_name `{UnicodeDB} (row : PageRow) (ext : pystr) : pystr :=
  format_06d (r_id row) ++ [underscore]
  ++ SafeNameSpec.sanitize (page_name row) ++ [dot] ++ ext.

Definition parts `{UnicodeDB} (out_dir : Path) (row : PageRow)
    (ext : pystr) : list pystr :=
  p_parts out_dir ++ component (book_component row)
  ++ chapter_component row ++ [file_name row ext].

End LayoutSpec.

(** ** Names used to state the configuration properties *)

(** The environment variables with a fall-back, and their key in the
    settings file. *)
Definition fallback_keys : list (pystr * pystr) :=
  [(BS_DB_NAME, py "DB_DATABASE");
   (BS_DB_USER, py "DB_USERNAME");
   (BS_DB_PASS, py "DB_PASSWORD")].

(** What three fall-backs in a row do to the environment. *)
Definition fell_back (content : pystr) (env env' : gmap pystr pystr) : Prop :=
  forall k,
    env' !! k = env !! k
    \/ (falsy (env !! k) = true
        /\ exists key v, In (k, key) fallback_keys
             /\ get_key content key = Some v /\ truthy v = true
             /\ env' !! k = Some v).

(** The exception of [_connect] when variables are missing. *)
Definition config_error (w : World) : exn :=
  SystemExit
    (missing_message (missing_vars (w_environ w))
       (if os_exists (w_fs w) (base_of w (w_repo_env w))
             (p_parts (w_repo_env w))
        then path_str (w_repo_env w) else py "not found")).

(** ** Sample inputs, to run the definitions *)

(** Stand-ins for the two library functions: a parser of plain decimal
    digits and an unquoted comma-separated text. *)
Fixpoint digits_value (acc : N) (s : pystr) : option N :=
  match s with
  | [] => Some acc
  | c :: r =>
      if (48 <=? c) && (c <=? 57) then digits_value (10 * acc + (c - 48)) r
      else None
  end.

Definition csv_line (e : ExportRecord) : pystr :=
  str_join (py ",")
    [format_06d (e_page_id e); or_empty (e_book e); or_empty (e_chapter e);
     or_empty (e_name e); or_empty (e_slug e); e_path e; e_ext e;
     or_empty (e_updated_at e)] ++ newline.

Definition plain_libs : Libs :=
  {| int_of_str := fun s =>
       match s with
       | [] => None
       | _ => Z.of_N <$> digits_value 0 s
       end;
     to_csv := fun l =>
       py "page_id,book,chapter,name,slug,path,ext,updated_at" ++ newline
       ++ concat (map csv_line l) |}.

Definition bytes_of (s : pystr) : list Byte.byte :=
  match utf8_encode s with Some b => b | None => [] end.

Definition sample_settings : pystr :=
  str_join newline
    [py "APP_URL=http://wiki.local";
     py "DB_DATABASE=wiki";
     py "DB_USERNAME='reader'";
     py "DB_PASSWORD= " ++ [dquote] ++ py "s3cret" ++ [dquote];
     []].

Definition sample_repo_env : Path :=
  {| p_abs := true; p_parts := [py "srv"; py "repo"; py ".env"] |}.

Definition sample_fs : gmap loc node :=
  <[[py "srv"; py "repo"; py ".env"] := File (bytes_of sample_settings)]>
    (<[[py "srv"; py "repo"] := Dir]>
       (<[[py "srv"] := Dir]> (<[[py "home"] := Dir]> ∅))).

Definition sample_rows : list PageRow :=
  [ {| r_id := 1; r_name := Some (py "Intro page"); r_slug := Some (py "intro");
       r_book_name := Some (py "My Book"); r_chapter_name := None;
       r_html := Some (py "<p>hi</p>"); r_markdown := Some (py " # hi ");
       r_updated_at := Some (py "2024-01-01 10:00:00") |};
    {| r_id := 12; r_name := Some (py "a/b"); r_slug := Some (py "ab");
       r_book_name := Some (py "My Book"); r_chapter_name := Some (py "Ch 1");
       r_html := Some (py "<p>x</p>"); r_markdown := None;
       r_updated_at := None |} ].

Definition sample_world (env : gmap pystr pystr) : World :=
  {| w_cwd := [py "home"];
     w_repo_env := sample_repo_env;
     w_environ := env;
     w_fs := sample_fs;
     w_db := fun _ => Rows sample_rows;
     w_trace := [] |}.

(** The name is set but empty, the host is given, user and password are
    not. *)
Definition env_empty_name : gmap pystr pystr :=
  <[BS_DB_HOST := py "127.0.0.1"]> (<[BS_DB_NAME := []]> ∅).

(** Everything the connection needs. *)
Definition env_complete : gmap pystr pystr :=
  <[BS_DB_HOST := py "127.0.0.1"]>
    (<[BS_DB_NAME := py "wiki"]>
       (<[BS_DB_USER := py "reader"]> (<[BS_DB_PASS := py "s3cret"]> ∅))).

Definition sample_out : Path := {| p_abs := false; p_parts := [py "out"] |}.

(** ** Relations between file trees *)

(** [fs'] is [fs] with directories added where there was nothing. *)
Definition grown (fs fs' : gmap loc node) : Prop :=
  (forall l x, fs !! l = Some x -> fs' !! l = Some x)
  /\ (forall l x, fs' !! l = Some x -> fs !! l = Some x \/ x = Dir).

(** Every directory of [fs] is still one in [fs']. *)
Definition dirs_kept (fs fs' : gmap loc node) : Prop :=
  forall l, fs !! l = Some Dir -> fs' !! l = Some Dir.

(** Every file of [fs] whose name is not in [names] is unchanged in [fs']. *)
Definition files_kept (names : list pystr) (fs fs' : gmap loc node) : Prop :=
  forall l d, fs !! l = Some (File d) ->
    (forall f, In f names -> last l <> Some f) ->
    fs' !! l = Some (File d).

(** ** Names used to state the export properties *)

(** The content and the extension chosen for a row. *)
Definition content_of (prefer_markdown : bool) (row : PageRow) : pystr :=
  fst (_pick_content row prefer_markdown).

Definition ext_of (prefer_markdown : bool) (row : PageRow) : pystr :=
  snd (_pick_content row prefer_markdown).

(** The name of the file written for a row. *)
Definition name_of `{UnicodeDB} (prefer_markdown : bool) (row : PageRow) : pystr :=
  fname row (ext_of prefer_markdown row).

(** The record [export_pages] appends for a row. *)
Definition record_of `{UnicodeDB} (out_dir : Path) (prefer_markdown : bool)
    (row : PageRow) : ExportRecord :=
  {| e_page_id := r_id row;
     e_book := r_book_name row;
     e_chapter := r_chapter_name row;
     e_name := r_name row;
     e_slug := r_slug row;
     e_path := path_str (fpath out_dir prefer_markdown row);
     e_ext := ext_of prefer_markdown row;
     e_updated_at := r_updated_at row |}.

(** The two file operations of one turn of the loop. *)
Definition row_events `{UnicodeDB} (out_dir : Path) (prefer_markdown : bool)
    (row : PageRow) : list event :=
  [EvMkdir (subdir out_dir row);
   EvWriteText (fpath out_dir prefer_markdown row)
     (content_of prefer_markdown row)].

(** The bytes found at a path, when it names a regular file. *)
Definition file_at (w : World) (p : Path) : option (list Byte.byte) :=
  match os_read (w_fs w) (base_of w p) (p_parts p) with
  | inr d => Some d
  | inl _ => None
  end.

(** The place in the tree a path names. *)
Definition place_of (w : World) (p : Path) : option loc :=
  match locate (w_fs w) (base_of w p) (p_parts p) with
  | inr l => Some l
  | inl _ => None
  end.

(** A run keeps the process as it is, the file tree and the trace apart. *)
Definition same_process (w w' : World) : Prop :=
  w_cwd w' = w_cwd w /\ w_repo_env w' = w_repo_env w
  /\ w_environ w' = w_environ w /\ w_db w' = w_db w.

(** A complete run over the sample rows. *)
Definition sample_run : (exn + list ExportRecord) * World :=
  @export_pages ascii_db plain_libs sample_out true (sample_world env_complete).

Definition sample_manifest : list ExportRecord :=
  match fst sample_run with inr m => m | inl _ => [] end.

(** ** Names used to state what a run leaves in the tree *)

(** Every entry of the tree lies in a directory of the tree. *)
Definition tree_wf (fs : gmap loc node) : Prop :=
  forall l x, fs !! l = Some x -> node_at fs (removelast l) = Some Dir.

(** [l] is strictly inside the directory [d]. *)
Definition below (d l : loc) : Prop := exists rest, rest <> [] /\ l = d ++ rest.

(** No part of the path is [..]. *)
Definition no_dotdot (parts : list pystr) : Prop :=
  Forall (fun x => x <> py "..") parts.

(** A world where the output directory is there already, with a file of an
    earlier run in it, and where user and password are missing. *)
Definition world_existing_out : World :=
  {| w_cwd := [py "home"];
     w_repo_env := sample_repo_env;
     w_environ := env_empty_name;
     w_fs := <[[py "home"; py "out"; py "old.txt"] := File (bytes_of (py "kept"))]>
               (<[[py "home"; py "out"] := Dir]> sample_fs);
     w_db := fun _ => Rows sample_rows;
     w_trace := [] |}.

(** ** The six digits of a page id, as the specification words them *)

(** The id written with exactly six decimal digits, for an id below one
    million. *)
Definition six_digits (n : N) : pystr :=
  [48 + n / 100000 mod 10; 48 + n / 10000 mod 10; 48 + n / 1000 mod 10;
   48 + n / 100 mod 10; 48 + n / 10 mod 10; 48 + n mod 10].

(** The decimal digit [k] put in front of a number. *)
Definition digit_con (k : N) (d : Decimal.uint) : Decimal.uint :=
  match k with
  | 0 => D0 d | 1 => D1 d | 2 => D2 d | 3 => D3 d | 4 => D4 d
  | 5 => D5 d | 6 => D6 d | 7 => D7 d | 8 => D8 d | _ => D9 d
  end.

(** A number from its digits, the least significant first. *)
Definition lu_of (ds : list N) : Decimal.uint := fold_right digit_con Nil ds.

(** ** Names used to state further properties of the run *)

(** The port [_connect] passes on: the default when [BS_DB_PORT] is absent,
    otherwise what [int] makes of its value. *)
Definition port_of `{Libs} (env : gmap pystr pystr) : exn + Z :=
  match env !! BS_DB_PORT with
  | None => inr 3306%Z
  | Some s =>
      match int_of_str s with
      | Some z => inr z
      | None => inl ValueError
      end
  end.

(** The arguments of [pymysql.connect], in the order the call evaluates
    them. *)
Definition conn_params_of `{Libs} (env : gmap pystr pystr) : exn + ConnParams :=
  match env !! BS_DB_HOST with
  | None => inl KeyError
  | Some host =>
      match port_of env with
      | inl e => inl e
      | inr port =>
          match env !! BS_DB_USER with
          | None => inl KeyError
          | Some user =>
              match env !! BS_DB_PASS with
              | None => inl KeyError
              | Some password =>
                  match env !! BS_DB_NAME with
                  | None => inl KeyError
                  | Some database =>
                      inr {| c_host := host; c_port := port; c_user := user;
                             c_password := password; c_database := database |}
                  end
              end
          end
      end
  end.

(** The names an export gives to the files it writes: the manifest, and
    names that start with a digit or a minus sign. *)
Definition is_export_name (f : pystr) : bool :=
  pystr_eqb f (py "_index.csv")
  || match f with c :: _ => id_char c | [] => false end.

(** A character of the portable file name set: ASCII letters and digits,
    underscore, dash and dot. *)
Definition portable_char (c : N) : bool :=
  ascii_alnum c || (c =? underscore) || (c =? dash) || (c =? dot).

(** No event of the list writes a file. *)
Definition writes_nothing (evs : list event) : bool :=
  forallb (fun ev => match ev with
                     | EvWriteText _ _ | EvToCsv _ _ => false
                     | _ => true
                     end) evs.

(** What a run may not touch: the process, the directories, and the files
    whose name is not one an export gives. *)
Definition untouched (w w' : World) : Prop :=
  same_process w w'
  /\ dirs_kept (w_fs w) (w_fs w')
  /\ forall l d, w_fs w !! l = Some (File d) ->
       (forall f, last l = Some f -> is_export_name f = false) ->
       w_fs w' !! l = Some (File d).

(** Two rows where the chapter directory of the second is the file of the
    first: the second turn of the loop fails. *)
Definition clash_rows : list PageRow :=
  [ {| r_id := 1; r_name := Some (py "x"); r_slug := None;
       r_book_name := Some (py "B"); r_chapter_name := None;
       r_html := Some (py "<p>one</p>"); r_markdown := None;
       r_updated_at := None |};
    {| r_id := 2; r_name := Some (py "y"); r_slug := None;
       r_book_name := Some (py "B");
       r_chapter_name := Some (py "000001_x.html");
       r_html := Some (py "<p>two</p>"); r_markdown := None;
       r_updated_at := None |} ].

Definition clash_run : (exn + list ExportRecord) * World :=
  @export_rows ascii_db sample_out true clash_rows []
    (sample_world env_complete).

Definition clash_error : exn :=
  match fst clash_run with inl e => e | inr _ => AssertionError end.

(** A row is in place: its directory is there and its file holds the bytes
    of its content. *)
Definition in_place `{UnicodeDB} (out_dir : Path) (prefer_markdown : bool)
    (w : World) (row : PageRow) : Prop :=
  os_is_dir (w_fs w) (base_of w out_dir) (p_parts (subdir out_dir row)) = true
  /\ exists bytes,
       utf8_encode (content_of prefer_markdown row) = Some bytes
       /\ file_at w (fpath out_dir prefer_markdown row) = Some bytes.

(** The sample world with a server that accepts the connection and refuses
    the query. *)
Definition world_query_fails : World :=
  {| w_cwd := [py "home"];
     w_repo_env := sample_repo_env;
     w_environ := env_complete;
     w_fs := sample_fs;
     w_db := fun _ => QueryFails;
     w_trace := [] |}.

(** A complete environment with a port that is no number. *)
Definition env_bad_port : gmap pystr pystr :=
  <[BS_DB_PORT := py "33o6"]> env_complete.

(** The sample world with a directory where the settings file should be. *)
Definition world_settings_dir : World :=
  {| w_cwd := [py "home"];
     w_repo_env := sample_repo_env;
     w_environ := env_empty_name;
     w_fs := <[[py "srv"; py "repo"; py ".env"] := Dir]> sample_fs;
     w_db := fun _ => Rows sample_rows;
     w_trace := [] |}.

(** A page of a book named [..]. *)
Definition dotdot_row : PageRow :=
  {| r_id := 7; r_name := Some (py "passwd"); r_slug := None;
     r_book_name := Some (py ".."); r_chapter_name := None;
     r_html := Some (py "<p>x</p>"); r_markdown := None;
     r_updated_at := None |}.

(** The sample world with the output directory [/home/out] in place. *)
Definition world_with_out : World :=
  {| w_cwd := [py "home"];
     w_repo_env := sample_repo_env;
     w_environ := env_complete;
     w_fs := <[[py "home"; py "out"] := Dir]> sample_fs;
     w_db := fun _ => Rows [dotdot_row];
     w_trace := [] |}.

(** A page of a book named like the manifest. *)
Definition index_row : PageRow :=
  {| r_id := 3; r_name := Some (py "notes"); r_slug := None;
     r_book_name := Some (py "_index.csv"); r_chapter_name := None;
     r_html := Some (py "<p>n</p>"); r_markdown := None;
     r_updated_at := None |}.

Definition world_index_book : World :=
  {| w_cwd := [py "home"];
     w_repo_env := sample_repo_env;
     w_environ := env_complete;
     w_fs := sample_fs;
     w_db := fun _ => Rows [index_row];
     w_trace := [] |}.

(** The command line [--out out --html]. *)
Definition sample_args_html : Args := {| a_out := sample_out; a_html := true |}.
(** * Properties *)

(** ** Stripping *)

Lemma lstrip_app (l m : pystr) :
  lstrip (l ++ m) = if forallb isspace l then lstrip m else lstrip l ++ m.
Proof.
  induction l as [|c l IH]; simpl; [reflexivity|].
  destruct (isspace c); simpl; [exact IH|reflexivity].
Qed.

Lemma lstrip_all_space (l : pystr) : forallb isspace l = true -> lstrip l = [].
Proof.
  induction l as [|c l IH]; simpl; [reflexivity|].
  destruct (isspace c); simpl; [exact IH|discriminate].
Qed.

Lemma lstrip_some_left (l : pystr) :
  forallb isspace l = false -> truthy (lstrip l) = true.
Proof.
  induction l as [|c l IH]; simpl; [discriminate|].
  destruct (isspace c) eqn:E; simpl; [exact IH|reflexivity].
Qed.

Lemma truthy_rev (l : pystr) : truthy (rev l) = truthy l.
Proof.
  destruct l as [|c l]; simpl; [reflexivity|].
  destruct (rev l ++ [c]) eqn:E; [|reflexivity].
  apply app_eq_nil in E. destruct E; discriminate.
Qed.

Lemma rstrip_cons (c : N) (r : pystr) :
  rstrip (c :: r) =
    if truthy (rstrip r) then c :: rstrip r
    else if isspace c then [] else [c].
Proof.
  unfold rstrip. simpl rev. rewrite lstrip_app.
  destruct (forallb isspace (rev r)) eqn:E.
  - rewrite (lstrip_all_space _ E). simpl.
    destruct (isspace c); reflexivity.
  - rewrite truthy_rev, (lstrip_some_left _ E).
    rewrite rev_app_distr. reflexivity.
Qed.

Lemma truthy_false (s : pystr) : truthy s = false -> s = [].
Proof. destruct s; [reflexivity|discriminate]. Qed.

Lemma lstrip_rstrip (s : pystr) : rstrip (lstrip s) = lstrip (rstrip s).
Proof.
  induction s as [|c r IH]; [reflexivity|].
  simpl lstrip at 1. rewrite (rstrip_cons c r).
  destruct (isspace c) eqn:E.
  - rewrite IH. destruct (truthy (rstrip r)) eqn:T.
    + simpl. rewrite E. reflexivity.
    + rewrite (truthy_false _ T). reflexivity.
  - rewrite (rstrip_cons c r).
    destruct (truthy (rstrip r)); simpl; rewrite E; reflexivity.
Qed.

Lemma lstrip_no_space (s : pystr) : no_space s = true -> lstrip s = s.
Proof.
  destruct s as [|c r]; simpl; [reflexivity|].
  destruct (isspace c); simpl; [discriminate|reflexivity].
Qed.

Lemma no_space_rev (s : pystr) : no_space (rev s) = no_space s.
Proof.
  unfold no_space. induction s as [|c r IH]; simpl; [reflexivity|].
  rewrite forallb_app, IH. simpl. rewrite andb_true_r. apply andb_comm.
Qed.

Lemma strip_no_space (s : pystr) : no_space s = true -> strip s = s.
Proof.
  intros Hs. unfold strip, rstrip. rewrite (lstrip_no_space _ Hs).
  rewrite lstrip_no_space by (rewrite no_space_rev; exact Hs).
  apply rev_involutive.
Qed.

(** The result of [strip] starts and ends with something else than white
    space. *)
Lemma lstrip_head (s : pystr) :
  match lstrip s with [] => True | c :: _ => isspace c = false end.
Proof.
  induction s as [|c r IH]; simpl; [exact I|].
  destruct (isspace c) eqn:E; [exact IH|exact E].
Qed.

Lemma strip_head (s : pystr) :
  match strip s with [] => True | c :: _ => isspace c = false end.
Proof.
  unfold strip. rewrite lstrip_rstrip. apply lstrip_head.
Qed.

Lemma strip_last (s : pystr) :
  match rev (strip s) with [] => True | c :: _ => isspace c = false end.
Proof.
  unfold strip, rstrip. rewrite rev_involutive. apply lstrip_head.
Qed.

(** ** The steps of [_safe_name] against the steps of the specification *)

Section SafeName.
Context `{U : UnicodeDB}.

Lemma trim_right_rstrip (s : pystr) : SafeNameSpec.trim_right s = rstrip s.
Proof.
  induction s as [|c r IH]; [reflexivity|].
  rewrite rstrip_cons. simpl. rewrite IH.
  destruct (truthy (rstrip r)) eqn:T.
  - rewrite andb_false_r. reflexivity.
  - rewrite andb_true_r, (truthy_false _ T).
    destruct (isspace c); reflexivity.
Qed.

Lemma trim_strip (s : pystr) : SafeNameSpec.trim s = strip s.
Proof.
  unfold SafeNameSpec.trim, strip.
  rewrite trim_right_rstrip. symmetry. apply lstrip_rstrip.
Qed.

Lemma replace_dash_separators (s : pystr) :
  str_replace1 slash (py "-") s = SafeNameSpec.dash_separators s.
Proof.
  induction s as [|c r IH]; [reflexivity|].
  unfold str_replace1, SafeNameSpec.dash_separators in *. simpl.
  rewrite IH. unfold SafeNameSpec.is_path_separator.
  destruct (c =? slash); reflexivity.
Qed.

Lemma name_char_allowed (c : N) : name_char c = SafeNameSpec.allowed c.
Proof.
  unfold name_char, SafeNameSpec.allowed, isword,
    SafeNameSpec.is_alphanumeric, underscore.
  destruct (c <? 128) eqn:E; [reflexivity|].
  apply N.ltb_ge in E.
  replace (c =? 95) with false by (symmetry; apply N.eqb_neq; lia).
  rewrite orb_false_r. reflexivity.
Qed.

Lemma sub_remove_disallowed (s : pystr) :
  re_sub_set (fun c => negb (name_char c)) [] s
  = SafeNameSpec.remove_disallowed s.
Proof.
  unfold re_sub_set, SafeNameSpec.remove_disallowed.
  induction s as [|c r IH]; [reflexivity|].
  simpl. rewrite IH, <- name_char_allowed.
  destruct (name_char c); reflexivity.
Qed.

Lemma sub_plus_in_match (repl s : pystr) :
  re_sub_plus_from isspace repl true s
  = re_sub_plus_from isspace repl false (lstrip s).
Proof.
  induction s as [|c r IH]; [reflexivity|].
  simpl. destruct (isspace c) eqn:E; [exact IH|].
  simpl. rewrite E. reflexivity.
Qed.

Lemma sub_plus_collapse (s : pystr) :
  re_sub_plus isspace (py "_") s = SafeNameSpec.collapse_whitespace s.
Proof.
  unfold re_sub_plus.
  funelim (SafeNameSpec.collapse_whitespace s); [reflexivity|].
  simpl. destruct (isspace c) eqn:E.
  - rewrite sub_plus_in_match, H. reflexivity.
  - rewrite H0. reflexivity.
Qed.

End SafeName.

(** ** What [_safe_name] returns *)

Lemma ascii_forall (P : N -> bool) :
  forallb P (map N.of_nat (seq 0 128)) = true ->
  forall c, c < 128 -> P c = true.
Proof.
  intros H c Hc. rewrite forallb_forall in H. apply H.
  apply in_map_iff. exists (N.to_nat c). split; [apply N2Nat.id|].
  apply in_seq. lia.
Qed.

Section SafeNameOutput.
Context `{U : UnicodeDB}.

Lemma clean_no_space (s : pystr) : forallb clean s = true -> no_space s = true.
Proof.
  unfold no_space. induction s as [|c r IH]; simpl; [reflexivity|].
  unfold clean at 1. intros H.
  apply andb_true_iff in H as [Hc Hr]. apply andb_true_iff in Hc as [_ Hc].
  rewrite Hc. exact (IH Hr).
Qed.

Lemma clean_name_char (s : pystr) :
  forallb clean s = true -> forallb name_char s = true.
Proof.
  induction s as [|c r IH]; simpl; [reflexivity|].
  unfold clean at 1. intros H.
  apply andb_true_iff in H as [Hc Hr]. apply andb_true_iff in Hc as [Hc _].
  rewrite Hc. exact (IH Hr).
Qed.

Lemma name_char_not_slash (c : N) : name_char c = true -> (c =? slash) = false.
Proof.
  intros H. destruct (N.eqb_spec c slash) as [->|]; [|reflexivity].
  vm_compute in H. discriminate.
Qed.

Lemma replace_no_slash (s : pystr) :
  forallb name_char s = true -> str_replace1 slash (py "-") s = s.
Proof.
  unfold str_replace1. induction s as [|c r IH]; simpl; [reflexivity|].
  intros H. apply andb_true_iff in H as [Hc Hr].
  rewrite (name_char_not_slash _ Hc), (IH Hr). reflexivity.
Qed.

Lemma sub_set_keeps (s : pystr) :
  forallb name_char s = true ->
  re_sub_set (fun c => negb (name_char c)) [] s = s.
Proof.
  unfold re_sub_set. induction s as [|c r IH]; simpl; [reflexivity|].
  intros H. apply andb_true_iff in H as [Hc Hr].
  rewrite Hc, (IH Hr). reflexivity.
Qed.

Lemma sub_set_name_char (s : pystr) :
  forallb name_char (re_sub_set (fun c => negb (name_char c)) [] s) = true.
Proof.
  unfold re_sub_set. induction s as [|c r IH]; simpl; [reflexivity|].
  destruct (name_char c) eqn:E; simpl; [rewrite E|]; exact IH.
Qed.

Lemma sub_plus_keeps (repl : pystr) (s : pystr) :
  no_space s = true -> re_sub_plus_from isspace repl false s = s.
Proof.
  unfold no_space. induction s as [|c r IH]; simpl; [reflexivity|].
  intros H. apply andb_true_iff in H as [Hc Hr].
  apply negb_true_iff in Hc. rewrite Hc, (IH Hr). reflexivity.
Qed.

Lemma sub_plus_clean (flag : bool) (s : pystr) :
  forallb name_char s = true ->
  forallb clean (re_sub_plus_from isspace (py "_") flag s) = true.
Proof.
  revert flag. induction s as [|c r IH]; intros flag; simpl; [reflexivity|].
  intros H. apply andb_true_iff in H as [Hc Hr].
  destruct (isspace c) eqn:E.
  - destruct flag; simpl; apply IH; exact Hr.
  - simpl. unfold clean at 1. rewrite Hc, E. simpl. apply IH. exact Hr.
Qed.

Lemma forallb_take (P : N -> bool) (n : nat) (s : pystr) :
  forallb P s = true -> forallb P (take n s) = true.
Proof.
  revert n. induction s as [|c r IH]; intros [|n]; simpl; try reflexivity.
  intros H. apply andb_true_iff in H as [Hc Hr].
  rewrite Hc. exact (IH n Hr).
Qed.

Lemma safe_name_clean (s : pystr) : forallb clean (_safe_name s) = true.
Proof.
  unfold _safe_name, str_or.
  destruct (truthy (take 120 _)) eqn:T; [|reflexivity].
  apply forallb_take, sub_plus_clean, sub_set_name_char.
Qed.

Lemma safe_name_length (s : pystr) : (length (_safe_name s) <= 120)%nat.
Proof.
  unfold _safe_name, str_or.
  destruct (truthy (take 120 _)) eqn:T.
  - rewrite length_take. lia.
  - simpl. lia.
Qed.

Lemma safe_name_truthy (s : pystr) : truthy (_safe_name s) = true.
Proof.
  unfold _safe_name, str_or.
  destruct (truthy (take 120 _)) eqn:T; [exact T|reflexivity].
Qed.

(** A clean, short, non-empty name is a fixed point. *)
Lemma safe_name_fixed (s : pystr) :
  forallb clean s = true -> (length s <= 120)%nat -> truthy s = true ->
  _safe_name s = s.
Proof.
  intros Hc Hl Ht. unfold _safe_name.
  pose proof (clean_no_space _ Hc) as Hs.
  pose proof (clean_name_char _ Hc) as Hn.
  rewrite (strip_no_space _ Hs), (replace_no_slash _ Hn).
  rewrite (sub_set_keeps _ Hn). unfold re_sub_plus.
  rewrite (sub_plus_keeps _ _ Hs), take_ge by exact Hl.
  unfold str_or. rewrite Ht. reflexivity.
Qed.

Lemma clean_not_in (c : N) (s : pystr) :
  name_char c = false -> forallb clean s = true -> ~ In c s.
Proof.
  intros Hc Hs Hin. rewrite forallb_forall in Hs.
  specialize (Hs c Hin). unfold clean in Hs. rewrite Hc in Hs. discriminate.
Qed.

Lemma punctuation_deleted (c : N) :
  is_punctuation c && negb (kept_punctuation c) = true ->
  isspace c = false /\ (c =? slash) = false /\ name_char c = false.
Proof.
  intros H.
  assert (Hc : c < 128).
  { apply andb_true_iff in H as [H _]. unfold is_punctuation in H.
    rewrite !orb_true_iff, !andb_true_iff, !N.leb_le in H. lia. }
  pose proof (ascii_forall
    (fun c => implb (is_punctuation c && negb (kept_punctuation c))
                (negb (isspace c) && negb (c =? slash) && negb (name_char c)))
    eq_refl c Hc) as HP.
  simpl in HP. rewrite H in HP. simpl in HP.
  apply andb_true_iff in HP as [HP H3]. apply andb_true_iff in HP as [H1 H2].
  rewrite negb_true_iff in H1, H2, H3. auto.
Qed.

Lemma punctuation_sanitized (s : pystr) :
  forallb (fun c => is_punctuation c && negb (kept_punctuation c)) s = true ->
  no_space s = true
  /\ str_replace1 slash (py "-") s = s
  /\ re_sub_set (fun c => negb (name_char c)) [] s = [].
Proof.
  unfold no_space, str_replace1, re_sub_set.
  induction s as [|c r IH]; simpl; [auto|].
  intros H. apply andb_true_iff in H as [Hc Hr].
  destruct (punctuation_deleted c Hc) as (H1 & H2 & H3).
  destruct (IH Hr) as (I1 & I2 & I3).
  rewrite H1, H2, H3, I1, I2, I3. auto.
Qed.

End SafeNameOutput.

(** ** The sanitizer: algorithm, idempotence, safety *)

Lemma safe_name_steps `{U : UnicodeDB} (name : pystr) :
  re_sub_plus isspace (py "_")
    (re_sub_set (fun c => negb (name_char c)) []
       (str_replace1 slash (py "-") (strip name)))
  = SafeNameSpec.collapse_whitespace
      (SafeNameSpec.remove_disallowed
         (SafeNameSpec.dash_separators (SafeNameSpec.trim name))).
Proof.
  rewrite <- trim_strip.
  rewrite replace_dash_separators, sub_remove_disallowed, sub_plus_collapse.
  reflexivity.
Qed.

(** The same fact as C3 below, for use in the lemmas on paths. *)
Lemma safe_name_sanitize `{U : UnicodeDB} (name : pystr) :
  _safe_name name = SafeNameSpec.sanitize name.
Proof.
  unfold _safe_name, SafeNameSpec.sanitize. rewrite safe_name_steps.
  unfold str_or, SafeNameSpec.max_length. destruct (take 120 _); reflexivity.
Qed.

(** C3. For every input string, [_safe_name] computes the algorithm of the
    specification: trim surrounding whitespace, turn path separators into a
    dash, remove every character that is not alphanumeric, underscore,
    dash, whitespace or dot, collapse each run of whitespace into one
    underscore, keep at most 120 characters, and return ["untitled"] when
    nothing is left. *)
Theorem safe_name_computes_spec `{U : UnicodeDB} (name : pystr) :
  _safe_name name = SafeNameSpec.sanitize name.
Proof.
  unfold _safe_name, SafeNameSpec.sanitize, SafeNameSpec.max_length,
    SafeNameSpec.placeholder.
  rewrite safe_name_steps.
  unfold str_or. destruct (take 120 _) as [|c r]; simpl.
  - reflexivity.
  - reflexivity.
Qed.

(** C4. [_safe_name] is idempotent, and identical inputs give identical
    outputs. *)
Theorem safe_name_idempotent_deterministic `{U : UnicodeDB} :
  (forall s : pystr, _safe_name (_safe_name s) = _safe_name s)
  /\ (forall s1 s2 : pystr, s1 = s2 -> _safe_name s1 = _safe_name s2).
Proof.
  split.
  - intros s. apply safe_name_fixed.
    + apply safe_name_clean.
    + apply safe_name_length.
    + apply safe_name_truthy.
  - intros s1 s2 ->. reflexivity.
Qed.

Lemma safe_name_idempotent_deterministic_witness :
  @_safe_name latin1_db (@_safe_name latin1_db (py " a/b  c?.txt "))
    = @_safe_name latin1_db (py " a/b  c?.txt ")
  /\ @_safe_name latin1_db (py "Intro") = @_safe_name latin1_db (py "Intro").
Proof.
  split.
  - exact (proj1 (@safe_name_idempotent_deterministic latin1_db) _).
  - exact (proj2 (@safe_name_idempotent_deterministic latin1_db) _ _ eq_refl).
Defined.

(** C5. The output of [_safe_name] contains no path separator (neither the
    slash nor the backslash) and has at most 120 characters. *)
Theorem safe_name_no_separator_bounded `{U : UnicodeDB} (name : pystr) :
  ~ In slash (_safe_name name)
  /\ ~ In backslash (_safe_name name)
  /\ (length (_safe_name name) <= 120)%nat.
Proof.
  split; [|split].
  - apply clean_not_in; [reflexivity|apply safe_name_clean].
  - apply clean_not_in; [reflexivity|apply safe_name_clean].
  - apply safe_name_length.
Qed.

(** C6, as stated, fails: a dash is punctuation and the sanitizer keeps
    it, so an input made of punctuation alone need not give the
    placeholder. *)
Lemma safe_name_punctuation_kept :
  forallb is_punctuation (py "-") = true
  /\ @_safe_name ascii_db (py "-") = py "-"
  /\ @_safe_name ascii_db (py "-") <> py "untitled".
Proof. repeat split. discriminate. Qed.

(** C6, amended. An input made only of punctuation characters other than
    dash, dot, underscore and slash gives the placeholder ["untitled"]. *)
Theorem safe_name_punctuation_untitled `{U : UnicodeDB} (name : pystr) :
  forallb (fun c => is_punctuation c && negb (kept_punctuation c)) name = true ->
  _safe_name name = py "untitled".
Proof.
  intros H. destruct (punctuation_sanitized name H) as (H1 & H2 & H3).
  unfold _safe_name. rewrite (strip_no_space _ H1), H2, H3. reflexivity.
Qed.

Lemma safe_name_punctuation_untitled_witness :
  forallb (fun c => is_punctuation c && negb (kept_punctuation c))
    (py "?!*:") = true
  /\ @_safe_name ascii_db (py "?!*:") = py "untitled".
Proof.
  split; [reflexivity|].
  apply (@safe_name_punctuation_untitled ascii_db (py "?!*:")). reflexivity.
Defined.

(** The first assertion of the script's own [_test_safe_name] does not
    hold of [_safe_name]: the slash becomes a dash, it is not deleted. *)
Lemma test_safe_name_first_assertion `{U : UnicodeDB} :
  _safe_name (py "A/B:C*D?") = py "A-BCD".
Proof. reflexivity. Qed.

(** ** The content selector *)

(** C1, as stated, fails: the tag of a Markdown result is ["md"], not
    ["markdown"]. *)
Lemma pick_content_tag_is_md :
  _pick_content (row_of "x" "y") true = (py "x", py "md")
  /\ _pick_content (row_of "x" "y") true <> (py "x", py "markdown").
Proof. split; [reflexivity|discriminate]. Qed.

(** C1, amended. The selector returns a pair whose tag is ["md"] or
    ["html"]: with Markdown preferred and a markdown field that is non-empty
    after trimming, the trimmed markdown with tag ["md"]; otherwise the
    trimmed HTML with tag ["html"]. *)
Theorem pick_content_policy (row : PageRow) (prefer_markdown : bool) :
  (snd (_pick_content row prefer_markdown) = py "md"
   \/ snd (_pick_content row prefer_markdown) = py "html")
  /\ _pick_content row prefer_markdown =
       if prefer_markdown && truthy (strip (or_empty (r_markdown row)))
       then (strip (or_empty (r_markdown row)), py "md")
       else (strip (or_empty (r_html row)), py "html").
Proof.
  unfold _pick_content.
  destruct (prefer_markdown && truthy _); simpl; auto.
Qed.

(** The three examples of the specification, with the tag the code gives. *)
Example pick_content_examples :
  _pick_content (row_of "x" "y") true = (py "x", py "md")
  /\ _pick_content (row_of "" "y") true = (py "y", py "html")
  /\ _pick_content (row_of "x" "y") false = (py "y", py "html").
Proof. repeat split. Qed.

Lemma or_empty_default (x : option pystr) :
  or_empty x = match x with Some s => s | None => [] end.
Proof.
  destruct x as [s|]; [|reflexivity]. unfold or_empty, str_or.
  destruct s; reflexivity.
Qed.

(** ** Paths *)

Lemma split_on_no_sep (sep : N) (s : pystr) :
  ~ In sep s -> split_on sep s = [s].
Proof.
  induction s as [|c r IH]; simpl; [reflexivity|].
  intros H. destruct (N.eqb_spec c sep) as [->|Hne].
  - exfalso. apply H. left. reflexivity.
  - rewrite IH by (intros Hin; apply H; right; exact Hin). reflexivity.
Qed.

Lemma parse_parts_single (s : pystr) :
  ~ In slash s -> truthy s = true -> parse_parts s = LayoutSpec.component s.
Proof.
  intros Hs Ht. unfold parse_parts, LayoutSpec.component.
  rewrite (split_on_no_sep _ _ Hs). simpl. rewrite Ht. simpl.
  destruct (pystr_eqb s (py ".")); reflexivity.
Qed.

Lemma path_join_single (p : Path) (s : pystr) :
  ~ In slash s -> truthy s = true ->
  path_join p s =
    {| p_abs := p_abs p; p_parts := p_parts p ++ LayoutSpec.component s |}.
Proof.
  intros Hs Ht. unfold path_join. destruct s as [|c r]; [discriminate|].
  destruct (N.eqb_spec c slash) as [->|Hne].
  - exfalso. apply Hs. left. reflexivity.
  - rewrite (parse_parts_single _ Hs Ht). reflexivity.
Qed.

(** ** The file name *)

Lemma uint_digits_are_digits (d : Decimal.uint) :
  forallb (fun c => (48 <=? c) && (c <=? 57)) (uint_digits d) = true.
Proof. induction d; simpl; auto. Qed.

Lemma forallb_replicate (P : N -> bool) (n : nat) (c : N) :
  P c = true -> forallb P (replicate n c) = true.
Proof. intros H. induction n; simpl; [reflexivity|]. rewrite H. exact IHn. Qed.

Lemma format_06d_chars (n : Z) : forallb id_char (format_06d n) = true.
Proof.
  assert (D : forall w m, forallb id_char (zfill w (decimal m)) = true).
  { intros w m. unfold zfill. rewrite forallb_app.
    rewrite forallb_replicate by reflexivity. simpl.
    unfold decimal. pose proof (uint_digits_are_digits (N.to_uint m)) as H.
    rewrite forallb_forall in H |- *. intros c Hc. unfold id_char.
    rewrite (H c Hc). reflexivity. }
  destruct n; unfold format_06d; [apply D|apply D|].
  cbn [forallb]. rewrite D. reflexivity.
Qed.

Lemma forallb_not_in (P : N -> bool) (c : N) (s : pystr) :
  P c = false -> forallb P s = true -> ~ In c s.
Proof.
  intros Hc Hs Hin. rewrite forallb_forall in Hs.
  rewrite (Hs c Hin) in Hc. discriminate.
Qed.

Section FileName.
Context `{U : UnicodeDB}.

Lemma pick_content_ext (row : PageRow) (prefer_markdown : bool) :
  snd (_pick_content row prefer_markdown) = py "md"
  \/ snd (_pick_content row prefer_markdown) = py "html".
Proof.
  unfold _pick_content. destruct (prefer_markdown && truthy _); simpl; auto.
Qed.

Lemma safe_name_no_slash (s : pystr) : ~ In slash (_safe_name s).
Proof. apply clean_not_in; [reflexivity|apply safe_name_clean]. Qed.

Lemma fname_no_slash (row : PageRow) (ext : pystr) :
  ext = py "md" \/ ext = py "html" -> ~ In slash (fname row ext).
Proof.
  intros He. unfold fname. rewrite !in_app_iff.
  intros [H|[H|[H|[H|H]]]].
  - revert H. apply (forallb_not_in id_char); [reflexivity|].
    apply format_06d_chars.
  - simpl in H. destruct H as [H|[]]. discriminate.
  - exact (safe_name_no_slash _ H).
  - simpl in H. destruct H as [H|[]]. discriminate.
  - destruct He as [-> | ->]; simpl in H;
      repeat (destruct H as [H|H]; [discriminate|]); destruct H.
Qed.

Lemma fname_has_underscore (row : PageRow) (ext : pystr) :
  In underscore (fname row ext).
Proof. unfold fname. rewrite !in_app_iff. right. left. left. reflexivity. Qed.

Lemma fname_truthy (row : PageRow) (ext : pystr) : truthy (fname row ext) = true.
Proof.
  pose proof (fname_has_underscore row ext) as H.
  destruct (fname row ext); [destruct H|reflexivity].
Qed.

Lemma fname_component (row : PageRow) (ext : pystr) :
  LayoutSpec.component (fname row ext) = [fname row ext].
Proof.
  unfold LayoutSpec.component, pystr_eqb. case_bool_decide as E; [|reflexivity].
  pose proof (fname_has_underscore row ext) as H. rewrite E in H.
  simpl in H. destruct H as [H|[]]. discriminate.
Qed.

Lemma book_dir_spec (row : PageRow) :
  book_dir row = LayoutSpec.book_component row.
Proof.
  unfold book_dir, LayoutSpec.book_component, opt_or, str_or.
  destruct (r_book_name row) as [b|]; [|reflexivity].
  destruct (truthy b); [apply safe_name_sanitize|reflexivity].
Qed.

Lemma subdir_parts (out_dir : Path) (row : PageRow) :
  subdir out_dir row =
    {| p_abs := p_abs out_dir;
       p_parts := p_parts out_dir
                  ++ LayoutSpec.component (LayoutSpec.book_component row)
                  ++ LayoutSpec.chapter_component row |}.
Proof.
  unfold subdir, LayoutSpec.chapter_component.
  assert (B : path_join out_dir (book_dir row) =
    {| p_abs := p_abs out_dir;
       p_parts := p_parts out_dir
                  ++ LayoutSpec.component (LayoutSpec.book_component row) |}).
  { rewrite <- book_dir_spec. apply path_join_single.
    - apply safe_name_no_slash.
    - apply safe_name_truthy. }
  destruct (r_chapter_name row) as [c|].
  - destruct (truthy c).
    + rewrite B, path_join_single.
      * simpl. rewrite <- app_assoc, safe_name_sanitize. reflexivity.
      * apply safe_name_no_slash.
      * apply safe_name_truthy.
    + rewrite B, app_nil_r. reflexivity.
  - rewrite B, app_nil_r. reflexivity.
Qed.

Lemma fname_spec (row : PageRow) (ext : pystr) :
  fname row ext = LayoutSpec.file_name row ext.
Proof.
  unfold fname, LayoutSpec.file_name, LayoutSpec.page_name.
  rewrite <- safe_name_sanitize. repeat f_equal.
  destruct (r_name row) as [s|]; [|reflexivity].
  unfold opt_or, str_or. destruct s; reflexivity.
Qed.

Lemma fpath_parts (out_dir : Path) (prefer_markdown : bool) (row : PageRow) :
  fpath out_dir prefer_markdown row =
    {| p_abs := p_abs out_dir;
       p_parts := p_parts (subdir out_dir row)
                  ++ [fname row (snd (_pick_content row prefer_markdown))] |}.
Proof.
  unfold fpath. rewrite path_join_single.
  - rewrite fname_component, subdir_parts. reflexivity.
  - apply fname_no_slash, pick_content_ext.
  - apply fname_truthy.
Qed.

End FileName.

(** ** The id of a file name has six digits *)

Lemma digit_cases (k : N) :
  k < 10 ->
  k = 0 \/ k = 1 \/ k = 2 \/ k = 3 \/ k = 4 \/ k = 5 \/ k = 6 \/ k = 7
  \/ k = 8 \/ k = 9.
Proof. lia. Qed.

Lemma uint_digits_con (k : N) (d : Decimal.uint) :
  k < 10 -> uint_digits (digit_con k d) = (48 + k) :: uint_digits d.
Proof.
  intros H. destruct (digit_cases k H) as [->|[->|[->|[->|[->|[->|[->|[->|[->| ->]]]]]]]]];
    reflexivity.
Qed.

Lemma of_lu_con (k : N) (d : Decimal.uint) :
  k < 10 ->
  DecimalPos.Unsigned.of_lu (digit_con k d)
  = k + 10 * DecimalPos.Unsigned.of_lu d.
Proof.
  intros H. destruct (digit_cases k H) as [->|[->|[->|[->|[->|[->|[->|[->|[->| ->]]]]]]]]];
    reflexivity.
Qed.

Lemma uint_digits_revapp (d acc : Decimal.uint) :
  uint_digits (Decimal.revapp d acc) = rev (uint_digits d) ++ uint_digits acc.
Proof.
  revert acc. induction d; intros acc; simpl; [reflexivity|..];
    rewrite IHd, <- app_assoc; reflexivity.
Qed.

Lemma uint_digits_rev (d : Decimal.uint) :
  uint_digits (Decimal.rev d) = rev (uint_digits d).
Proof.
  unfold Decimal.rev. rewrite uint_digits_revapp. apply app_nil_r.
Qed.

Lemma replicate_snoc (k : nat) (c : N) : replicate k c ++ [c] = c :: replicate k c.
Proof. induction k as [|k IH]; simpl; [reflexivity|]. rewrite IH. reflexivity. Qed.

(** Normalising a number only removes zeros at its head. *)
Lemma nzhead_zeros (d : Decimal.uint) :
  exists k, uint_digits d = replicate k 48 ++ uint_digits (Decimal.nzhead d).
Proof.
  induction d; try (exists 0%nat; reflexivity).
  destruct IHd as [k Hk]. exists (S k). simpl. rewrite Hk. reflexivity.
Qed.

Lemma zfill_unorm (d : Decimal.uint) :
  d <> Nil ->
  zfill (length (uint_digits d)) (uint_digits (Decimal.unorm d)) = uint_digits d.
Proof.
  intros Hd. destruct (nzhead_zeros d) as [k Hk]. unfold zfill, Decimal.unorm.
  rewrite Hk. rewrite length_app, length_replicate.
  destruct (Decimal.nzhead d) eqn:E;
    try (match goal with
         | |- replicate ?a _ ++ _ = _ => replace a with k by lia
         end; reflexivity).
  simpl in *. rewrite app_nil_r in *.
  destruct k as [|k]; [destruct d; simpl in Hk; congruence|].
  replace (S k + 0 - 1)%nat with k by lia. apply replicate_snoc.
Qed.

Lemma format_06d_six_digits (n : Z) :
  (0 <= n < 1000000)%Z -> format_06d n = six_digits (Z.to_N n).
Proof.
  intros Hn.
  assert (E : format_06d n = zfill 6 (decimal (Z.to_N n)))
    by (destruct n; [reflexivity|reflexivity|lia]).
  rewrite E. set (m := Z.to_N n). assert (Hm : m < 1000000) by lia.
  clearbody m. clear E Hn n.
  set (ds := [m mod 10; m / 10 mod 10; m / 100 mod 10; m / 1000 mod 10;
              m / 10000 mod 10; m / 100000 mod 10]).
  assert (D : forall q, q mod 10 < 10) by (intros q; apply N.mod_lt; lia).
  assert (V : DecimalPos.Unsigned.of_lu (lu_of ds) = m).
  { unfold ds, lu_of. simpl fold_right. rewrite !of_lu_con by apply D.
    simpl DecimalPos.Unsigned.of_lu.
    pose proof (N.div_mod m 10 ltac:(lia)) as H0.
    pose proof (N.div_mod (m / 10) 10 ltac:(lia)) as H1.
    pose proof (N.div_mod (m / 100) 10 ltac:(lia)) as H2.
    pose proof (N.div_mod (m / 1000) 10 ltac:(lia)) as H3.
    pose proof (N.div_mod (m / 10000) 10 ltac:(lia)) as H4.
    pose proof (N.div_mod (m / 100000) 10 ltac:(lia)) as H5.
    rewrite N.Div0.div_div in H1, H2, H3, H4, H5.
    change (10 * 10) with 100 in *. change (100 * 10) with 1000 in *.
    change (1000 * 10) with 10000 in *. change (10000 * 10) with 100000 in *.
    change (100000 * 10) with 1000000 in *.
    rewrite (N.div_small m 1000000 Hm) in H5. lia. }
  assert (T : N.to_uint m = Decimal.unorm (Decimal.rev (lu_of ds))).
  { rewrite <- DecimalN.Unsigned.to_of. f_equal.
    unfold N.of_uint. rewrite DecimalPos.Unsigned.of_lu_rev. symmetry. exact V. }
  assert (G : uint_digits (Decimal.rev (lu_of ds)) = six_digits m).
  { rewrite uint_digits_rev. unfold ds, lu_of. simpl fold_right.
    rewrite !uint_digits_con by apply D. reflexivity. }
  unfold decimal. rewrite T.
  change 6%nat with (length (six_digits m)). rewrite <- G.
  apply zfill_unorm. intros R. rewrite R in G. discriminate.
Qed.

(** C7, as stated, fails: a row whose chapter name is the empty string has a
    chapter, and its file goes directly under the book directory, not under
    a directory for the sanitized chapter name (which would be
    ["untitled"]). *)
Lemma empty_chapter_name_no_directory :
  let row := {| r_id := 1; r_name := Some (py "x"); r_slug := None;
                r_book_name := Some (py "B"); r_chapter_name := Some [];
                r_html := Some (py "h"); r_markdown := None;
                r_updated_at := None |} in
  let out_dir := {| p_abs := false; p_parts := [py "out"] |} in
  @_safe_name ascii_db [] = py "untitled"
  /\ p_parts (@fpath ascii_db out_dir true row)
     = [py "out"; py "B"; py "000001_x.html"]
  /\ p_parts (@fpath ascii_db out_dir true row)
     <> [py "out"; py "B"; py "untitled"; py "000001_x.html"].
Proof. repeat split. discriminate. Qed.

(** C7, amended. The file of a page is written at the output root, then the
    sanitized book name (or the placeholder ["No_Book"]), then, when the
    chapter name is not empty, the sanitized chapter name, and a page
    without chapter, or whose chapter name is empty, lies directly under
    the book directory; the file name is the page id padded with zeros to
    six digits (exactly six for an id below one million), an underscore,
    the sanitized page name, a dot and the extension, ["md"] or
    ["html"]. *)
Theorem export_path_layout `{U : UnicodeDB} (out_dir : Path)
    (prefer_markdown : bool) (row : PageRow) :
  let ext := snd (_pick_content row prefer_markdown) in
  (ext = py "md" \/ ext = py "html")
  /\ p_abs (fpath out_dir prefer_markdown row) = p_abs out_dir
  /\ p_parts (fpath out_dir prefer_markdown row)
     = LayoutSpec.parts out_dir row ext
  /\ p_parts (subdir out_dir row)
     = p_parts out_dir ++ LayoutSpec.component (LayoutSpec.book_component row)
       ++ LayoutSpec.chapter_component row
  /\ ((0 <= r_id row < 1000000)%Z ->
      format_06d (r_id row) = six_digits (Z.to_N (r_id row))).
Proof.
  simpl. split; [apply pick_content_ext|].
  rewrite fpath_parts, subdir_parts. simpl. unfold LayoutSpec.parts.
  rewrite fname_spec, <- !app_assoc.
  repeat split. apply format_06d_six_digits.
Qed.

Lemma export_path_layout_witness :
  let row := {| r_id := 12; r_name := Some (py "a/b"); r_slug := None;
                r_book_name := Some (py "My Book");
                r_chapter_name := Some (py "Ch 1");
                r_html := Some (py "<p>x</p>"); r_markdown := None;
                r_updated_at := None |} in
  format_06d 12 = py "000012"
  /\ p_parts (@fpath ascii_db sample_out true row)
     = [py "out"; py "My_Book"; py "Ch_1"; py "000012_a-b.html"].
Proof.
  intros row.
  destruct (@export_path_layout ascii_db sample_out true row)
    as (_ & _ & P & _ & S).
  split.
  - apply S. simpl. lia.
  - rewrite P. reflexivity.
Defined.

(** ** Configuration: the fall-back file *)

Lemma fallback_cases (content var key : pystr) (w : World) :
  exists env',
    snd (fallback content var key w) = set_environ w env'
    /\ (forall k, k <> var -> env' !! k = w_environ w !! k)
    /\ (env' !! var = w_environ w !! var
        \/ (falsy (w_environ w !! var) = true
            /\ exists v, get_key content key = Some v
                         /\ truthy v = true /\ env' !! var = Some v)).
Proof.
  assert (Same : set_environ w (w_environ w) = w) by (destruct w; reflexivity).
  unfold fallback, bind, environ_get, gets. simpl.
  destruct (falsy (w_environ w !! var)) eqn:F.
  - destruct (get_key content key) as [v|] eqn:G.
    + destruct (truthy v) eqn:T.
      * unfold environ_set. destruct (existsb (N.eqb 0) v).
        -- exists (w_environ w). simpl. rewrite Same. auto.
        -- exists (<[var := v]> (w_environ w)). simpl. split; [reflexivity|].
           split.
           ++ intros k Hk. apply lookup_insert_ne. congruence.
           ++ right. split; [reflexivity|]. exists v.
              rewrite lookup_insert_eq. auto.
      * exists (w_environ w). simpl. rewrite Same. auto.
    + exists (w_environ w). simpl. rewrite Same. auto.
  - exists (w_environ w). simpl. rewrite Same. auto.
Qed.

Lemma bind_snd_raise {A B} (c : M A) (k : A -> M B) (w : World) (e : exn) :
  fst (c w) = inl e -> bind c k w = (inl e, snd (c w)).
Proof. unfold bind. destruct (c w) as [[e'|a] w']; simpl; congruence. Qed.

Lemma bind_ret_ok {A B} (c : M A) (k : A -> M B) (w : World) (a : A) :
  fst (c w) = inr a -> bind c k w = k a (snd (c w)).
Proof. unfold bind. destruct (c w) as [[e'|a'] w']; simpl; congruence. Qed.

Lemma fell_back_refl (content : pystr) (env : gmap pystr pystr) :
  fell_back content env env.
Proof. intros k. left. reflexivity. Qed.

Lemma fell_back_step (content var key : pystr) (w0 w : World) :
  In (var, key) fallback_keys ->
  w_environ w !! var = w_environ w0 !! var ->
  fell_back content (w_environ w0) (w_environ w) ->
  fell_back content (w_environ w0)
    (w_environ (snd (fallback content var key w)))
  /\ (forall k, k <> var ->
        w_environ (snd (fallback content var key w)) !! k = w_environ w !! k)
  /\ set_environ (snd (fallback content var key w)) (w_environ w) = w.
Proof.
  intros Hin Hvar Hfb.
  destruct (fallback_cases content var key w) as (env' & E & Hne & Hv).
  rewrite E. simpl. split; [|split].
  - intros k. destruct (decide (k = var)) as [->|Hk].
    + destruct Hv as [Hv|(F & v & G & T & Hv)].
      * rewrite Hv. apply Hfb.
      * right. rewrite <- Hvar. split; [exact F|]. exists key, v. auto.
    + rewrite (Hne k Hk). apply Hfb.
  - exact Hne.
  - destruct w; reflexivity.
Qed.

Lemma only_environ_trans (w0 w1 w2 : World) :
  set_environ w1 (w_environ w0) = w0 ->
  set_environ w2 (w_environ w1) = w1 ->
  set_environ w2 (w_environ w0) = w0.
Proof.
  intros H1 H2. rewrite <- H1 at 2. rewrite <- H2 at 1. reflexivity.
Qed.

Lemma bind_cases {A B} (c : M A) (k : A -> M B) (w : World) :
  (exists e, fst (c w) = inl e /\ bind c k w = (inl e, snd (c w)))
  \/ (exists a, fst (c w) = inr a /\ bind c k w = k a (snd (c w))).
Proof.
  unfold bind. destruct (c w) as [[e|a] w']; simpl; eauto.
Qed.

Lemma three_fallbacks (content : pystr) (w : World) :
  let run :=
    (fallback content BS_DB_NAME (py "DB_DATABASE") ;;
     fallback content BS_DB_USER (py "DB_USERNAME") ;;
     fallback content BS_DB_PASS (py "DB_PASSWORD")) in
  set_environ (snd (run w)) (w_environ w) = w
  /\ fell_back content (w_environ w) (w_environ (snd (run w))).
Proof.
  cbv zeta.
  destruct (fell_back_step content BS_DB_NAME (py "DB_DATABASE") w w)
    as (F1 & N1 & S1); [left; reflexivity|reflexivity|apply fell_back_refl|].
  set (f1 := fallback content BS_DB_NAME (py "DB_DATABASE")) in *.
  set (w1 := snd (f1 w)) in *.
  destruct (bind_cases f1
    (fun _ => fallback content BS_DB_USER (py "DB_USERNAME") ;;
              fallback content BS_DB_PASS (py "DB_PASSWORD")) w)
    as [(e & _ & ->)|(a & _ & ->)]; [split; assumption|].
  fold w1.
  destruct (fell_back_step content BS_DB_USER (py "DB_USERNAME") w w1)
    as (F2 & N2 & S2);
    [right; left; reflexivity|apply N1; discriminate|exact F1|].
  set (f2 := fallback content BS_DB_USER (py "DB_USERNAME")) in *.
  set (w2 := snd (f2 w1)) in *.
  destruct (bind_cases f2
    (fun _ => fallback content BS_DB_PASS (py "DB_PASSWORD")) w1)
    as [(e & _ & ->)|(a' & _ & ->)].
  { split; [exact (only_environ_trans _ _ _ S1 S2)|exact F2]. }
  fold w2.
  destruct (fell_back_step content BS_DB_PASS (py "DB_PASSWORD") w w2)
    as (F3 & N3 & S3);
    [right; right; left; reflexivity| |exact F2|].
  { rewrite N2 by discriminate. apply N1. discriminate. }
  split; [|exact F3].
  exact (only_environ_trans _ _ _ S1 (only_environ_trans _ _ _ S2 S3)).
Qed.

Lemma load_repo_env_fallbacks_spec (w : World) :
  let w' := snd (_load_repo_env_fallbacks w) in
  set_environ w' (w_environ w) = w
  /\ (w_environ w' = w_environ w
      \/ exists content,
           fst (path_read_text (w_repo_env w) w) = inr content
           /\ fell_back content (w_environ w) (w_environ w')).
Proof.
  assert (Same : set_environ w (w_environ w) = w) by (destruct w; reflexivity).
  cbv zeta. unfold _load_repo_env_fallbacks.
  rewrite (bind_ret_ok (gets w_repo_env) _ w (w_repo_env w) eq_refl).
  cbn [gets snd].
  rewrite (bind_ret_ok (path_exists (w_repo_env w)) _ w _ eq_refl).
  cbn [path_exists gets snd].
  destruct (os_exists _ _ _); cbn [negb];
    [|split; [exact Same|left; reflexivity]].
  assert (R : snd (path_read_text (w_repo_env w) w) = w).
  { unfold path_read_text. destruct (os_read _ _ _); [reflexivity|].
    destruct (utf8_decode _); reflexivity. }
  set (reader := try_except _ _).
  destruct (path_read_text (w_repo_env w) w) as [[e|content] w1] eqn:E;
    simpl in R; subst w1.
  - assert (Hr : (exists m, reader w = (inl (SystemExit m), w))
                 \/ reader w = (inr None, w)).
    { unfold reader, try_except, bind. rewrite E.
      destruct e; eauto. }
    destruct Hr as [[m Hr]|Hr].
    + rewrite (bind_snd_raise reader _ w (SystemExit m))
        by (rewrite Hr; reflexivity).
      rewrite Hr. split; [exact Same|left; reflexivity].
    + rewrite (bind_ret_ok reader _ w None) by (rewrite Hr; reflexivity).
      rewrite Hr. split; [exact Same|left; reflexivity].
  - assert (Hr : reader w = (inr (Some content), w)).
    { unfold reader, try_except, bind. rewrite E. reflexivity. }
    rewrite (bind_ret_ok reader _ w (Some content))
      by (rewrite Hr; reflexivity).
    rewrite Hr. cbn [snd].
    destruct (three_fallbacks content w) as [S F]. split; [exact S|].
    right. exists content. split; [reflexivity|exact F].
Qed.

(** ** Configuration: reading a key of the settings file *)

Lemma split_on_app (sep : N) (a b : pystr) :
  ~ In sep a -> split_on sep (a ++ sep :: b) = a :: split_on sep b.
Proof.
  induction a as [|c r IH]; simpl; intros H.
  - rewrite N.eqb_refl. reflexivity.
  - destruct (N.eqb_spec c sep) as [->|Hne]; [exfalso; auto|].
    rewrite IH by auto. reflexivity.
Qed.

Lemma split_on_join (sep : N) (ls : list pystr) :
  ls <> [] -> Forall (fun l => ~ In sep l) ls ->
  split_on sep (str_join [sep] ls) = ls.
Proof.
  induction ls as [|x r IH]; [congruence|]. intros _ H.
  apply Forall_cons in H as [Hx Hr].
  destruct r as [|y r'].
  - simpl. apply split_on_no_sep. exact Hx.
  - change (str_join [sep] (x :: y :: r'))
      with (x ++ sep :: str_join [sep] (y :: r')).
    rewrite split_on_app by exact Hx. rewrite IH by (auto; discriminate).
    reflexivity.
Qed.

Lemma startswith_app (p r : pystr) : startswith p (p ++ r) = true.
Proof.
  induction p as [|c p IH]; simpl; [reflexivity|].
  rewrite N.eqb_refl. exact IH.
Qed.

Lemma find_first {A} (f : A -> bool) (before after : list A) (x : A) :
  Forall (fun y => f y = false) before -> f x = true ->
  List.find f (before ++ x :: after) = Some x.
Proof.
  intros Hb Hx. induction Hb as [|y l Hy Hl IH]; simpl.
  - rewrite Hx. reflexivity.
  - rewrite Hy. exact IH.
Qed.

Lemma endswith1_last (c : N) (s : pystr) : endswith1 c (s ++ [c]) = true.
Proof.
  unfold endswith1. rewrite map_app. simpl. rewrite last_last.
  apply N.eqb_refl.
Qed.

Lemma slice_quoted (q : N) (v : pystr) : slice_1_m1 (q :: v ++ [q]) = v.
Proof. unfold slice_1_m1. simpl. apply removelast_last. Qed.

(** The value of the first line [key=raw] comes back stripped, and without
    the pair of quotes around it. *)
Lemma get_key_quoted (before after : list pystr) (key raw v : pystr) (q : N) :
  q = dquote \/ q = squote ->
  strip raw = q :: v ++ [q] ->
  Forall (fun l => ~ In 10 l) (before ++ (key ++ py "=" ++ raw) :: after) ->
  Forall (fun l => startswith (key ++ py "=") l = false) before ->
  get_key (str_join newline (before ++ (key ++ py "=" ++ raw) :: after)) key
  = Some v.
Proof.
  intros Hq Hs Hnl Hb. unfold get_key, newline.
  rewrite split_on_join; [|destruct before; discriminate|exact Hnl].
  rewrite (find_first _ before after); [|exact Hb|].
  2:{ rewrite app_assoc. apply startswith_app. }
  replace (drop (length key + 1) (key ++ py "=" ++ raw)) with raw.
  2:{ rewrite app_assoc. symmetry.
      replace (length key + 1)%nat with (length (key ++ py "=") + 0)%nat
        by (rewrite length_app; simpl; lia).
      rewrite drop_app_add. reflexivity. }
  rewrite Hs, slice_quoted.
  assert (E1 : endswith1 q (q :: v ++ [q]) = true)
    by exact (endswith1_last q (q :: v)).
  assert (S1 : startswith [q] (q :: v ++ [q]) = true)
    by (simpl; rewrite N.eqb_refl; reflexivity).
  destruct Hq as [-> | ->]; rewrite E1, S1.
  - reflexivity.
  - rewrite orb_true_r. reflexivity.
Qed.

(** ** Configuration: the check of [_connect] *)

Lemma missing_vars_exact (env : gmap pystr pystr) (k : pystr) :
  In k (missing_vars env) <-> In k required_vars /\ falsy (env !! k) = true.
Proof. unfold missing_vars. apply filter_In. Qed.

Lemma connect_missing `{L : Libs} (w : World) :
  missing_vars (w_environ w) <> [] ->
  _connect w = (inl (config_error w), w).
Proof.
  intros H. unfold _connect, config_error, bind, gets, path_exists, raise.
  simpl. destruct (missing_vars (w_environ w)); [congruence|reflexivity].
Qed.

Lemma fetch_pages_missing `{L : Libs} (w : World) :
  missing_vars (w_environ w) <> [] ->
  fetch_pages w = (inl (config_error w), w).
Proof.
  intros H. unfold fetch_pages, bind. rewrite (connect_missing w H).
  reflexivity.
Qed.

(** With a variable missing, [export_pages] makes the output directory and
    stops at the check: nothing else happens. *)
Lemma export_pages_missing `{U : UnicodeDB} `{L : Libs} (out_dir : Path)
    (prefer_markdown : bool) (w : World) :
  missing_vars (w_environ w) <> [] ->
  export_pages out_dir prefer_markdown w =
    match mkdir_parents (w_fs w) (base_of w out_dir) (p_parts out_dir) with
    | inl e => (inl (OSError e out_dir), add_event w (EvMkdir out_dir))
    | inr fs' =>
        let w1 := set_fs (add_event w (EvMkdir out_dir)) fs' in
        (inl (config_error w1), w1)
    end.
Proof.
  intros H. unfold export_pages, path_mkdir.
  unfold bind at 1. unfold bind at 1. unfold log at 1.
  change (base_of (add_event w (EvMkdir out_dir)) out_dir)
    with (base_of w out_dir).
  change (w_fs (add_event w (EvMkdir out_dir))) with (w_fs w).
  destruct (mkdir_parents _ _ _) as [e|fs']; [reflexivity|].
  unfold bind at 1.
  rewrite fetch_pages_missing by exact H. reflexivity.
Qed.

Lemma main_missing `{U : UnicodeDB} `{L : Libs} (args : Args) (w : World) :
  fst (_load_repo_env_fallbacks w) = inr tt ->
  missing_vars (w_environ (snd (_load_repo_env_fallbacks w))) <> [] ->
  main args w =
    let w1 := snd (_load_repo_env_fallbacks w) in
    match mkdir_parents (w_fs w1) (base_of w1 (a_out args))
            (p_parts (a_out args)) with
    | inl e =>
        (inl (OSError e (a_out args)), add_event w1 (EvMkdir (a_out args)))
    | inr fs' =>
        let w2 := set_fs (add_event w1 (EvMkdir (a_out args))) fs' in
        (inl (config_error w2), w2)
    end.
Proof.
  intros Hl Hm. unfold main.
  rewrite (bind_ret_ok _ _ w tt Hl). unfold bind at 1.
  rewrite (export_pages_missing _ _ _ Hm). cbv zeta.
  destruct (mkdir_parents _ _ _); reflexivity.
Qed.

(** The block under [__main__] runs the self-tests first, and the first
    assertion of [_test_safe_name] fails: with assertions enabled the
    script stops there. *)
Lemma script_stops_at_self_test `{U : UnicodeDB} `{L : Libs} (args : Args)
    (w : World) :
  script args w = (inl AssertionError, w).
Proof. reflexivity. Qed.

(** C8, as stated, fails: a variable that is set, but to the empty string,
    takes the value of the settings file all the same. *)
Lemma fallback_replaces_empty_variable :
  let w := sample_world env_empty_name in
  w_environ w !! BS_DB_NAME = Some []
  /\ w_environ (snd (_load_repo_env_fallbacks w)) !! BS_DB_NAME
     = Some (py "wiki").
Proof. split; vm_compute; reflexivity. Qed.

(** C8, amended. The fall-back changes nothing but the environment, there
    only database name, user and password (never host or port), and a
    variable only when it is unset or empty, to the value of its key in the
    settings file, stripped and without its pair of single or double
    quotes.  When one of host, name, user and password is then unset or
    empty, [_connect] raises [SystemExit] with a message that lists exactly
    those variables, and leaves the world as it is: no connection is tried;
    [export_pages] has by then only made the output directory, and ends
    with that error when the directory could be made. *)
Theorem config_resolution `{U : UnicodeDB} `{L : Libs} :
  (forall w : World,
     let w' := snd (_load_repo_env_fallbacks w) in
     set_environ w' (w_environ w) = w
     /\ w_environ w' !! BS_DB_HOST = w_environ w !! BS_DB_HOST
     /\ w_environ w' !! BS_DB_PORT = w_environ w !! BS_DB_PORT
     /\ forall k, w_environ w' !! k <> w_environ w !! k ->
          falsy (w_environ w !! k) = true
          /\ exists key content v,
               In (k, key) fallback_keys
               /\ fst (path_read_text (w_repo_env w) w) = inr content
               /\ get_key content key = Some v
               /\ w_environ w' !! k = Some v)
  /\ (forall (before after : list pystr) (key raw v : pystr) (q : N),
        q = dquote \/ q = squote ->
        strip raw = q :: v ++ [q] ->
        Forall (fun l => ~ In 10 l) (before ++ (key ++ py "=" ++ raw) :: after) ->
        Forall (fun l => startswith (key ++ py "=") l = false) before ->
        get_key (str_join newline (before ++ (key ++ py "=" ++ raw) :: after))
          key = Some v)
  /\ (forall w : World,
        missing_vars (w_environ w) <> [] ->
        _connect w = (inl (config_error w), w)
        /\ (exists rest,
              config_error w =
                SystemExit (py "Missing env: "
                            ++ str_join (py ", ") (missing_vars (w_environ w))
                            ++ newline ++ rest))
        /\ (forall k, In k (missing_vars (w_environ w))
                      <-> In k required_vars /\ falsy (w_environ w !! k) = true)
        /\ forall (out_dir : Path) (prefer_markdown : bool),
             let r := export_pages out_dir prefer_markdown w in
             w_trace (snd r) = w_trace w ++ [EvMkdir out_dir]
             /\ w_environ (snd r) = w_environ w
             /\ ((exists e, fst r = inl (OSError e out_dir))
                 \/ fst r = inl (config_error (snd r))))
  /\ (forall (args : Args) (w : World),
        fst (_load_repo_env_fallbacks w) = inr tt ->
        missing_vars (w_environ (snd (_load_repo_env_fallbacks w))) <> [] ->
        let r := main args w in
        w_trace (snd r) = w_trace w ++ [EvMkdir (a_out args)]
        /\ ((exists e, fst r = inl (OSError e (a_out args)))
            \/ fst r = inl (config_error (snd r)))).
Proof.
  split; [|split; [|split]].
  - intros w w'. subst w'.
    destruct (load_repo_env_fallbacks_spec w) as [S F]. cbv zeta in S, F.
    set (w' := snd (_load_repo_env_fallbacks w)) in *.
    assert (K : forall k,
      w_environ w' !! k = w_environ w !! k
      \/ (falsy (w_environ w !! k) = true
          /\ exists key content v,
               In (k, key) fallback_keys
               /\ fst (path_read_text (w_repo_env w) w) = inr content
               /\ get_key content key = Some v
               /\ w_environ w' !! k = Some v)).
    { intros k. destruct F as [F|(content & R & F)].
      - left. rewrite F. reflexivity.
      - destruct (F k) as [E|(Fa & key & v & I & G & _ & E)]; [left; exact E|].
        right. split; [exact Fa|]. exists key, content, v. auto. }
    assert (NK : forall k, (forall key, ~ In (k, key) fallback_keys) ->
                 w_environ w' !! k = w_environ w !! k).
    { intros k Hk. destruct (K k) as [E|(_ & key & _ & _ & I & _)];
        [exact E|]. destruct (Hk key I). }
    split; [exact S|]. split; [|split].
    + apply NK. intros key [H|[H|[H|[]]]]; discriminate.
    + apply NK. intros key [H|[H|[H|[]]]]; discriminate.
    + intros k Hk. destruct (K k) as [E|R]; [contradiction|exact R].
  - intros. apply (get_key_quoted before after key raw v q); assumption.
  - intros w H. split; [apply connect_missing; exact H|].
    split; [eexists; reflexivity|].
    split; [intros k; apply missing_vars_exact|].
    intros out_dir prefer_markdown. cbv zeta.
    rewrite export_pages_missing by exact H.
    destruct (mkdir_parents _ _ _) as [e|fs']; cbn.
    + split; [reflexivity|]. split; [reflexivity|]. left. eauto.
    + split; [reflexivity|]. split; [reflexivity|]. right. reflexivity.
  - intros args w Hl Hm. cbv zeta. rewrite (main_missing args w Hl Hm).
    destruct (load_repo_env_fallbacks_spec w) as [S _]. cbv zeta in S.
    apply (f_equal w_trace) in S. cbn [w_trace set_environ] in S.
    set (w1 := snd (_load_repo_env_fallbacks w)) in *. cbv zeta.
    destruct (mkdir_parents _ _ _) as [e|fs'];
      cbn [fst snd w_trace set_fs add_event]; rewrite S.
    + split; [reflexivity|]. left. eauto.
    + split; [reflexivity|]. right. reflexivity.
Qed.

Lemma config_resolution_witness :
  let w := sample_world env_empty_name in
  let w0 := sample_world ∅ in
  let args := {| a_out := sample_out; a_html := false |} in
  (falsy (w_environ w !! BS_DB_NAME) = true
   /\ exists key content v,
        In (BS_DB_NAME, key) fallback_keys
        /\ fst (path_read_text (w_repo_env w) w) = inr content
        /\ get_key content key = Some v
        /\ w_environ (snd (_load_repo_env_fallbacks w)) !! BS_DB_NAME = Some v)
  /\ get_key sample_settings (py "DB_PASSWORD") = Some (py "s3cret")
  /\ @_connect plain_libs w = (inl (config_error w), w)
  /\ w_trace (snd (@main ascii_db plain_libs args w0)) = [EvMkdir sample_out].
Proof.
  intros w w0 args.
  destruct (@config_resolution ascii_db plain_libs) as (H1 & H2 & H3 & H4).
  split; [|split; [|split]].
  - destruct (H1 w) as (_ & _ & _ & Hk). apply (Hk BS_DB_NAME).
    vm_compute. discriminate.
  - apply (H2 [py "APP_URL=http://wiki.local"; py "DB_DATABASE=wiki";
               py "DB_USERNAME='reader'"]
              [[]] (py "DB_PASSWORD")
              (py " " ++ [dquote] ++ py "s3cret" ++ [dquote])
              (py "s3cret") dquote).
    + left. reflexivity.
    + reflexivity.
    + repeat constructor; vm_compute; intuition discriminate.
    + repeat constructor.
  - apply (H3 w). vm_compute. discriminate.
  - apply (H4 args w0).
    + vm_compute. reflexivity.
    + vm_compute. discriminate.
Defined.

(** ** The file tree *)

Lemma node_at_lookup (fs : gmap loc node) (l : loc) :
  l <> [] -> node_at fs l = fs !! l.
Proof. destruct l; [congruence|reflexivity]. Qed.

Lemma node_at_dir_kept (fs fs' : gmap loc node) (l : loc) :
  dirs_kept fs fs' -> node_at fs l = Some Dir -> node_at fs' l = Some Dir.
Proof. intros H. destruct l; [auto|apply H]. Qed.

Lemma grown_refl (fs : gmap loc node) : grown fs fs.
Proof. split; auto. Qed.

Lemma grown_trans (a b c : gmap loc node) : grown a b -> grown b c -> grown a c.
Proof.
  intros [H1 H2] [H3 H4]. split; [auto|].
  intros l x H. destruct (H4 l x H) as [H'|H']; auto.
Qed.

Lemma grown_dirs_kept (fs fs' : gmap loc node) : grown fs fs' -> dirs_kept fs fs'.
Proof. intros [H _] l. apply H. Qed.

Lemma grown_files_kept (names : list pystr) (fs fs' : gmap loc node) :
  grown fs fs' -> files_kept names fs fs'.
Proof. intros [H _] l d Hl _. apply H. exact Hl. Qed.

Lemma grown_insert_dir (fs : gmap loc node) (l : loc) :
  fs !! l = None -> grown fs (<[l := Dir]> fs).
Proof.
  intros Hl. split.
  - intros l' x H. rewrite lookup_insert_ne; [exact H|congruence].
  - intros l' x H. destruct (decide (l = l')) as [->|Hne].
    + rewrite lookup_insert_eq in H. right. congruence.
    + rewrite lookup_insert_ne in H by exact Hne. left. exact H.
Qed.

Lemma dirs_kept_refl (fs : gmap loc node) : dirs_kept fs fs.
Proof. intros l H. exact H. Qed.

Lemma dirs_kept_trans (a b c : gmap loc node) :
  dirs_kept a b -> dirs_kept b c -> dirs_kept a c.
Proof. intros H1 H2 l H. auto. Qed.

Lemma walk_dirs_mono (fs fs' : gmap loc node) (parts : list pystr) :
  dirs_kept fs fs' ->
  forall cur d, walk_dirs fs cur parts = inr d -> walk_dirs fs' cur parts = inr d.
Proof.
  intros K. induction parts as [|x r IH]; intros cur d; simpl; [auto|].
  destruct (node_at fs (step cur x)) as [[|data]|] eqn:E; try discriminate.
  rewrite (node_at_dir_kept _ _ _ K E). apply IH.
Qed.

Lemma walk_dirs_app (fs : gmap loc node) (a b : list pystr) (cur : loc) :
  walk_dirs fs cur (a ++ b) =
    match walk_dirs fs cur a with
    | inr d => walk_dirs fs d b
    | inl e => inl e
    end.
Proof.
  revert cur. induction a as [|x r IH]; intros cur; simpl; [reflexivity|].
  destruct (node_at fs (step cur x)) as [[|data]|]; auto.
Qed.

Lemma locate_snoc (fs : gmap loc node) (base : loc) (init : list pystr)
    (x : pystr) :
  locate fs base (init ++ [x]) =
    match walk_dirs fs base init with
    | inr d => inr (step d x)
    | inl e => inl e
    end.
Proof.
  unfold locate. destruct (init ++ [x]) eqn:E.
  - destruct init; discriminate.
  - rewrite <- E, removelast_last, last_last. reflexivity.
Qed.

Lemma snoc_cases {A} (l : list A) : l = [] \/ exists init x, l = init ++ [x].
Proof.
  destruct l as [|a l]; [left; reflexivity|right].
  destruct (exists_last (l := a :: l)) as (init & x & E); [discriminate|].
  eauto.
Qed.

Lemma is_dir_walk (fs : gmap loc node) (base : loc) (parts : list pystr) :
  os_is_dir fs base parts = true -> exists d, walk_dirs fs base parts = inr d.
Proof.
  destruct (snoc_cases parts) as [->|(init & x & ->)]; [simpl; eauto|].
  unfold os_is_dir. rewrite locate_snoc, walk_dirs_app.
  destruct (walk_dirs fs base init) as [e|d]; [discriminate|].
  simpl. destruct (node_at fs (step d x)) as [[|data]|]; try discriminate.
  eauto.
Qed.

Lemma os_mkdir_ok (fs fs' : gmap loc node) (base : loc) (parts : list pystr) :
  os_mkdir fs base parts = inr fs' ->
  grown fs fs' /\ exists d, walk_dirs fs' base parts = inr d.
Proof.
  unfold os_mkdir.
  destruct (locate fs base parts) as [e|l] eqn:L; [discriminate|].
  destruct (node_at fs l) eqn:E; [discriminate|].
  intros H. injection H as <-.
  assert (Hl : l <> []) by (intros ->; discriminate).
  rewrite (node_at_lookup _ _ Hl) in E.
  pose proof (grown_insert_dir fs l E) as G. split; [exact G|].
  destruct (snoc_cases parts) as [->|(init & x & ->)]; [simpl; eauto|].
  rewrite locate_snoc in L. rewrite walk_dirs_app.
  destruct (walk_dirs fs base init) as [e|d] eqn:W; [discriminate|].
  injection L as <-.
  rewrite (walk_dirs_mono _ _ _ (grown_dirs_kept _ _ G) _ _ W). simpl.
  rewrite (node_at_lookup _ _ Hl), lookup_insert_eq. eauto.
Qed.

Lemma mkdir_prefix_eq (fs : gmap loc node) (base : loc) (all : list pystr)
    (n : nat) :
  mkdir_prefix fs base all n =
    match os_mkdir fs base (take n all) with
    | inr fs' => inr fs'
    | inl ENOENT =>
        match n with
        | O => inl ENOENT
        | S m =>
            match mkdir_prefix fs base all m with
            | inl e => inl e
            | inr fs1 =>
                match os_mkdir fs1 base (take n all) with
                | inr fs2 => inr fs2
                | inl ENOENT => inl ENOENT
                | inl e =>
                    if os_is_dir fs1 base (take n all) then inr fs1 else inl e
                end
            end
        end
    | inl e => if os_is_dir fs base (take n all) then inr fs else inl e
    end.
Proof. destruct n; reflexivity. Qed.

Lemma exist_ok (fs fs' : gmap loc node) (base : loc) (parts : list pystr)
    (e : oserr) :
  (if os_is_dir fs base parts then inr fs else inl e) = inr fs' ->
  fs' = fs /\ exists d, walk_dirs fs base parts = inr d.
Proof.
  destruct (os_is_dir fs base parts) eqn:D; [|discriminate].
  intros H. injection H as <-. split; [reflexivity|].
  apply is_dir_walk. exact D.
Qed.

Lemma mkdir_prefix_ok (base : loc) (all : list pystr) (n : nat) :
  forall fs fs', mkdir_prefix fs base all n = inr fs' ->
  grown fs fs' /\ exists d, walk_dirs fs' base (take n all) = inr d.
Proof.
  induction n as [|m IH]; intros fs fs'; rewrite mkdir_prefix_eq;
    destruct (os_mkdir fs base (take _ all)) as [e|fs1] eqn:E.
  - destruct e; try discriminate; intros H;
      apply exist_ok in H as [-> W]; (split; [apply grown_refl|exact W]).
  - intros H. injection H as <-. apply (os_mkdir_ok _ _ _ _ E).
  - destruct e;
      try (intros H; apply exist_ok in H as [-> W];
           split; [apply grown_refl|exact W]).
    destruct (mkdir_prefix fs base all m) as [e1|fs1] eqn:R; [discriminate|].
    destruct (IH _ _ R) as [G1 _].
    destruct (os_mkdir fs1 base (take (S m) all)) as [e2|fs2] eqn:E2.
    + destruct e2; try discriminate; intros H;
        apply exist_ok in H as [-> W]; (split; [exact G1|exact W]).
    + intros H. injection H as <-.
      destruct (os_mkdir_ok _ _ _ _ E2) as [G2 W].
      split; [exact (grown_trans _ _ _ G1 G2)|exact W].
  - intros H. injection H as <-. apply (os_mkdir_ok _ _ _ _ E).
Qed.

Lemma mkdir_parents_ok (fs fs' : gmap loc node) (base : loc)
    (parts : list pystr) :
  mkdir_parents fs base parts = inr fs' ->
  grown fs fs' /\ exists d, walk_dirs fs' base parts = inr d.
Proof.
  unfold mkdir_parents. intros H.
  destruct (mkdir_prefix_ok _ _ _ _ _ H) as [G W].
  rewrite firstn_all in W. auto.
Qed.

(** ** Distinct ids give distinct file names *)

Lemma uint_digits_inj (d d' : Decimal.uint) :
  uint_digits d = uint_digits d' -> d = d'.
Proof.
  revert d'. induction d; intros d' H; destruct d'; simpl in H;
    try discriminate; try reflexivity;
    injection H as H; f_equal; apply IHd; exact H.
Qed.

Lemma zfill_uint (w : nat) (d : Decimal.uint) :
  zfill w (uint_digits d)
  = uint_digits (Nat.iter (w - length (uint_digits d)) D0 d).
Proof.
  unfold zfill. induction (w - length (uint_digits d))%nat as [|k IH];
    simpl; [reflexivity|]. rewrite IH. reflexivity.
Qed.

Lemma of_uint_zeros (k : nat) (d : Decimal.uint) :
  N.of_uint (Nat.iter k D0 d) = N.of_uint d.
Proof. induction k as [|k IH]; simpl; [reflexivity|exact IH]. Qed.

Lemma zfill_decimal_inj (w w' : nat) (n m : N) :
  zfill w (decimal n) = zfill w' (decimal m) -> n = m.
Proof.
  unfold decimal. rewrite !zfill_uint. intros H.
  apply uint_digits_inj in H. apply (f_equal N.of_uint) in H.
  rewrite !of_uint_zeros, !DecimalN.Unsigned.of_to in H. exact H.
Qed.

Lemma zfill_decimal_no_dash (w : nat) (n : N) (s : pystr) :
  zfill w (decimal n) <> dash :: s.
Proof.
  intros H. unfold decimal in H. rewrite zfill_uint in H.
  pose proof (uint_digits_are_digits
                (Nat.iter (w - length (uint_digits (N.to_uint n))) D0
                   (N.to_uint n))) as D.
  rewrite H in D. simpl in D. discriminate.
Qed.

Lemma format_06d_inj (a b : Z) : format_06d a = format_06d b -> a = b.
Proof.
  destruct a as [|p|p], b as [|q|q]; unfold format_06d; intros H;
    try (exfalso; eapply zfill_decimal_no_dash; first [exact H|symmetry; exact H]).
  - reflexivity.
  - apply zfill_decimal_inj in H. apply (f_equal Z.of_N) in H.
    rewrite !Z2N.id in H by lia. exact H.
  - apply zfill_decimal_inj in H. apply (f_equal Z.of_N) in H.
    rewrite !Z2N.id in H by lia. exact H.
  - apply zfill_decimal_inj in H. apply (f_equal Z.of_N) in H.
    rewrite !Z2N.id in H by lia. exact H.
  - injection H as H. apply zfill_decimal_inj in H. congruence.
Qed.

Lemma app_first_sep (u : N) (a b x y : pystr) :
  ~ In u a -> ~ In u b -> a ++ u :: x = b ++ u :: y -> a = b.
Proof.
  revert b. induction a as [|c a IH]; intros [|d b] Ha Hb H; simpl in *.
  - reflexivity.
  - injection H as H _. subst d. exfalso. apply Hb. left. reflexivity.
  - injection H as H _. subst c. exfalso. apply Ha. left. reflexivity.
  - injection H as -> H. f_equal. apply IH; auto.
Qed.

Lemma fname_inj `{U : UnicodeDB} (r1 r2 : PageRow) (e1 e2 : pystr) :
  fname r1 e1 = fname r2 e2 -> r_id r1 = r_id r2.
Proof.
  unfold fname. simpl. intros H. apply format_06d_inj.
  apply (app_first_sep underscore _ _ _ _) with (3 := H);
    apply (forallb_not_in id_char); try reflexivity; apply format_06d_chars.
Qed.

(** ** One turn of the export loop *)

Lemma path_mkdir_eq (p : Path) (w : World) :
  path_mkdir p w =
    match mkdir_parents (w_fs w) (base_of w p) (p_parts p) with
    | inl e => (inl (OSError e p), add_event w (EvMkdir p))
    | inr fs' => (inr tt, set_fs (add_event w (EvMkdir p)) fs')
    end.
Proof. reflexivity. Qed.

Lemma write_bytes_ok (p : Path) (content : pystr) (w w' : World) :
  write_bytes_of p content w = (inr tt, w') ->
  exists l bytes,
    locate (w_fs w) (base_of w p) (p_parts p) = inr l
    /\ node_at (w_fs w) l <> Some Dir
    /\ utf8_encode content = Some bytes
    /\ w' = set_fs w (<[l := File bytes]> (w_fs w)).
Proof.
  unfold write_bytes_of, os_open_w.
  destruct (locate _ _ _) as [e|l]; [discriminate|].
  assert (H : forall fs1,
    match utf8_encode content with
    | Some bs => (inr tt, set_fs w (<[l:=File bs]> fs1))
    | None => (inl UnicodeEncodeError, set_fs w fs1)
    end = (inr tt, w') ->
    fs1 = <[l := File []]> (w_fs w) -> node_at (w_fs w) l <> Some Dir ->
    exists l0 bytes, @inr oserr loc l = inr l0 /\ node_at (w_fs w) l0 <> Some Dir
      /\ utf8_encode content = Some bytes
      /\ w' = set_fs w (<[l0 := File bytes]> (w_fs w))).
  { intros fs1 H -> N. destruct (utf8_encode content) as [bs|]; [|discriminate].
    injection H as <-. exists l, bs. rewrite insert_insert_eq. auto. }
  destruct (node_at (w_fs w) l) as [[|d]|] eqn:E; [discriminate| |];
    intros R; apply (H _ R); congruence.
Qed.

Lemma export_row_eq `{U : UnicodeDB} (out_dir : Path) (prefer_markdown : bool)
    (row : PageRow) (w : World) :
  export_row out_dir prefer_markdown row w =
    match path_mkdir (subdir out_dir row) w with
    | (inl e, w1) => (inl e, w1)
    | (inr _, w1) =>
        match path_write_text (fpath out_dir prefer_markdown row)
                (content_of prefer_markdown row) w1 with
        | (inl e, w2) => (inl e, w2)
        | (inr _, w2) => (inr (record_of out_dir prefer_markdown row), w2)
        end
    end.
Proof.
  unfold export_row, fpath, content_of, record_of, ext_of, fpath.
  destruct (_pick_content row prefer_markdown) as [content ext].
  reflexivity.
Qed.

Lemma not_dotdot (f : pystr) : In underscore f -> pystr_eqb f (py "..") = false.
Proof.
  intros H. unfold pystr_eqb. case_bool_decide as E; [|reflexivity].
  rewrite E in H. simpl in H. intuition discriminate.
Qed.

Lemma step_name (d : loc) (f : pystr) : In underscore f -> step d f = d ++ [f].
Proof. intros H. unfold step. rewrite (not_dotdot f H). reflexivity. Qed.

Lemma os_read_snoc (fs : gmap loc node) (base : loc) (dirs : list pystr)
    (f : pystr) (d : loc) (bytes : list Byte.byte) :
  In underscore f -> walk_dirs fs base dirs = inr d ->
  fs !! (d ++ [f]) = Some (File bytes) ->
  os_read fs base (dirs ++ [f]) = inr bytes.
Proof.
  intros Hf W E. unfold os_read. rewrite locate_snoc, W, (step_name _ _ Hf).
  rewrite node_at_lookup by (destruct d; discriminate).
  rewrite E. reflexivity.
Qed.

Lemma os_read_snoc_inv (fs : gmap loc node) (base : loc) (dirs : list pystr)
    (f : pystr) (bytes : list Byte.byte) :
  In underscore f -> os_read fs base (dirs ++ [f]) = inr bytes ->
  exists d, walk_dirs fs base dirs = inr d
            /\ fs !! (d ++ [f]) = Some (File bytes).
Proof.
  intros Hf. unfold os_read. rewrite locate_snoc.
  destruct (walk_dirs fs base dirs) as [e|d]; [discriminate|].
  rewrite (step_name _ _ Hf).
  rewrite node_at_lookup by (destruct d; discriminate).
  destruct (fs !! (d ++ [f])) as [[|data]|] eqn:E; try discriminate.
  intros H. injection H as <-. eauto.
Qed.

(** A file stays readable, with the same bytes, while directories stay and
    files of other names are left alone. *)
Lemma os_read_kept (names : list pystr) (fs fs' : gmap loc node) (base : loc)
    (dirs : list pystr) (f : pystr) (bytes : list Byte.byte) :
  In underscore f -> ~ In f names ->
  dirs_kept fs fs' -> files_kept names fs fs' ->
  os_read fs base (dirs ++ [f]) = inr bytes ->
  os_read fs' base (dirs ++ [f]) = inr bytes.
Proof.
  intros Hf Hn K F R.
  destruct (os_read_snoc_inv _ _ _ _ _ Hf R) as (d & W & E).
  apply (os_read_snoc _ _ _ _ d); [exact Hf| |].
  - exact (walk_dirs_mono _ _ _ K _ _ W).
  - apply (F _ _ E). intros g Hg. rewrite last_snoc. congruence.
Qed.

Lemma files_kept_trans (a b c : list pystr) (fs fs1 fs2 : gmap loc node) :
  (forall f, In f a -> In f c) -> (forall f, In f b -> In f c) ->
  files_kept a fs fs1 -> files_kept b fs1 fs2 -> files_kept c fs fs2.
Proof.
  intros Ha Hb F1 F2 l d E N. apply F2; [apply F1|]; auto.
Qed.

Lemma insert_file_kept (fs : gmap loc node) (d : loc) (f : pystr)
    (bytes : list Byte.byte) :
  node_at fs (d ++ [f]) <> Some Dir ->
  dirs_kept fs (<[d ++ [f] := File bytes]> fs)
  /\ files_kept [f] fs (<[d ++ [f] := File bytes]> fs).
Proof.
  intros N. rewrite node_at_lookup in N by (destruct d; discriminate). split.
  - intros l E. rewrite lookup_insert_ne; [exact E|congruence].
  - intros l x E Hl. rewrite lookup_insert_ne; [exact E|].
    intros <-. apply (Hl f); [left; reflexivity|apply last_snoc].
Qed.

Lemma base_of_same (w w' : World) (p p' : Path) :
  w_cwd w' = w_cwd w -> p_abs p' = p_abs p -> base_of w' p' = base_of w p.
Proof. unfold base_of. intros -> ->. reflexivity. Qed.

Lemma same_process_trans (a b c : World) :
  same_process a b -> same_process b c -> same_process a c.
Proof.
  intros (H1 & H2 & H3 & H4) (G1 & G2 & G3 & G4).
  repeat split; congruence.
Qed.

Section ExportRow.
Context `{U : UnicodeDB}.
Variables (out_dir : Path) (prefer_markdown : bool).

Lemma export_row_ok (row : PageRow) (w w' : World) (record : ExportRecord) :
  export_row out_dir prefer_markdown row w = (inr record, w') ->
  record = record_of out_dir prefer_markdown row
  /\ same_process w w'
  /\ w_trace w' = w_trace w ++ row_events out_dir prefer_markdown row
  /\ dirs_kept (w_fs w) (w_fs w')
  /\ files_kept [name_of prefer_markdown row] (w_fs w) (w_fs w')
  /\ exists bytes,
       utf8_encode (content_of prefer_markdown row) = Some bytes
       /\ file_at w' (fpath out_dir prefer_markdown row) = Some bytes.
Proof.
  rewrite export_row_eq, path_mkdir_eq.
  destruct (mkdir_parents _ _ _) as [e|fs1] eqn:Mk; [discriminate|].
  set (w1 := set_fs (add_event w (EvMkdir (subdir out_dir row))) fs1).
  set (p := fpath out_dir prefer_markdown row).
  set (content := content_of prefer_markdown row).
  change (path_write_text p content w1)
    with (write_bytes_of p content (add_event w1 (EvWriteText p content))).
  destruct (write_bytes_of _ _ _) as [[e|[]] w2] eqn:Wr; [discriminate|].
  intros H. injection H as <- <-.
  apply write_bytes_ok in Wr as (l & bytes & Loc & NotDir & Enc & ->).
  destruct (mkdir_parents_ok _ _ _ _ Mk) as [G [d Wd]].
  cbn [w_fs add_event set_fs w1] in Loc, NotDir |- *.
  assert (Hf : In underscore (name_of prefer_markdown row)) by apply fname_has_underscore.
  assert (Hp : p_parts p = p_parts (subdir out_dir row) ++ [name_of prefer_markdown row]).
  { unfold p. rewrite fpath_parts. reflexivity. }
  assert (Hb : base_of (add_event w1 (EvWriteText p content)) p
               = base_of w (subdir out_dir row)).
  { apply base_of_same; [reflexivity|].
    unfold p. rewrite fpath_parts, subdir_parts. reflexivity. }
  rewrite Hb, Hp, locate_snoc, Wd, (step_name _ _ Hf) in Loc.
  injection Loc as <-.
  destruct (insert_file_kept fs1 d (name_of prefer_markdown row) bytes NotDir) as [K F].
  split; [reflexivity|]. split; [repeat split|].
  split; [cbn; rewrite <- app_assoc; reflexivity|].
  split; [exact (dirs_kept_trans _ _ _ (grown_dirs_kept _ _ G) K)|].
  split.
  { apply (files_kept_trans [name_of prefer_markdown row] [name_of prefer_markdown row] _ _ fs1); auto.
    apply grown_files_kept. exact G. }
  exists bytes. split; [exact Enc|].
  unfold file_at. cbn [w_fs set_fs].
  replace (base_of _ p) with (base_of w (subdir out_dir row)).
  rewrite Hp, (os_read_snoc _ _ _ _ d bytes); [reflexivity|exact Hf| |].
  - exact (walk_dirs_mono _ _ _ K _ _ Wd).
  - apply lookup_insert_eq.
Qed.

End ExportRow.

(** ** The export loop *)

Lemma NoDup_map_via {A B C} (f : A -> B) (g : A -> C) (l : list A) :
  NoDup (map f l) ->
  (forall x y, In x l -> In y l -> g x = g y -> f x = f y) ->
  NoDup (map g l).
Proof.
  induction l as [|a l IH]; simpl; intros N H; [constructor|].
  apply NoDup_cons in N as [Na Nl]. apply NoDup_cons. split.
  - rewrite list_elem_of_In, in_map_iff. intros (y & Hy & Iy).
    apply Na. rewrite list_elem_of_In, in_map_iff. exists y.
    split; [|exact Iy]. apply H; auto.
  - apply IH; [exact Nl|]. intros x y Hx Hy. apply H; auto.
Qed.

Section ExportLoop.
Context `{U : UnicodeDB}.
Variables (out_dir : Path) (prefer_markdown : bool).

Lemma file_at_kept (names : list pystr) (w w' : World) (row : PageRow)
    (bytes : list Byte.byte) :
  w_cwd w' = w_cwd w ->
  dirs_kept (w_fs w) (w_fs w') -> files_kept names (w_fs w) (w_fs w') ->
  ~ In (name_of prefer_markdown row) names ->
  file_at w (fpath out_dir prefer_markdown row) = Some bytes ->
  file_at w' (fpath out_dir prefer_markdown row) = Some bytes.
Proof.
  intros C K F N. unfold file_at.
  set (p := fpath out_dir prefer_markdown row).
  assert (Hp : p_parts p
               = p_parts (subdir out_dir row) ++ [name_of prefer_markdown row]).
  { unfold p. rewrite fpath_parts. reflexivity. }
  rewrite (base_of_same w w' p p C eq_refl), Hp.
  destruct (os_read (w_fs w) _ _) as [e|b] eqn:R; [discriminate|].
  intros H. injection H as ->.
  rewrite (os_read_kept names _ _ _ _ (name_of prefer_markdown row) _
             (fname_has_underscore _ _) N K F R).
  reflexivity.
Qed.

Lemma name_of_fresh (row : PageRow) (rest : list PageRow) :
  ~ In (r_id row) (map r_id rest) ->
  ~ In (name_of prefer_markdown row) (map (name_of prefer_markdown) rest).
Proof.
  intros H Hin. apply H. apply in_map_iff in Hin as (row' & E & I).
  apply in_map_iff. exists row'. split; [|exact I].
  symmetry. exact (fname_inj _ _ _ _ (eq_sym E)).
Qed.

Lemma export_rows_ok (rows : list PageRow) :
  forall (exports : list ExportRecord) (w w' : World) (m : list ExportRecord),
  NoDup (map r_id rows) ->
  export_rows out_dir prefer_markdown rows exports w = (inr m, w') ->
  m = exports ++ map (record_of out_dir prefer_markdown) rows
  /\ same_process w w'
  /\ w_trace w'
     = w_trace w ++ concat (map (row_events out_dir prefer_markdown) rows)
  /\ dirs_kept (w_fs w) (w_fs w')
  /\ files_kept (map (name_of prefer_markdown) rows) (w_fs w) (w_fs w')
  /\ Forall (fun row => exists bytes,
       utf8_encode (content_of prefer_markdown row) = Some bytes
       /\ file_at w' (fpath out_dir prefer_markdown row) = Some bytes) rows.
Proof.
  induction rows as [|row rest IH]; intros exports w w' m N.
  - simpl. intros H. injection H as <- <-.
    rewrite !app_nil_r. repeat split; auto.
    + apply dirs_kept_refl.
    + intros l d E _. exact E.
  - cbn [export_rows]. unfold bind at 1.
    destruct (export_row out_dir prefer_markdown row w) as [[e|record] w1]
      eqn:R; [discriminate|].
    intros H. apply NoDup_cons in N as [Nrow Nrest].
    rewrite list_elem_of_In in Nrow.
    destruct (export_row_ok _ _ _ _ _ _ R) as (-> & P1 & T1 & K1 & F1 & B1).
    destruct (IH _ _ _ _ Nrest H) as (-> & P2 & T2 & K2 & F2 & B2).
    split; [rewrite <- app_assoc; reflexivity|].
    split; [exact (same_process_trans _ _ _ P1 P2)|].
    split; [rewrite T2, T1, <- app_assoc; reflexivity|].
    split; [exact (dirs_kept_trans _ _ _ K1 K2)|].
    split.
    { apply (files_kept_trans [name_of prefer_markdown row]
               (map (name_of prefer_markdown) rest) _ _ (w_fs w1));
        [intros f [<-|[]]; left; reflexivity
        |intros f Hf; right; exact Hf|exact F1|exact F2]. }
    constructor; [|exact B2].
    destruct B1 as (bytes & Enc & At). exists bytes. split; [exact Enc|].
    apply (file_at_kept (map (name_of prefer_markdown) rest) w1 w');
      [apply P2|exact K2|exact F2|apply name_of_fresh; exact Nrow|exact At].
Qed.

End ExportLoop.

Lemma environ_item_eq (k : pystr) (w : World) :
  environ_item k w =
    match w_environ w !! k with
    | Some v => (inr v, w)
    | None => (inl KeyError, w)
    end.
Proof.
  unfold environ_item, bind, environ_get, gets. cbn.
  destruct (w_environ w !! k); reflexivity.
Qed.

Ltac item_step :=
  unfold bind at 1; rewrite environ_item_eq;
  match goal with
  | |- context [w_environ ?w !! ?k] =>
      destruct (w_environ w !! k); [|discriminate]
  end.

Lemma connect_ok `{L : Libs} (w w' : World) (conn : ConnParams) :
  _connect w = (inr conn, w') ->
  w' = add_event w (EvConnect conn) /\ w_db w conn <> ConnectFails.
Proof.
  unfold _connect.
  rewrite (bind_ret_ok (gets w_environ) _ w _ eq_refl). cbn [gets snd].
  destruct (missing_vars (w_environ w)); [|discriminate].
  item_step.
  unfold bind at 1.
  assert (P : exists r : exn + Z, forall w0 : World,
    match w_environ w !! BS_DB_PORT with
    | Some s => match int_of_str s with
                | Some z => ret z
                | None => raise ValueError
                end
    | None => ret 3306%Z
    end w0 = (r, w0)).
  { destruct (w_environ w !! BS_DB_PORT) as [s|]; [|eexists; reflexivity].
    destruct (int_of_str s); eexists; reflexivity. }
  destruct P as [r P]. rewrite P. destruct r as [e|port]; [discriminate|].
  item_step. item_step. item_step.
  unfold bind at 1, log at 1. unfold bind at 1, gets at 1.
  cbn [w_db add_event].
  destruct (w_db w _) eqn:R; [discriminate| |];
    intros H; injection H as <- <-; rewrite R; split; congruence.
Qed.

Lemma fetch_pages_ok `{L : Libs} (w w' : World) (rows : list PageRow) :
  fetch_pages w = (inr rows, w') ->
  exists conn,
    w_db w conn = Rows rows
    /\ same_process w w'
    /\ w_fs w' = w_fs w
    /\ w_trace w' = w_trace w ++ [EvConnect conn; EvExecute conn].
Proof.
  unfold fetch_pages. unfold bind at 1.
  destruct (_connect w) as [[e|conn] w1] eqn:C; [discriminate|].
  apply connect_ok in C as [-> _].
  unfold bind, log, gets. cbn [w_db add_event].
  destruct (w_db w conn) eqn:R; try discriminate.
  intros H. injection H as <- <-. exists conn.
  split; [exact R|]. split; [repeat split|]. split; [reflexivity|].
  cbn. rewrite <- app_assoc. reflexivity.
Qed.

(** ** The whole export *)

Lemma format_06d_truthy (n : Z) : truthy (format_06d n) = true.
Proof.
  assert (Z6 : forall w s, (0 < w)%nat -> truthy (zfill w s) = true).
  { intros w s Hw. unfold zfill. destruct s as [|c s].
    - rewrite app_nil_r. simpl. destruct w; [lia|reflexivity].
    - destruct (replicate _ _); reflexivity. }
  destruct n; unfold format_06d; try reflexivity; apply Z6; lia.
Qed.

Lemma name_of_not_index `{U : UnicodeDB} (prefer_markdown : bool)
    (row : PageRow) :
  ~ In (name_of prefer_markdown row) [py "_index.csv"].
Proof.
  intros [H|[]]. unfold name_of, fname in H.
  pose proof (format_06d_truthy (r_id row)) as T.
  assert (E : [] = format_06d (r_id row)).
  { apply (app_first_sep underscore [] (format_06d (r_id row))
             (py "index.csv")
             (_safe_name (opt_or (r_name row) []) ++ py "."
              ++ ext_of prefer_markdown row)).
    - intros [].
    - apply (forallb_not_in id_char); [reflexivity|apply format_06d_chars].
    - exact H. }
  rewrite <- E in T. discriminate.
Qed.

Lemma index_path_parts (out_dir : Path) :
  index_path out_dir =
    {| p_abs := p_abs out_dir; p_parts := p_parts out_dir ++ [py "_index.csv"] |}.
Proof.
  unfold index_path. rewrite path_join_single; [reflexivity| |reflexivity].
  vm_compute. intuition discriminate.
Qed.

Lemma place_of_file `{U : UnicodeDB} (out_dir : Path) (prefer_markdown : bool)
    (w : World) (row : PageRow) (bytes : list Byte.byte) :
  file_at w (fpath out_dir prefer_markdown row) = Some bytes ->
  exists d,
    place_of w (fpath out_dir prefer_markdown row)
    = Some (d ++ [name_of prefer_markdown row]).
Proof.
  unfold file_at, place_of.
  set (p := fpath out_dir prefer_markdown row).
  assert (Hp : p_parts p
               = p_parts (subdir out_dir row) ++ [name_of prefer_markdown row]).
  { unfold p. rewrite fpath_parts. reflexivity. }
  rewrite Hp.
  destruct (os_read _ _ _) as [e|b] eqn:R; [discriminate|]. intros _.
  destruct (os_read_snoc_inv _ _ _ _ _ (fname_has_underscore _ _) R)
    as (d & W & _).
  exists d. rewrite locate_snoc, W, step_name; [reflexivity|].
  apply fname_has_underscore.
Qed.

(** C2. In every run of [export_pages] that completes, over rows with
    distinct page ids, the manifest has exactly one row per fetched page,
    in order; one file is written per page, at the path the manifest row
    gives; the files of different pages are different places of the tree;
    and at the end each of them holds exactly the UTF-8 bytes of the
    content selected for its page. *)
Theorem export_pages_manifest_matches_files `{U : UnicodeDB} `{L : Libs}
    (out_dir : Path) (prefer_markdown : bool) (w w' : World)
    (manifest : list ExportRecord) :
  (forall c, match w_db w c with
             | Rows rows => NoDup (map r_id rows)
             | _ => True
             end) ->
  export_pages out_dir prefer_markdown w = (inr manifest, w') ->
  exists conn rows,
    w_db w conn = Rows rows
    /\ manifest = map (record_of out_dir prefer_markdown) rows
    /\ w_trace w'
       = w_trace w ++ [EvMkdir out_dir; EvConnect conn; EvExecute conn]
         ++ concat (map (row_events out_dir prefer_markdown) rows)
         ++ [EvToCsv (index_path out_dir) manifest]
    /\ Forall (fun row =>
         e_path (record_of out_dir prefer_markdown row)
         = path_str (fpath out_dir prefer_markdown row)
         /\ exists bytes,
              utf8_encode (content_of prefer_markdown row) = Some bytes
              /\ file_at w' (fpath out_dir prefer_markdown row) = Some bytes)
         rows
    /\ NoDup (map (fun row => place_of w' (fpath out_dir prefer_markdown row))
                rows)
    /\ exists text,
         utf8_encode (to_csv manifest) = Some text
         /\ file_at w' (index_path out_dir) = Some text.
Proof.
  intros Hids. unfold export_pages. unfold bind at 1. rewrite path_mkdir_eq.
  destruct (mkdir_parents _ _ _) as [e|fs0] eqn:Mk; [discriminate|].
  set (w0 := set_fs (add_event w (EvMkdir out_dir)) fs0).
  unfold bind at 1.
  destruct (fetch_pages w0) as [[e|rows] w1] eqn:Fe; [discriminate|].
  unfold bind at 1.
  destruct (export_rows out_dir prefer_markdown rows [] w1) as [[e|m] w2]
    eqn:Lo; [discriminate|].
  unfold bind at 1, log at 1. unfold bind at 1.
  destruct (write_bytes_of _ _ _) as [[e|[]] w3] eqn:Wr; [discriminate|].
  unfold ret. intros H. injection H as <- <-.
  destruct (fetch_pages_ok _ _ _ Fe) as (conn & Db & P1 & Fs1 & T1).
  change (w_db w0 conn) with (w_db w conn) in Db.
  assert (N : NoDup (map r_id rows)).
  { specialize (Hids conn). rewrite Db in Hids. exact Hids. }
  destruct (export_rows_ok out_dir prefer_markdown rows _ _ _ _ N Lo)
    as (Hm & P2 & T2 & K2 & F2 & B2).
  simpl in Hm. subst m.
  apply write_bytes_ok in Wr as (l & text & Loc & NotDir & Enc & ->).
  cbn [w_fs add_event set_fs] in Loc, NotDir.
  set (idx := index_path out_dir) in *.
  assert (Hi : In underscore (py "_index.csv")) by (left; reflexivity).
  assert (Hp : p_parts idx = p_parts out_dir ++ [py "_index.csv"]).
  { unfold idx. rewrite index_path_parts. reflexivity. }
  rewrite Hp, locate_snoc in Loc.
  destruct (walk_dirs (w_fs w2) _ (p_parts out_dir)) as [e|d] eqn:Wd;
    [discriminate|].
  rewrite (step_name _ _ Hi) in Loc. injection Loc as <-.
  destruct (insert_file_kept (w_fs w2) d (py "_index.csv") text NotDir)
    as [K3 F3].
  set (w3 := set_fs _ _).
  assert (B3 : Forall (fun row => exists bytes,
       utf8_encode (content_of prefer_markdown row) = Some bytes
       /\ file_at w3 (fpath out_dir prefer_markdown row) = Some bytes) rows).
  { eapply Forall_impl; [exact B2|]. intros row (bytes & E & At).
    exists bytes. split; [exact E|].
    apply (file_at_kept out_dir prefer_markdown [py "_index.csv"] w2 w3);
      [reflexivity|exact K3|exact F3|apply name_of_not_index|exact At]. }
  exists conn, rows. split; [exact Db|]. split; [reflexivity|].
  split.
  { cbn. rewrite T2, T1. cbn. rewrite <- !app_assoc. reflexivity. }
  split.
  { eapply Forall_impl; [exact B3|]. intros row Hrow.
    split; [reflexivity|exact Hrow]. }
  split.
  { apply (NoDup_map_via r_id); [exact N|].
    intros x y Hx Hy E. rewrite Forall_forall in B3.
    destruct (B3 x) as (bx & _ & Ax);
      [apply list_elem_of_In; exact Hx|].
    destruct (B3 y) as (by' & _ & Ay);
      [apply list_elem_of_In; exact Hy|].
    destruct (place_of_file _ _ _ _ _ Ax) as (dx & Px).
    destruct (place_of_file _ _ _ _ _ Ay) as (dy & Py).
    rewrite Px, Py in E. injection E as E.
    apply (f_equal last) in E. rewrite !last_snoc in E.
    injection E as E. exact (fname_inj _ _ _ _ E). }
  exists text. split; [exact Enc|].
  unfold file_at. rewrite Hp. cbn [w_fs w3 set_fs].
  rewrite (os_read_snoc _ _ _ _ d text); [reflexivity|exact Hi| |].
  - exact (walk_dirs_mono _ _ _ K3 _ _ Wd).
  - apply lookup_insert_eq.
Qed.

Lemma export_pages_manifest_matches_files_witness :
  let w := sample_world env_complete in
  let w' := snd sample_run in
  length sample_manifest = 2%nat
  /\ exists conn rows,
       w_db w conn = Rows rows
       /\ sample_manifest = map (@record_of ascii_db sample_out true) rows
       /\ w_trace w'
          = w_trace w ++ [EvMkdir sample_out; EvConnect conn; EvExecute conn]
            ++ concat (map (@row_events ascii_db sample_out true) rows)
            ++ [EvToCsv (index_path sample_out) sample_manifest]
       /\ Forall (fun row =>
            e_path (@record_of ascii_db sample_out true row)
            = path_str (@fpath ascii_db sample_out true row)
            /\ exists bytes,
                 utf8_encode (content_of true row) = Some bytes
                 /\ file_at w' (@fpath ascii_db sample_out true row)
                    = Some bytes) rows
       /\ NoDup (map (fun row => place_of w' (@fpath ascii_db sample_out true row))
                   rows)
       /\ exists text,
            utf8_encode (@to_csv plain_libs sample_manifest) = Some text
            /\ file_at w' (index_path sample_out) = Some text.
Proof.
  intros w w'. split; [vm_compute; reflexivity|].
  apply (@export_pages_manifest_matches_files ascii_db plain_libs
           sample_out true w w' sample_manifest).
  - intros c. cbn. repeat constructor; rewrite list_elem_of_In; cbn;
      intuition discriminate.
  - vm_compute. reflexivity.
Defined.

(** ** The output directory *)

Lemma locate_mono (fs fs' : gmap loc node) (base : loc) (parts : list pystr)
    (l : loc) :
  dirs_kept fs fs' -> locate fs base parts = inr l -> locate fs' base parts = inr l.
Proof.
  intros K. destruct (snoc_cases parts) as [->|(init & x & ->)]; [auto|].
  rewrite !locate_snoc.
  destruct (walk_dirs fs base init) as [e|d] eqn:W; [discriminate|].
  rewrite (walk_dirs_mono _ _ _ K _ _ W). auto.
Qed.

Lemma os_mkdir_is_dir (fs fs' : gmap loc node) (base : loc)
    (parts : list pystr) :
  os_mkdir fs base parts = inr fs' -> os_is_dir fs' base parts = true.
Proof.
  intros H. destruct (os_mkdir_ok _ _ _ _ H) as [G _]. revert H.
  unfold os_mkdir, os_is_dir.
  destruct (locate fs base parts) as [e|l] eqn:Loc; [discriminate|].
  destruct (node_at fs l) eqn:E; [discriminate|].
  intros H. injection H as <-.
  rewrite (locate_mono _ _ _ _ _ (grown_dirs_kept _ _ G) Loc).
  rewrite node_at_lookup by (intros ->; discriminate).
  rewrite lookup_insert_eq. reflexivity.
Qed.

Lemma exist_ok_is_dir (fs fs' : gmap loc node) (base : loc)
    (parts : list pystr) (e : oserr) :
  (if os_is_dir fs base parts then inr fs else inl e) = inr fs' ->
  os_is_dir fs' base parts = true.
Proof.
  destruct (os_is_dir fs base parts) eqn:D; [|discriminate].
  intros H. injection H as <-. exact D.
Qed.

Lemma mkdir_prefix_is_dir (base : loc) (all : list pystr) (n : nat) :
  forall fs fs', mkdir_prefix fs base all n = inr fs' ->
  os_is_dir fs' base (take n all) = true.
Proof.
  destruct n as [|m]; intros fs fs'; rewrite mkdir_prefix_eq;
    destruct (os_mkdir fs base (take _ all)) as [e|fs1] eqn:E.
  - destruct e; try discriminate; apply exist_ok_is_dir.
  - intros H. injection H as <-. apply (os_mkdir_is_dir _ _ _ _ E).
  - destruct e; try apply exist_ok_is_dir.
    destruct (mkdir_prefix fs base all m) as [e1|fs1]; [discriminate|].
    destruct (os_mkdir fs1 base (take (S m) all)) as [e2|fs2] eqn:E2.
    + destruct e2; try discriminate; apply exist_ok_is_dir.
    + intros H. injection H as <-. apply (os_mkdir_is_dir _ _ _ _ E2).
  - intros H. injection H as <-. apply (os_mkdir_is_dir _ _ _ _ E).
Qed.

Lemma mkdir_parents_is_dir (fs fs' : gmap loc node) (base : loc)
    (parts : list pystr) :
  mkdir_parents fs base parts = inr fs' -> os_is_dir fs' base parts = true.
Proof.
  unfold mkdir_parents. intros H.
  apply mkdir_prefix_is_dir in H. rewrite firstn_all in H. exact H.
Qed.

Lemma step_plain (cur : loc) (x : pystr) : x <> py ".." -> step cur x = cur ++ [x].
Proof.
  intros H. unfold step, pystr_eqb. case_bool_decide; [contradiction|reflexivity].
Qed.

Lemma walk_plain (fs : gmap loc node) (parts : list pystr) :
  no_dotdot parts ->
  forall cur d, walk_dirs fs cur parts = inr d -> d = cur ++ parts.
Proof.
  intros N. induction N as [|x r Hx Hr IH]; intros cur d; simpl.
  - intros H. injection H as <-. rewrite app_nil_r. reflexivity.
  - rewrite (step_plain _ _ Hx).
    destruct (node_at fs (cur ++ [x])) as [[|data]|]; try discriminate.
    intros H. rewrite (IH _ _ H), <- app_assoc. reflexivity.
Qed.

Lemma locate_plain (fs : gmap loc node) (base : loc) (parts : list pystr)
    (l : loc) :
  no_dotdot parts -> locate fs base parts = inr l -> l = base ++ parts.
Proof.
  intros N. destruct (snoc_cases parts) as [->|(init & x & ->)].
  - simpl. intros H. injection H as <-. rewrite app_nil_r. reflexivity.
  - apply Forall_app in N as [Ni Nx]. apply Forall_cons in Nx as [Nx _].
    rewrite locate_snoc.
    destruct (walk_dirs fs base init) as [e|d] eqn:W; [discriminate|].
    rewrite (walk_plain _ _ Ni _ _ W), (step_plain _ _ Nx), <- app_assoc.
    intros H. injection H as <-. reflexivity.
Qed.

(** Without [..], whatever [mkdir] adds lies on the way to the directory. *)
Lemma os_mkdir_added (fs fs' : gmap loc node) (base : loc)
    (parts : list pystr) :
  no_dotdot parts -> os_mkdir fs base parts = inr fs' ->
  forall l x, fs' !! l = Some x -> fs !! l = Some x \/ l = base ++ parts.
Proof.
  intros N. unfold os_mkdir.
  destruct (locate fs base parts) as [e|l0] eqn:Loc; [discriminate|].
  destruct (node_at fs l0); [discriminate|].
  intros H. injection H as <-. intros l x E.
  destruct (decide (l0 = l)) as [<-|Hne].
  - right. exact (locate_plain _ _ _ _ N Loc).
  - left. rewrite lookup_insert_ne in E by exact Hne. exact E.
Qed.

Lemma no_dotdot_take (n : nat) (parts : list pystr) :
  no_dotdot parts -> no_dotdot (take n parts).
Proof. apply Forall_take. Qed.

Lemma mkdir_prefix_added (base : loc) (all : list pystr) :
  no_dotdot all ->
  forall n fs fs', mkdir_prefix fs base all n = inr fs' ->
  forall l x, fs' !! l = Some x ->
    fs !! l = Some x \/ exists k, l = base ++ take k all.
Proof.
  intros N. induction n as [|m IH]; intros fs fs'; rewrite mkdir_prefix_eq;
    destruct (os_mkdir fs base (take _ all)) as [e|fs1] eqn:E.
  - destruct e; try discriminate; intros H;
      apply exist_ok in H as [-> _]; auto.
  - intros H. injection H as <-. intros l x Hl.
    destruct (os_mkdir_added _ _ _ _ (no_dotdot_take _ _ N) E l x Hl); eauto.
  - destruct e; try (intros H; apply exist_ok in H as [-> _]; auto).
    destruct (mkdir_prefix fs base all m) as [e1|fs1] eqn:R; [discriminate|].
    pose proof (IH _ _ R) as A1.
    destruct (os_mkdir fs1 base (take (S m) all)) as [e2|fs2] eqn:E2.
    + destruct e2; try discriminate; intros H;
        apply exist_ok in H as [-> _]; exact A1.
    + intros H. injection H as <-. intros l x Hl.
      destruct (os_mkdir_added _ _ _ _ (no_dotdot_take _ _ N) E2 l x Hl)
        as [Hl1|Hl1]; [apply (A1 l x Hl1)|eauto].
  - intros H. injection H as <-. intros l x Hl.
    destruct (os_mkdir_added _ _ _ _ (no_dotdot_take _ _ N) E l x Hl); eauto.
Qed.

Lemma wf_prefix_dir (fs : gmap loc node) (d rest : loc) :
  tree_wf fs -> rest <> [] ->
  forall x, fs !! (d ++ rest) = Some x -> node_at fs d = Some Dir.
Proof.
  intros Wf. induction rest as [|z r IH] using rev_ind; [congruence|].
  intros _ x E. apply Wf in E.
  rewrite app_assoc, removelast_last in E.
  destruct r as [|y r']; [rewrite app_nil_r in E; exact E|].
  rewrite node_at_lookup in E by (destruct d; discriminate).
  apply (IH ltac:(discriminate) Dir E).
Qed.

Lemma walk_all_dirs (fs : gmap loc node) (parts : list pystr) :
  no_dotdot parts ->
  forall cur,
    (forall k, (0 < k <= length parts)%nat ->
               node_at fs (cur ++ take k parts) = Some Dir) ->
    walk_dirs fs cur parts = inr (cur ++ parts).
Proof.
  intros N. induction N as [|x r Hx Hr IH]; intros cur H; simpl.
  - rewrite app_nil_r. reflexivity.
  - rewrite (step_plain _ _ Hx).
    pose proof (H 1%nat ltac:(simpl; lia)) as H1.
    change (node_at fs (cur ++ [x]) = Some Dir) in H1.
    rewrite H1, IH, <- app_assoc; [reflexivity|].
    intros k Hk. specialize (H (S k) ltac:(simpl; lia)).
    rewrite <- app_assoc. exact H.
Qed.

(** In a well-formed tree, a path without [..] that does not exist names a
    place where there is nothing. *)
Lemma absent_place (fs : gmap loc node) (base : loc) (parts : list pystr) :
  tree_wf fs -> no_dotdot parts -> os_exists fs base parts = false ->
  base ++ parts <> [] /\ fs !! (base ++ parts) = None.
Proof.
  intros Wf N Ex.
  assert (Hne : base ++ parts <> []).
  { intros E. apply app_eq_nil in E as [-> ->]. discriminate. }
  split; [exact Hne|].
  destruct (fs !! (base ++ parts)) as [x|] eqn:E; [exfalso|reflexivity].
  revert Ex. unfold os_exists.
  destruct (snoc_cases parts) as [->|(init & y & ->)].
  - simpl. rewrite app_nil_r in *. rewrite node_at_lookup, E by exact Hne.
    discriminate.
  - apply Forall_app in N as [Ni Ny]. apply Forall_cons in Ny as [Ny _].
    rewrite locate_snoc, (walk_all_dirs fs init Ni base).
    + rewrite (step_plain _ _ Ny), <- app_assoc.
      rewrite node_at_lookup, E by exact Hne. discriminate.
    + intros k Hk.
      apply (wf_prefix_dir fs (base ++ take k init) (drop k init ++ [y]) Wf)
        with (x := x); [destruct (drop k init); discriminate|].
      rewrite <- app_assoc, (app_assoc (take k init)), take_drop. exact E.
Qed.

(** C9, as stated, fails: when the output directory is there already the
    run that stops at the configuration check leaves it as it was, neither
    newly created nor empty. *)
Lemma existing_out_dir_left_as_is :
  let w := world_existing_out in
  let r := @export_pages ascii_db plain_libs sample_out true w in
  missing_vars (w_environ w) <> []
  /\ fst r = inl (config_error (snd r))
  /\ os_is_dir (w_fs w) (base_of w sample_out) (p_parts sample_out) = true
  /\ w_fs (snd r) = w_fs w
  /\ w_fs (snd r) !! [py "home"; py "out"; py "old.txt"]
     = Some (File (bytes_of (py "kept"))).
Proof.
  cbv zeta. split; [vm_compute; discriminate|].
  repeat split; vm_compute; reflexivity.
Qed.

(** C9, amended. When a required variable is missing, [export_pages] first
    makes the output directory (with its parents, when it is not there
    yet); if that fails the run ends with the error of [mkdir]; otherwise
    it ends with the configuration error, and at that point the output
    path is a directory, the only thing done is that [mkdir], and the tree
    has gained nothing but directories: no page file and no manifest.  When
    the path did not exist before and has no [..] part, the directory is
    new and nothing lies inside it. *)
Theorem export_pages_makes_out_dir_before_check `{U : UnicodeDB} `{L : Libs}
    (out_dir : Path) (prefer_markdown : bool) (w : World) :
  missing_vars (w_environ w) <> [] ->
  let r := export_pages out_dir prefer_markdown w in
  let base := base_of w out_dir in
  match mkdir_parents (w_fs w) base (p_parts out_dir) with
  | inl e => r = (inl (OSError e out_dir), add_event w (EvMkdir out_dir))
  | inr fs' =>
      fst r = inl (config_error (snd r))
      /\ w_trace (snd r) = w_trace w ++ [EvMkdir out_dir]
      /\ w_fs (snd r) = fs'
      /\ os_is_dir fs' base (p_parts out_dir) = true
      /\ grown (w_fs w) fs'
      /\ (os_exists (w_fs w) base (p_parts out_dir) = false ->
          tree_wf (w_fs w) -> no_dotdot (p_parts out_dir) ->
          w_fs w !! (base ++ p_parts out_dir) = None
          /\ fs' !! (base ++ p_parts out_dir) = Some Dir
          /\ forall l x, fs' !! l = Some x ->
                         ~ below (base ++ p_parts out_dir) l)
  end.
Proof.
  intros H. cbv zeta. rewrite export_pages_missing by exact H.
  destruct (mkdir_parents _ _ _) as [e|fs'] eqn:Mk; [reflexivity|].
  cbn [fst snd set_fs add_event w_trace w_fs].
  pose proof (mkdir_parents_is_dir _ _ _ _ Mk) as D.
  destruct (mkdir_parents_ok _ _ _ _ Mk) as [G _].
  split; [reflexivity|]. split; [reflexivity|]. split; [reflexivity|].
  split; [exact D|]. split; [exact G|].
  intros Ex Wf N.
  destruct (absent_place _ _ _ Wf N Ex) as [Hne Hnone].
  split; [exact Hnone|]. split.
  - revert D. unfold os_is_dir.
    destruct (locate fs' _ _) as [e|l] eqn:Loc; [discriminate|].
    rewrite (locate_plain _ _ _ _ N Loc), node_at_lookup by exact Hne.
    destruct (fs' !! _) as [[|d]|]; congruence.
  - intros l x Hl (rest & Hrest & ->).
    destruct (mkdir_prefix_added _ _ N _ _ _ Mk _ _ Hl) as [Hold|[k Hk]].
    + pose proof (wf_prefix_dir _ _ _ Wf Hrest _ Hold) as Hd.
      rewrite node_at_lookup, Hnone in Hd by exact Hne. discriminate.
    + rewrite <- app_assoc in Hk. apply app_inv_head in Hk.
      apply (f_equal length) in Hk. rewrite length_app, length_take in Hk.
      destruct rest; [congruence|simpl in Hk; lia].
Qed.

Lemma sample_fs_wf : tree_wf sample_fs.
Proof.
  change (map_Forall (fun l _ => node_at sample_fs (removelast l) = Some Dir)
            sample_fs).
  unfold sample_fs at 2.
  repeat (apply map_Forall_insert_2; [vm_compute; reflexivity|]).
  apply map_Forall_empty.
Qed.

Lemma export_pages_makes_out_dir_before_check_witness :
  let w := sample_world env_empty_name in
  let r := @export_pages ascii_db plain_libs sample_out true w in
  fst r = inl (config_error (snd r))
  /\ w_trace (snd r) = [EvMkdir sample_out]
  /\ w_fs w !! [py "home"; py "out"] = None
  /\ w_fs (snd r) !! [py "home"; py "out"] = Some Dir
  /\ forall l x, w_fs (snd r) !! l = Some x -> ~ below [py "home"; py "out"] l.
Proof.
  intros w r.
  assert (Miss : missing_vars (w_environ w) <> [])
    by (vm_compute; discriminate).
  pose proof (@export_pages_makes_out_dir_before_check ascii_db plain_libs
                sample_out true w Miss) as T.
  cbv zeta in T. fold r in T.
  destruct (mkdir_parents (w_fs w) (base_of w sample_out) (p_parts sample_out))
    as [e|fs'] eqn:Mk; [vm_compute in Mk; discriminate|].
  destruct T as (T1 & T2 & T3 & _ & _ & T6).
  destruct T6 as (N1 & N2 & N3).
  - vm_compute. reflexivity.
  - exact sample_fs_wf.
  - repeat constructor; discriminate.
  - rewrite T3. repeat split; assumption.
Defined.

(** ** What is written is trimmed *)

(** C10. The content the selector returns is the whitespace-trimmed value
    of the chosen field, for both formats: it neither starts nor ends with
    white space, and a null field counts as the empty string; and the file
    a turn of the export loop writes for the row holds exactly the UTF-8
    bytes of that trimmed value. *)
Theorem pick_content_trimmed `{U : UnicodeDB} (out_dir : Path) (row : PageRow)
    (prefer_markdown : bool) :
  let content := fst (_pick_content row prefer_markdown) in
  let ext := snd (_pick_content row prefer_markdown) in
  let chosen := if pystr_eqb ext (py "md") then r_markdown row else r_html row in
  let trimmed := strip (match chosen with Some s => s | None => [] end) in
  content = trimmed
  /\ match trimmed with [] => True | c :: _ => isspace c = false end
  /\ match rev trimmed with [] => True | c :: _ => isspace c = false end
  /\ forall (w w' : World) (record : ExportRecord),
       export_row out_dir prefer_markdown row w = (inr record, w') ->
       exists bytes,
         utf8_encode trimmed = Some bytes
         /\ file_at w' (fpath out_dir prefer_markdown row) = Some bytes.
Proof.
  cbv zeta.
  assert (E : fst (_pick_content row prefer_markdown)
    = strip (match (if pystr_eqb (snd (_pick_content row prefer_markdown))
                         (py "md")
                    then r_markdown row else r_html row) with
             | Some s => s | None => [] end)).
  { unfold _pick_content.
    destruct (prefer_markdown && truthy _); simpl; rewrite or_empty_default;
      reflexivity. }
  split; [exact E|]. split; [apply strip_head|]. split; [apply strip_last|].
  intros w w' record H.
  destruct (export_row_ok _ _ _ _ _ _ H) as (_ & _ & _ & _ & _ & B).
  unfold content_of in B. rewrite E in B. exact B.
Qed.

Lemma pick_content_trimmed_witness :
  let row := {| r_id := 1; r_name := Some (py "Intro page");
                r_slug := Some (py "intro");
                r_book_name := Some (py "My Book"); r_chapter_name := None;
                r_html := Some (py "<p>hi</p>");
                r_markdown := Some (py " # hi ");
                r_updated_at := None |} in
  let w := sample_world env_complete in
  let w' := snd (@export_row ascii_db sample_out true row w) in
  exists bytes,
    utf8_encode (py "# hi") = Some bytes
    /\ file_at w' (@fpath ascii_db sample_out true row) = Some bytes.
Proof.
  intros row w w'.
  destruct (@pick_content_trimmed ascii_db sample_out row true)
    as (_ & _ & _ & H).
  apply (H w w' (@record_of ascii_db sample_out true row)).
  vm_compute. reflexivity.
Defined.

(** * Further properties of the code *)

(** ** [_connect] and [fetch_pages] as equations *)

Lemma connect_eq `{L : Libs} (w : World) :
  _connect w =
    match missing_vars (w_environ w) with
    | _ :: _ => (inl (config_error w), w)
    | [] =>
        match conn_params_of (w_environ w) with
        | inl e => (inl e, w)
        | inr conn =>
            match w_db w conn with
            | ConnectFails => (inl DatabaseError, add_event w (EvConnect conn))
            | _ => (inr conn, add_event w (EvConnect conn))
            end
        end
    end.
Proof.
  destruct (missing_vars (w_environ w)) as [|k ks] eqn:Miss.
  2:{ rewrite connect_missing by (rewrite Miss; discriminate). reflexivity. }
  unfold _connect.
  rewrite (bind_ret_ok (gets w_environ) _ w _ eq_refl). cbn [gets snd].
  rewrite Miss. unfold conn_params_of.
  unfold bind at 1. rewrite environ_item_eq.
  destruct (w_environ w !! BS_DB_HOST) as [host|]; [|reflexivity].
  unfold bind at 1.
  assert (P : forall w0 : World,
    match w_environ w !! BS_DB_PORT with
    | Some s => match int_of_str s with
                | Some z => ret z
                | None => raise ValueError
                end
    | None => ret 3306%Z
    end w0 = (port_of (w_environ w), w0)).
  { intros w0. unfold port_of.
    destruct (w_environ w !! BS_DB_PORT) as [s|]; [|reflexivity].
    destruct (int_of_str s); reflexivity. }
  rewrite P. destruct (port_of (w_environ w)) as [e|port]; [reflexivity|].
  unfold bind at 1. rewrite environ_item_eq.
  destruct (w_environ w !! BS_DB_USER) as [user|]; [|reflexivity].
  unfold bind at 1. rewrite environ_item_eq.
  destruct (w_environ w !! BS_DB_PASS) as [password|]; [|reflexivity].
  unfold bind at 1. rewrite environ_item_eq.
  destruct (w_environ w !! BS_DB_NAME) as [database|]; [|reflexivity].
  unfold bind at 1, log at 1. unfold bind at 1, gets at 1.
  cbn [w_db add_event]. destruct (w_db w _); reflexivity.
Qed.

Lemma fetch_pages_eq `{L : Libs} (w : World) :
  fetch_pages w =
    match _connect w with
    | (inl e, w1) => (inl e, w1)
    | (inr conn, w1) =>
        match w_db w1 conn with
        | Rows rows => (inr rows, add_event w1 (EvExecute conn))
        | _ => (inl DatabaseError, add_event w1 (EvExecute conn))
        end
    end.
Proof.
  unfold fetch_pages. unfold bind at 1.
  destruct (_connect w) as [[e|conn] w1]; [reflexivity|].
  unfold bind, log, gets. cbn [w_db add_event].
  destruct (w_db w1 conn); reflexivity.
Qed.

(** Whatever happens, [fetch_pages] leaves the file tree and the process
    alone, and logs only database events. *)
Lemma fetch_pages_frame `{L : Libs} (w : World) :
  let w' := snd (fetch_pages w) in
  same_process w w' /\ w_fs w' = w_fs w
  /\ exists evs, w_trace w' = w_trace w ++ evs /\ writes_nothing evs = true.
Proof.
  cbv zeta. rewrite fetch_pages_eq, connect_eq.
  assert (Z : same_process w w /\ w_fs w = w_fs w
              /\ exists evs, w_trace w = w_trace w ++ evs
                             /\ writes_nothing evs = true).
  { repeat split. exists []. rewrite app_nil_r. auto. }
  destruct (missing_vars (w_environ w)); [|exact Z].
  destruct (conn_params_of (w_environ w)) as [e|conn]; [exact Z|].
  destruct (w_db w conn) eqn:D; cbn [snd w_db add_event]; try rewrite D;
    cbn [snd]; repeat split;
    first [ exists [EvConnect conn]; split; reflexivity
          | exists [EvConnect conn; EvExecute conn]; split;
            [cbn; rewrite <- app_assoc; reflexivity|reflexivity] ].
Qed.

(** ** What a run leaves alone, whatever its outcome *)

Lemma files_kept_refl (names : list pystr) (fs : gmap loc node) :
  files_kept names fs fs.
Proof. intros l d E _. exact E. Qed.

Lemma files_kept_weaken (a c : list pystr) (fs fs' : gmap loc node) :
  (forall f, In f a -> In f c) -> files_kept a fs fs' -> files_kept c fs fs'.
Proof. intros H F l d E N. apply F; auto. Qed.

Lemma write_bytes_frame (p : Path) (dirs : list pystr) (f content : pystr)
    (w : World) :
  p_parts p = dirs ++ [f] -> In underscore f ->
  let w' := snd (write_bytes_of p content w) in
  same_process w w' /\ w_trace w' = w_trace w
  /\ dirs_kept (w_fs w) (w_fs w') /\ files_kept [f] (w_fs w) (w_fs w').
Proof.
  intros Hp Hf. cbv zeta. unfold write_bytes_of, os_open_w.
  rewrite Hp, locate_snoc.
  assert (Z : same_process w w /\ w_trace w = w_trace w
              /\ dirs_kept (w_fs w) (w_fs w) /\ files_kept [f] (w_fs w) (w_fs w)).
  { repeat split. apply dirs_kept_refl. apply files_kept_refl. }
  destruct (walk_dirs _ _ dirs) as [e|d]; [exact Z|].
  rewrite (step_name _ _ Hf).
  assert (K : node_at (w_fs w) (d ++ [f]) <> Some Dir ->
    forall data,
      dirs_kept (w_fs w) (<[d ++ [f] := File data]> (<[d ++ [f] := File []]> (w_fs w)))
      /\ files_kept [f] (w_fs w)
           (<[d ++ [f] := File data]> (<[d ++ [f] := File []]> (w_fs w)))).
  { intros N data. rewrite insert_insert_eq. apply insert_file_kept. exact N. }
  destruct (node_at (w_fs w) (d ++ [f])) as [[|old]|] eqn:E; [exact Z| |];
    (destruct (utf8_encode content) as [bs|]; cbn [snd set_fs w_fs w_trace];
     [destruct (K ltac:(discriminate) bs) as [K1 K2]
     |destruct (insert_file_kept (w_fs w) d f [] ltac:(rewrite E; discriminate))
        as [K1 K2]];
     repeat split; assumption).
Qed.

Section Frames.
Context `{U : UnicodeDB}.
Variables (out_dir : Path) (prefer_markdown : bool).

Lemma export_row_frame (row : PageRow) (w : World) :
  let w' := snd (export_row out_dir prefer_markdown row w) in
  same_process w w'
  /\ dirs_kept (w_fs w) (w_fs w')
  /\ files_kept [name_of prefer_markdown row] (w_fs w) (w_fs w')
  /\ exists evs, w_trace w' = w_trace w ++ evs.
Proof.
  cbv zeta. rewrite export_row_eq, path_mkdir_eq.
  destruct (mkdir_parents _ _ _) as [e|fs1] eqn:Mk.
  { cbn [snd]. repeat split; [apply dirs_kept_refl|apply files_kept_refl|].
    eexists. reflexivity. }
  destruct (mkdir_parents_ok _ _ _ _ Mk) as [G _].
  set (w1 := set_fs (add_event w (EvMkdir (subdir out_dir row))) fs1).
  set (p := fpath out_dir prefer_markdown row).
  set (content := content_of prefer_markdown row).
  change (path_write_text p content w1)
    with (write_bytes_of p content (add_event w1 (EvWriteText p content))).
  assert (Hp : p_parts p
               = p_parts (subdir out_dir row) ++ [name_of prefer_markdown row]).
  { unfold p. rewrite fpath_parts. reflexivity. }
  destruct (write_bytes_frame p _ _ content
              (add_event w1 (EvWriteText p content)) Hp
              (fname_has_underscore _ _)) as (P & T & K & F).
  cbv zeta in P, T, K, F. cbn [w_fs add_event] in K, F.
  assert (R : forall r,
    snd (match write_bytes_of p content (add_event w1 (EvWriteText p content))
         with
         | (inl e, w2) => (inl e, w2)
         | (inr _, w2) => (@inr exn ExportRecord r, w2)
         end) = snd (write_bytes_of p content
                       (add_event w1 (EvWriteText p content)))).
  { intros r. destruct (write_bytes_of _ _ _) as [[e|[]] w2]; reflexivity. }
  rewrite R. split; [|split; [|split]].
  - destruct P as (P1 & P2 & P3 & P4). repeat split; assumption.
  - exact (dirs_kept_trans _ _ _ (grown_dirs_kept _ _ G) K).
  - apply (files_kept_trans [name_of prefer_markdown row]
             [name_of prefer_markdown row] _ _ fs1); auto.
    apply grown_files_kept. exact G.
  - rewrite T. cbn. rewrite <- app_assoc. eexists. reflexivity.
Qed.

Lemma export_rows_frame (rows : list PageRow) :
  forall (exports : list ExportRecord) (w : World),
  let w' := snd (export_rows out_dir prefer_markdown rows exports w) in
  same_process w w'
  /\ dirs_kept (w_fs w) (w_fs w')
  /\ files_kept (map (name_of prefer_markdown) rows) (w_fs w) (w_fs w').
Proof.
  induction rows as [|row rest IH]; intros exports w; cbv zeta.
  - cbn. repeat split; [apply dirs_kept_refl|apply files_kept_refl].
  - cbn [export_rows].
    destruct (export_row_frame row w) as (P1 & K1 & F1 & _). cbv zeta in *.
    destruct (bind_cases (export_row out_dir prefer_markdown row)
                (fun record => export_rows out_dir prefer_markdown rest
                                 (exports ++ [record])) w)
      as [(e & _ & ->)|(record & _ & ->)]; cbn [snd].
    + repeat split; try apply P1; [exact K1|].
      apply (files_kept_weaken [name_of prefer_markdown row]); [|exact F1].
      intros f [<-|[]]. left. reflexivity.
    + destruct (IH (exports ++ [record])
                  (snd (export_row out_dir prefer_markdown row w)))
        as (P2 & K2 & F2). cbv zeta in *.
      split; [exact (same_process_trans _ _ _ P1 P2)|].
      split; [exact (dirs_kept_trans _ _ _ K1 K2)|].
      apply (files_kept_trans [name_of prefer_markdown row]
               (map (name_of prefer_markdown) rest) _ _
               (w_fs (snd (export_row out_dir prefer_markdown row w))));
        [intros f [<-|[]]; left; reflexivity
        |intros f Hf; right; exact Hf|exact F1|exact F2].
Qed.

End Frames.

Lemma untouched_refl (w : World) : untouched w w.
Proof. repeat split. apply dirs_kept_refl. auto. Qed.

Lemma untouched_trans (a b c : World) :
  untouched a b -> untouched b c -> untouched a c.
Proof.
  intros (P1 & K1 & F1) (P2 & K2 & F2). split; [|split].
  - exact (same_process_trans _ _ _ P1 P2).
  - exact (dirs_kept_trans _ _ _ K1 K2).
  - intros l d E N. apply F2; [apply F1|]; assumption.
Qed.

Lemma untouched_of_kept (names : list pystr) (w w' : World) :
  Forall (fun f => is_export_name f = true) names ->
  same_process w w' -> dirs_kept (w_fs w) (w_fs w') ->
  files_kept names (w_fs w) (w_fs w') -> untouched w w'.
Proof.
  intros N P K F. split; [exact P|]. split; [exact K|].
  intros l d E Hl. apply (F l d E). intros f Hf Hlast.
  rewrite Forall_forall in N. specialize (N f).
  rewrite (Hl f Hlast) in N. rewrite list_elem_of_In in N.
  specialize (N Hf). discriminate.
Qed.

Lemma untouched_bind {A B} (c : M A) (k : A -> M B) (w : World) :
  untouched w (snd (c w)) ->
  (forall a, untouched (snd (c w)) (snd (k a (snd (c w))))) ->
  untouched w (snd (bind c k w)).
Proof.
  intros H1 H2.
  destruct (bind_cases c k w) as [(e & _ & ->)|(a & _ & ->)]; [exact H1|].
  exact (untouched_trans _ _ _ H1 (H2 a)).
Qed.

Lemma format_06d_head (n : Z) :
  match format_06d n with c :: _ => id_char c = true | [] => False end.
Proof.
  pose proof (format_06d_truthy n) as T.
  pose proof (format_06d_chars n) as C.
  destruct (format_06d n) as [|c r]; [discriminate|].
  simpl in C. apply andb_true_iff in C as [C _]. exact C.
Qed.

Lemma name_of_export_name `{U : UnicodeDB} (prefer_markdown : bool)
    (row : PageRow) :
  is_export_name (name_of prefer_markdown row) = true.
Proof.
  unfold is_export_name, name_of, fname.
  pose proof (format_06d_head (r_id row)) as H.
  destruct (format_06d (r_id row)) as [|c r]; [destruct H|].
  simpl. rewrite H. apply orb_true_r.
Qed.

Lemma path_mkdir_untouched (p : Path) (w : World) :
  untouched w (snd (path_mkdir p w)).
Proof.
  rewrite path_mkdir_eq.
  destruct (mkdir_parents _ _ _) as [e|fs'] eqn:Mk; cbn [snd].
  - apply (untouched_of_kept []); [constructor|repeat split
      |apply dirs_kept_refl|apply files_kept_refl].
  - destruct (mkdir_parents_ok _ _ _ _ Mk) as [G _].
    apply (untouched_of_kept []); [constructor|repeat split
      |exact (grown_dirs_kept _ _ G)|exact (grown_files_kept _ _ _ G)].
Qed.

(** X1. Whatever its outcome, a run of [export_pages] changes neither the
    environment nor the working directory, removes or replaces no
    directory, and leaves every file alone whose name is not one an export
    gives: [_index.csv], or a name that starts with a digit or a minus
    sign. *)
Theorem export_pages_leaves_the_rest_alone `{U : UnicodeDB} `{L : Libs}
    (out_dir : Path) (prefer_markdown : bool) (w : World) :
  let w' := snd (export_pages out_dir prefer_markdown w) in
  w_environ w' = w_environ w /\ w_cwd w' = w_cwd w
  /\ (forall l, w_fs w !! l = Some Dir -> w_fs w' !! l = Some Dir)
  /\ (forall l d, w_fs w !! l = Some (File d) ->
        (forall f, last l = Some f -> is_export_name f = false) ->
        w_fs w' !! l = Some (File d)).
Proof.
  cbv zeta.
  assert (H : untouched w (snd (export_pages out_dir prefer_markdown w))).
  { unfold export_pages.
    apply untouched_bind; [apply path_mkdir_untouched|]. intros _.
    set (w0 := snd (path_mkdir out_dir w)).
    apply untouched_bind.
    { destruct (fetch_pages_frame w0) as (P & F & _). cbv zeta in P, F.
      apply (untouched_of_kept []); [constructor|exact P| |];
        rewrite F; [apply dirs_kept_refl|apply files_kept_refl]. }
    intros rows. set (w1 := snd (fetch_pages w0)).
    apply untouched_bind.
    { destruct (export_rows_frame out_dir prefer_markdown rows [] w1)
        as (P & K & F).
      apply (untouched_of_kept (map (name_of prefer_markdown) rows));
        [|exact P|exact K|exact F].
      apply Forall_forall. intros f Hf.
      apply list_elem_of_In, in_map_iff in Hf as (row & <- & _).
      apply name_of_export_name. }
    intros exports. set (w2 := snd (export_rows _ _ _ _ _)).
    apply untouched_bind.
    { apply (untouched_of_kept []); [constructor|repeat split
        |apply dirs_kept_refl|apply files_kept_refl]. }
    intros _.
    apply untouched_bind; [|intros; apply untouched_refl].
    cbn [snd log].
    destruct (write_bytes_frame (index_path out_dir) (p_parts out_dir)
                (py "_index.csv") (to_csv exports)
                (add_event w2 (EvToCsv (index_path out_dir) exports)))
      as (P & _ & K & F);
      [rewrite index_path_parts; reflexivity|left; reflexivity|].
    apply (untouched_of_kept [py "_index.csv"]);
      [repeat constructor|exact P|exact K|exact F]. }
  destruct H as ((P1 & _ & P3 & _) & K & F). auto.
Qed.

(** X2. When the export loop aborts, it is at the first row whose turn
    fails, and the pages written before it stay as they were written:
    each of their files still holds the bytes of its content (page ids
    distinct). *)
Theorem export_rows_abort_keeps_written `{U : UnicodeDB} (out_dir : Path)
    (prefer_markdown : bool) (rows : list PageRow) :
  forall (exports : list ExportRecord) (w w' : World) (e : exn),
  NoDup (map r_id rows) ->
  export_rows out_dir prefer_markdown rows exports w = (inl e, w') ->
  exists done failed rest w_mid,
    rows = done ++ failed :: rest
    /\ export_rows out_dir prefer_markdown done exports w
       = (inr (exports ++ map (record_of out_dir prefer_markdown) done), w_mid)
    /\ export_row out_dir prefer_markdown failed w_mid = (inl e, w')
    /\ Forall (fun row => exists bytes,
         utf8_encode (content_of prefer_markdown row) = Some bytes
         /\ file_at w' (fpath out_dir prefer_markdown row) = Some bytes) done.
Proof.
  induction rows as [|row rest IH]; intros exports w w' e N; [discriminate|].
  cbn [export_rows]. unfold bind at 1.
  destruct (export_row out_dir prefer_markdown row w) as [[e1|record] w1]
    eqn:R.
  - intros H. injection H as <- <-. exists [], row, rest, w.
    cbn. rewrite app_nil_r. repeat split; auto.
  - intros H. apply NoDup_cons in N as [Nrow Nrest].
    rewrite list_elem_of_In in Nrow.
    destruct (export_row_ok _ _ _ _ _ _ R) as (-> & _ & _ & _ & _ & B1).
    destruct (IH _ _ _ _ Nrest H) as (done & failed & rest' & w_mid
                                       & -> & Hd & Hf & Fd).
    exists (row :: done), failed, rest', w_mid.
    split; [reflexivity|]. split.
    { cbn [export_rows]. unfold bind at 1. rewrite R, Hd.
      rewrite <- app_assoc. reflexivity. }
    split; [exact Hf|]. constructor; [|exact Fd].
    destruct B1 as (bytes & Enc & At). exists bytes. split; [exact Enc|].
    pose proof (export_rows_frame out_dir prefer_markdown
                  (done ++ failed :: rest')
                  (exports ++ [record_of out_dir prefer_markdown row]) w1)
      as (P & K & F).
    rewrite H in P, K, F. cbn [snd] in P, K, F.
    apply (file_at_kept out_dir prefer_markdown _ w1 w' row bytes
             (proj1 P) K F); [|exact At].
    apply name_of_fresh. exact Nrow.
Qed.

Lemma export_rows_abort_keeps_written_witness :
  exists done failed rest w_mid,
    clash_rows = done ++ failed :: rest
    /\ @export_rows ascii_db sample_out true done []
         (sample_world env_complete)
       = (inr ([] ++ map (@record_of ascii_db sample_out true) done), w_mid)
    /\ @export_row ascii_db sample_out true failed w_mid
       = (inl clash_error, snd clash_run)
    /\ Forall (fun row => exists bytes,
         utf8_encode (content_of true row) = Some bytes
         /\ file_at (snd clash_run) (@fpath ascii_db sample_out true row)
            = Some bytes) done.
Proof.
  apply (@export_rows_abort_keeps_written ascii_db sample_out true clash_rows
           [] (sample_world env_complete) (snd clash_run) clash_error).
  - cbn. repeat constructor; rewrite list_elem_of_In; cbn;
      intuition discriminate.
  - vm_compute. reflexivity.
Defined.

(** ** Running the export again *)

Lemma is_dir_mono (fs fs' : gmap loc node) (base : loc) (parts : list pystr) :
  dirs_kept fs fs' -> os_is_dir fs base parts = true ->
  os_is_dir fs' base parts = true.
Proof.
  intros K. unfold os_is_dir.
  destruct (locate fs base parts) as [e|l] eqn:Loc; [discriminate|].
  rewrite (locate_mono _ _ _ _ _ K Loc).
  destruct (node_at fs l) as [[|d]|] eqn:E; try discriminate.
  rewrite (node_at_dir_kept _ _ _ K E). reflexivity.
Qed.

Lemma mkdir_existing (fs : gmap loc node) (base : loc) (parts : list pystr) :
  os_is_dir fs base parts = true -> mkdir_parents fs base parts = inr fs.
Proof.
  intros D. unfold mkdir_parents. rewrite mkdir_prefix_eq, firstn_all.
  assert (E : os_mkdir fs base parts = inl EEXIST).
  { revert D. unfold os_is_dir, os_mkdir.
    destruct (locate fs base parts) as [e|l]; [discriminate|].
    destruct (node_at fs l) as [[|d]|]; try discriminate. reflexivity. }
  rewrite E, D. reflexivity.
Qed.

Lemma set_fs_same (w : World) : set_fs w (w_fs w) = w.
Proof. destruct w; reflexivity. Qed.

(** Writing what a file holds already changes nothing. *)
Lemma write_same (p : Path) (content : pystr) (bytes : list Byte.byte)
    (w : World) :
  file_at w p = Some bytes -> utf8_encode content = Some bytes ->
  write_bytes_of p content w = (inr tt, w).
Proof.
  unfold file_at, os_read, write_bytes_of, os_open_w.
  destruct (locate _ _ _) as [e|l]; [discriminate|].
  destruct (node_at (w_fs w) l) as [[|d]|] eqn:E; try discriminate.
  intros H Enc. injection H as ->. rewrite Enc, insert_insert_eq.
  assert (Hl : l <> []) by (intros ->; discriminate).
  rewrite (node_at_lookup _ _ Hl) in E. rewrite (insert_id _ _ _ E).
  rewrite set_fs_same. reflexivity.
Qed.

Lemma file_at_same_tree (w w' : World) (p : Path) :
  w_fs w' = w_fs w -> w_cwd w' = w_cwd w -> file_at w' p = file_at w p.
Proof.
  intros F C. unfold file_at. rewrite F, (base_of_same w w' p p C eq_refl).
  reflexivity.
Qed.

Section Again.
Context `{U : UnicodeDB}.
Variables (out_dir : Path) (prefer_markdown : bool).

Lemma subdir_base (w : World) (row : PageRow) :
  base_of w (subdir out_dir row) = base_of w out_dir.
Proof.
  apply base_of_same; [reflexivity|]. rewrite subdir_parts. reflexivity.
Qed.

Lemma export_row_again (row : PageRow) (w : World) :
  in_place out_dir prefer_markdown w row ->
  exists w2,
    export_row out_dir prefer_markdown row w
    = (inr (record_of out_dir prefer_markdown row), w2)
    /\ w_fs w2 = w_fs w /\ same_process w w2.
Proof.
  intros (D & bytes & Enc & At).
  rewrite export_row_eq, path_mkdir_eq, subdir_base.
  rewrite (mkdir_existing _ _ _ D).
  replace (set_fs (add_event w (EvMkdir (subdir out_dir row))) (w_fs w))
    with (add_event w (EvMkdir (subdir out_dir row)))
    by (destruct w; reflexivity).
  set (w1 := add_event w (EvMkdir (subdir out_dir row))).
  set (p := fpath out_dir prefer_markdown row).
  set (content := content_of prefer_markdown row).
  change (path_write_text p content w1)
    with (write_bytes_of p content (add_event w1 (EvWriteText p content))).
  rewrite (write_same p content bytes); [|exact At|exact Enc].
  eexists. split; [reflexivity|]. split; [reflexivity|repeat split].
Qed.

Lemma in_place_same_tree (w w' : World) (row : PageRow) :
  w_fs w' = w_fs w -> same_process w w' -> in_place out_dir prefer_markdown w row -> in_place out_dir prefer_markdown w' row.
Proof.
  intros F (C & _) (D & bytes & Enc & At). split.
  - rewrite F, (base_of_same w w' out_dir out_dir C eq_refl). exact D.
  - exists bytes. split; [exact Enc|].
    rewrite (file_at_same_tree w w' _ F C). exact At.
Qed.

Lemma export_rows_again (rows : list PageRow) :
  forall (exports : list ExportRecord) (w : World),
  Forall (in_place out_dir prefer_markdown w) rows ->
  exists w2,
    export_rows out_dir prefer_markdown rows exports w
    = (inr (exports ++ map (record_of out_dir prefer_markdown) rows), w2)
    /\ w_fs w2 = w_fs w /\ same_process w w2.
Proof.
  induction rows as [|row rest IH]; intros exports w H.
  - exists w. cbn. rewrite app_nil_r. repeat split.
  - apply Forall_cons in H as [Hrow Hrest].
    destruct (export_row_again row w Hrow) as (w1 & R & F1 & P1).
    destruct (IH (exports ++ [record_of out_dir prefer_markdown row]) w1)
      as (w2 & R2 & F2 & P2).
    { eapply Forall_impl; [exact Hrest|]. intros r.
      apply in_place_same_tree; assumption. }
    exists w2. cbn [export_rows]. unfold bind at 1. rewrite R, R2.
    rewrite <- app_assoc. split; [reflexivity|].
    split; [congruence|exact (same_process_trans _ _ _ P1 P2)].
Qed.

(** After a turn of the loop the directory of the row is there. *)
Lemma export_row_dir (row : PageRow) (w w' : World) (record : ExportRecord) :
  export_row out_dir prefer_markdown row w = (inr record, w') ->
  os_is_dir (w_fs w') (base_of w out_dir) (p_parts (subdir out_dir row)) = true.
Proof.
  rewrite export_row_eq, path_mkdir_eq, subdir_base.
  destruct (mkdir_parents _ _ _) as [e|fs1] eqn:Mk; [discriminate|].
  pose proof (mkdir_parents_is_dir _ _ _ _ Mk) as D.
  set (w1 := set_fs (add_event w (EvMkdir (subdir out_dir row))) fs1).
  set (p := fpath out_dir prefer_markdown row).
  set (content := content_of prefer_markdown row).
  change (path_write_text p content w1)
    with (write_bytes_of p content (add_event w1 (EvWriteText p content))).
  assert (Hp : p_parts p
               = p_parts (subdir out_dir row) ++ [name_of prefer_markdown row]).
  { unfold p. rewrite fpath_parts. reflexivity. }
  destruct (write_bytes_frame p _ _ content
              (add_event w1 (EvWriteText p content)) Hp
              (fname_has_underscore _ _)) as (_ & _ & K & _).
  cbv zeta in K. cbn [w_fs add_event w1 set_fs] in K.
  destruct (write_bytes_of _ _ _) as [[e|[]] w2]; [discriminate|].
  intros H. injection H as _ <-. cbn [snd] in K.
  exact (is_dir_mono _ _ _ _ K D).
Qed.

Lemma export_rows_in_place (rows : list PageRow) :
  forall (exports : list ExportRecord) (w w' : World) (m : list ExportRecord),
  NoDup (map r_id rows) ->
  export_rows out_dir prefer_markdown rows exports w = (inr m, w') ->
  Forall (in_place out_dir prefer_markdown w') rows.
Proof.
  intros exports w w' m N H.
  destruct (export_rows_ok out_dir prefer_markdown rows _ _ _ _ N H)
    as (_ & P & _ & _ & _ & B).
  revert exports w H P B. clear N.
  induction rows as [|row rest IH]; intros exports w H P B; [constructor|].
  apply Forall_cons in B as [Brow Brest].
  revert H. cbn [export_rows]. unfold bind at 1.
  destruct (export_row out_dir prefer_markdown row w) as [[e|record] w1]
    eqn:R; [discriminate|]. intros H.
  pose proof (export_row_dir _ _ _ _ R) as D.
  destruct (export_row_frame out_dir prefer_markdown row w) as (P1 & _).
  rewrite R in P1. cbn [snd] in P1.
  pose proof (export_rows_frame out_dir prefer_markdown rest
                (exports ++ [record]) w1) as (P2 & K2 & _).
  rewrite H in P2, K2. cbn [snd] in P2, K2.
  constructor.
  - split; [|exact Brow].
    rewrite (base_of_same w w' out_dir out_dir (proj1 P) eq_refl).
    exact (is_dir_mono _ _ _ _ K2 D).
  - exact (IH _ _ H P2 Brest).
Qed.

End Again.

(** [fetch_pages] in one piece: a value and a world for each state of the
    environment and each reply of the server. *)
Lemma fetch_pages_full `{L : Libs} (w : World) :
  fetch_pages w =
    match missing_vars (w_environ w) with
    | _ :: _ => (inl (config_error w), w)
    | [] =>
        match conn_params_of (w_environ w) with
        | inl e => (inl e, w)
        | inr conn =>
            match w_db w conn with
            | ConnectFails =>
                (inl DatabaseError, add_event w (EvConnect conn))
            | QueryFails =>
                (inl DatabaseError,
                 add_event (add_event w (EvConnect conn)) (EvExecute conn))
            | Rows rows =>
                (inr rows,
                 add_event (add_event w (EvConnect conn)) (EvExecute conn))
            end
        end
    end.
Proof.
  rewrite fetch_pages_eq, connect_eq.
  destruct (missing_vars (w_environ w)); [|reflexivity].
  destruct (conn_params_of (w_environ w)) as [e|conn]; [reflexivity|].
  destruct (w_db w conn) eqn:D; cbn [w_db add_event]; try rewrite D;
    reflexivity.
Qed.

(** The stages of a run of [export_pages] that completes. *)
Lemma export_pages_stages `{U : UnicodeDB} `{L : Libs} (out_dir : Path)
    (prefer_markdown : bool) (w w' : World) (m : list ExportRecord) :
  export_pages out_dir prefer_markdown w = (inr m, w') ->
  exists fs0 conn rows w2 d text,
    mkdir_parents (w_fs w) (base_of w out_dir) (p_parts out_dir) = inr fs0
    /\ missing_vars (w_environ w) = []
    /\ conn_params_of (w_environ w) = inr conn
    /\ w_db w conn = Rows rows
    /\ export_rows out_dir prefer_markdown rows []
         (add_event (add_event (set_fs (add_event w (EvMkdir out_dir)) fs0)
                       (EvConnect conn)) (EvExecute conn))
       = (inr m, w2)
    /\ utf8_encode (to_csv m) = Some text
    /\ walk_dirs (w_fs w2) (base_of w2 out_dir) (p_parts out_dir) = inr d
    /\ node_at (w_fs w2) (d ++ [py "_index.csv"]) <> Some Dir
    /\ w' = set_fs (add_event w2 (EvToCsv (index_path out_dir) m))
              (<[d ++ [py "_index.csv"] := File text]> (w_fs w2)).
Proof.
  unfold export_pages. unfold bind at 1. rewrite path_mkdir_eq.
  destruct (mkdir_parents _ _ _) as [e|fs0] eqn:Mk; [discriminate|].
  set (w0 := set_fs (add_event w (EvMkdir out_dir)) fs0).
  unfold bind at 1. rewrite fetch_pages_full.
  change (w_environ w0) with (w_environ w).
  destruct (missing_vars (w_environ w)) eqn:Miss; [|discriminate].
  destruct (conn_params_of (w_environ w)) as [e|conn] eqn:Cp; [discriminate|].
  change (w_db w0 conn) with (w_db w conn).
  destruct (w_db w conn) as [| |rows] eqn:Db; [discriminate|discriminate|].
  set (w1 := add_event (add_event w0 (EvConnect conn)) (EvExecute conn)).
  unfold bind at 1.
  destruct (export_rows out_dir prefer_markdown rows [] w1) as [[e|m0] w2]
    eqn:Lo; [discriminate|].
  unfold bind at 1, log at 1. unfold bind at 1.
  destruct (write_bytes_of _ _ _) as [[e|[]] w3] eqn:Wr; [discriminate|].
  unfold ret. intros H. injection H as <- <-.
  apply write_bytes_ok in Wr as (l & text & Loc & NotDir & Enc & ->).
  cbn [w_fs add_event set_fs] in Loc, NotDir.
  assert (Hi : In underscore (py "_index.csv")) by (left; reflexivity).
  rewrite index_path_parts in Loc. cbn [p_parts] in Loc.
  rewrite locate_snoc in Loc.
  change (base_of (add_event w2 (EvToCsv (index_path out_dir) m0))
            {| p_abs := p_abs out_dir;
               p_parts := p_parts out_dir ++ [py "_index.csv"] |})
    with (base_of w2 out_dir) in Loc.
  destruct (walk_dirs (w_fs w2) _ (p_parts out_dir)) as [e|d] eqn:Wd;
    [discriminate|].
  rewrite (step_name _ _ Hi) in Loc. injection Loc as <-.
  exists fs0, conn, rows, w2, d, text. repeat split; auto.
Qed.

(** X3. Running the export a second time, right after a run that completed
    over rows with distinct page ids and against the same database answer,
    completes again, returns the same manifest, and leaves the file tree
    exactly as the first run left it: every directory is found in place,
    every page file and the manifest are rewritten with the bytes they
    already hold. *)
Theorem export_pages_twice `{U : UnicodeDB} `{L : Libs} (out_dir : Path)
    (prefer_markdown : bool) (w w' : World) (manifest : list ExportRecord) :
  (forall c, match w_db w c with
             | Rows rows => NoDup (map r_id rows)
             | _ => True
             end) ->
  export_pages out_dir prefer_markdown w = (inr manifest, w') ->
  exists w'',
    export_pages out_dir prefer_markdown w' = (inr manifest, w'')
    /\ w_fs w'' = w_fs w' /\ same_process w' w''.
Proof.
  intros Hids Run.
  destruct (export_pages_stages _ _ _ _ _ Run)
    as (fs0 & conn & rows & w2 & d & text & Mk & Miss & Cp & Db & Lo & Enc
        & Wd & NotDir & ->).
  specialize (Hids conn). rewrite Db in Hids.
  destruct (export_rows_ok _ _ _ _ _ _ _ Hids Lo) as (Em & P2 & _ & K2 & _ & _).
  pose proof (export_rows_in_place _ _ _ _ _ _ _ Hids Lo) as InP.
  destruct (insert_file_kept (w_fs w2) d (py "_index.csv") text NotDir)
    as [K3 F3].
  cbn [w_fs add_event set_fs] in K2.
  destruct P2 as (C2 & R2 & E2 & D2).
  cbn [w_cwd w_repo_env w_environ w_db add_event set_fs] in C2, R2, E2, D2.
  set (w3 := set_fs (add_event w2 (EvToCsv (index_path out_dir) manifest))
               (<[d ++ [py "_index.csv"] := File text]> (w_fs w2))).
  assert (B3 : forall p, base_of w3 p = base_of w p).
  { intros p. unfold base_of. subst w3. cbn. rewrite C2. reflexivity. }
  assert (B2 : forall p, base_of w2 p = base_of w p).
  { intros p. unfold base_of. rewrite C2. reflexivity. }
  assert (Root : os_is_dir (w_fs w3) (base_of w3 out_dir) (p_parts out_dir)
                 = true).
  { rewrite B3. apply (is_dir_mono (w_fs w2)); [exact K3|].
    apply (is_dir_mono fs0); [exact K2|].
    exact (mkdir_parents_is_dir _ _ _ _ Mk). }
  assert (InP3 : Forall (in_place out_dir prefer_markdown w3) rows).
  { rewrite Forall_forall in InP. rewrite Forall_forall. intros row Hin.
    destruct (InP row Hin) as (Dr & bytes & Eb & At). split.
    - rewrite B3, <- (B2 out_dir). exact (is_dir_mono _ _ _ _ K3 Dr).
    - exists bytes. split; [exact Eb|].
      apply (file_at_kept out_dir prefer_markdown [py "_index.csv"] w2 w3);
        auto using name_of_not_index. }
  assert (Idx : file_at w3 (index_path out_dir) = Some text).
  { unfold file_at. rewrite index_path_parts. cbn [p_parts].
    change (base_of w3 {| p_abs := p_abs out_dir;
                          p_parts := p_parts out_dir ++ [py "_index.csv"] |})
      with (base_of w3 out_dir).
    rewrite (os_read_snoc _ _ _ _ d text); auto.
    - left; reflexivity.
    - rewrite B3, <- (B2 out_dir). exact (walk_dirs_mono _ _ _ K3 _ _ Wd).
    - apply lookup_insert_eq. }
  unfold export_pages. unfold bind at 1. rewrite path_mkdir_eq.
  change (w_fs (add_event w3 (EvMkdir out_dir))) with (w_fs w3).
  change (base_of (add_event w3 (EvMkdir out_dir)) out_dir)
    with (base_of w3 out_dir).
  rewrite (mkdir_existing _ _ _ Root).
  set (v0 := set_fs (add_event w3 (EvMkdir out_dir)) (w_fs w3)).
  unfold bind at 1. rewrite fetch_pages_full.
  change (w_environ v0) with (w_environ w2). rewrite E2, Miss, Cp.
  change (w_db v0 conn) with (w_db w2 conn). rewrite D2, Db.
  set (v1 := add_event (add_event v0 (EvConnect conn)) (EvExecute conn)).
  assert (InV : Forall (in_place out_dir prefer_markdown v1) rows).
  { eapply Forall_impl; [exact InP3|]. intros row.
    apply in_place_same_tree; [reflexivity|repeat split]. }
  destruct (export_rows_again out_dir prefer_markdown rows [] v1 InV)
    as (v2 & Lo2 & Fs2 & P2').
  unfold bind at 1. rewrite Lo2, <- Em.
  unfold bind at 1, log at 1. unfold bind at 1.
  rewrite (write_same _ _ text); [|
    rewrite (file_at_same_tree w3);
      [exact Idx|cbn; exact Fs2|cbn; apply P2']|exact Enc].
  unfold ret. eexists. split; [reflexivity|].
  split; [cbn; exact Fs2|].
  destruct P2' as (? & ? & ? & ?). repeat split; cbn; assumption.
Qed.

Lemma export_pages_twice_witness :
  exists w'',
    @export_pages ascii_db plain_libs sample_out true (snd sample_run)
    = (inr sample_manifest, w'')
    /\ w_fs w'' = w_fs (snd sample_run)
    /\ same_process (snd sample_run) w''.
Proof.
  apply (@export_pages_twice ascii_db plain_libs sample_out true
           (sample_world env_complete) (snd sample_run) sample_manifest).
  - intros c. cbn. repeat constructor; rewrite list_elem_of_In; cbn;
      intuition discriminate.
  - vm_compute. reflexivity.
Defined.

(** ** The connection *)

Lemma missing_vars_none (env : gmap pystr pystr) (k : pystr) :
  missing_vars env = [] -> In k required_vars ->
  exists v, env !! k = Some v /\ truthy v = true.
Proof.
  unfold missing_vars. intros M Hin.
  assert (F : falsy (env !! k) = false).
  { destruct (falsy (env !! k)) eqn:E; [|reflexivity].
    assert (I : In k (List.filter (fun k => falsy (env !! k)) required_vars))
      by (apply filter_In; auto).
    rewrite M in I. destruct I. }
  unfold falsy in F. destruct (env !! k) as [v|]; [|discriminate].
  exists v. split; [reflexivity|]. destruct (truthy v); [reflexivity|discriminate].
Qed.

(** With the four required variables in place, the parameters are those
    variables and the port, or the error of the port. *)
Lemma conn_params_complete `{L : Libs} (env : gmap pystr pystr) :
  missing_vars env = [] ->
  exists host user password database,
    env !! BS_DB_HOST = Some host /\ env !! BS_DB_USER = Some user
    /\ env !! BS_DB_PASS = Some password /\ env !! BS_DB_NAME = Some database
    /\ conn_params_of env =
         match port_of env with
         | inl e => inl e
         | inr port =>
             inr {| c_host := host; c_port := port; c_user := user;
                    c_password := password; c_database := database |}
         end.
Proof.
  intros M.
  destruct (missing_vars_none env BS_DB_HOST M) as (host & Eh & _);
    [cbn; auto|].
  destruct (missing_vars_none env BS_DB_USER M) as (user & Eu & _);
    [cbn; auto|].
  destruct (missing_vars_none env BS_DB_PASS M) as (password & Ep & _);
    [cbn; auto|].
  destruct (missing_vars_none env BS_DB_NAME M) as (database & En & _);
    [cbn; auto|].
  exists host, user, password, database. repeat split; auto.
  unfold conn_params_of. rewrite Eh, Eu, Ep, En. reflexivity.
Qed.

(** X4. [_connect] never ends with a [KeyError]: the check of the required
    variables comes first, so each [os.environ[...]] of the call finds its
    variable.  Whatever it does, it writes no file and changes neither the
    environment nor the tree. *)
Theorem connect_never_key_error `{L : Libs} (w : World) :
  fst (_connect w) <> inl KeyError
  /\ w_fs (snd (_connect w)) = w_fs w
  /\ w_environ (snd (_connect w)) = w_environ w.
Proof.
  rewrite connect_eq.
  destruct (missing_vars (w_environ w)) as [|k ks] eqn:M.
  - destruct (conn_params_complete (w_environ w) M)
      as (host & user & password & database & _ & _ & _ & _ & ->).
    unfold port_of.
    destruct (w_environ w !! BS_DB_PORT) as [s|].
    + destruct (int_of_str s);
        [destruct (w_db w _)|]; repeat split; cbn; discriminate.
    + destruct (w_db w _); repeat split; cbn; discriminate.
  - repeat split. unfold config_error. cbn. discriminate.
Qed.

(** X5. With the required variables in place and a [BS_DB_PORT] that [int]
    refuses, [_connect] ends with [ValueError] before any connection is
    tried: the world is as it was. *)
Theorem connect_bad_port `{L : Libs} (w : World) (s : pystr) :
  missing_vars (w_environ w) = [] ->
  w_environ w !! BS_DB_PORT = Some s ->
  int_of_str s = None ->
  _connect w = (inl ValueError, w).
Proof.
  intros M P I. rewrite connect_eq, M.
  destruct (conn_params_complete (w_environ w) M)
    as (host & user & password & database & _ & _ & _ & _ & ->).
  unfold port_of. rewrite P, I. reflexivity.
Qed.

Lemma connect_bad_port_witness :
  @_connect plain_libs (sample_world env_bad_port)
  = (inl ValueError, sample_world env_bad_port).
Proof.
  apply (@connect_bad_port plain_libs (sample_world env_bad_port) (py "33o6"));
    vm_compute; reflexivity.
Defined.

(** X6. With a complete configuration and a server that gives no rows
    (the connection or the query fails), [export_pages] ends with the
    database error after it has made the output directory: the tree has
    gained nothing but directories, and the trace holds the [mkdir], the
    connection and, when the server was reached, the query; nothing is
    written. *)
Theorem export_pages_database_failure `{U : UnicodeDB} `{L : Libs}
    (out_dir : Path) (prefer_markdown : bool) (w : World) (conn : ConnParams)
    (fs' : gmap loc node) :
  missing_vars (w_environ w) = [] ->
  conn_params_of (w_environ w) = inr conn ->
  (forall rows, w_db w conn <> Rows rows) ->
  mkdir_parents (w_fs w) (base_of w out_dir) (p_parts out_dir) = inr fs' ->
  let r := export_pages out_dir prefer_markdown w in
  fst r = inl DatabaseError
  /\ w_fs (snd r) = fs'
  /\ grown (w_fs w) fs'
  /\ os_is_dir fs' (base_of w out_dir) (p_parts out_dir) = true
  /\ w_trace (snd r)
     = w_trace w ++ [EvMkdir out_dir; EvConnect conn]
       ++ match w_db w conn with
          | ConnectFails => []
          | _ => [EvExecute conn]
          end.
Proof.
  intros M C NoRows Mk. cbv zeta.
  pose proof (mkdir_parents_ok _ _ _ _ Mk) as [G _].
  pose proof (mkdir_parents_is_dir _ _ _ _ Mk) as D.
  set (w0 := set_fs (add_event w (EvMkdir out_dir)) fs').
  assert (E : export_pages out_dir prefer_markdown w =
    (inl DatabaseError,
     match w_db w conn with
     | ConnectFails => add_event w0 (EvConnect conn)
     | _ => add_event (add_event w0 (EvConnect conn)) (EvExecute conn)
     end)).
  { unfold export_pages. unfold bind at 1. rewrite path_mkdir_eq, Mk.
    unfold bind at 1. rewrite fetch_pages_full.
    fold w0. change (w_environ w0) with (w_environ w).
    change (w_db w0) with (w_db w). rewrite M, C.
    destruct (w_db w conn) eqn:Db;
      [reflexivity|reflexivity|destruct (NoRows _ eq_refl)]. }
  rewrite E. cbn [fst snd].
  split; [reflexivity|].
  split; [destruct (w_db w conn); reflexivity|].
  split; [exact G|]. split; [exact D|].
  destruct (w_db w conn); cbn; rewrite <- ?app_assoc; reflexivity.
Qed.

Lemma export_pages_database_failure_witness :
  let r := @export_pages ascii_db plain_libs sample_out true world_query_fails in
  exists conn fs',
    fst r = inl DatabaseError
    /\ w_fs (snd r) = fs'
    /\ grown sample_fs fs'
    /\ os_is_dir fs' [py "home"] [py "out"] = true
    /\ w_trace (snd r) = [EvMkdir sample_out; EvConnect conn; EvExecute conn].
Proof.
  cbv zeta.
  eexists _, _.
  refine (@export_pages_database_failure ascii_db plain_libs sample_out true
            world_query_fails _ _ _ _ _ _).
  - vm_compute. reflexivity.
  - vm_compute. reflexivity.
  - intros rows. cbn. discriminate.
  - vm_compute. reflexivity.
Defined.

(** ** The fall-back file, once more *)

Lemma fallback_eq (content var key : pystr) (w : World) :
  fallback content var key w =
    if falsy (w_environ w !! var) then
      match get_key content key with
      | Some v =>
          if truthy v then
            if existsb (N.eqb 0) v then (inl ValueError, w)
            else (inr tt, set_environ w (<[var := v]> (w_environ w)))
          else (inr tt, w)
      | None => (inr tt, w)
      end
    else (inr tt, w).
Proof.
  unfold fallback, bind, environ_get, gets.
  destruct (falsy (w_environ w !! var)); [|reflexivity].
  destruct (get_key content key) as [v|]; [|reflexivity].
  destruct (truthy v); reflexivity.
Qed.

(** [_load_repo_env_fallbacks] in one piece. *)
Lemma load_repo_env_fallbacks_eq (w : World) :
  _load_repo_env_fallbacks w =
    if os_exists (w_fs w) (base_of w (w_repo_env w)) (p_parts (w_repo_env w))
    then
      match file_at w (w_repo_env w) with
      | None => (inr tt, w)
      | Some bytes =>
          match utf8_decode bytes with
          | None => (inr tt, w)
          | Some s =>
              (fallback (universal_newlines s) BS_DB_NAME (py "DB_DATABASE") ;;
               fallback (universal_newlines s) BS_DB_USER (py "DB_USERNAME") ;;
               fallback (universal_newlines s) BS_DB_PASS (py "DB_PASSWORD")) w
          end
      end
    else (inr tt, w).
Proof.
  unfold _load_repo_env_fallbacks.
  rewrite (bind_ret_ok (gets w_repo_env) _ w (w_repo_env w) eq_refl).
  cbn [gets snd].
  rewrite (bind_ret_ok (path_exists (w_repo_env w)) _ w _ eq_refl).
  cbn [path_exists gets snd].
  destruct (os_exists _ _ _); cbn [negb]; [|reflexivity].
  unfold bind at 1. unfold try_except, bind at 1, path_read_text, file_at.
  destruct (os_read _ _ _) as [e|bytes]; [reflexivity|].
  destruct (utf8_decode bytes) as [s|]; reflexivity.
Qed.

(** A fall-back that has run decides the same and moves nothing when it runs
    again. *)
Lemma fallback_again (content var key : pystr) (w : World) :
  fallback content var key (snd (fallback content var key w))
  = (fst (fallback content var key w), snd (fallback content var key w)).
Proof.
  rewrite (fallback_eq content var key w).
  destruct (falsy (w_environ w !! var)) eqn:F.
  - destruct (get_key content key) as [v|] eqn:G.
    + destruct (truthy v) eqn:T.
      * destruct (existsb (N.eqb 0) v) eqn:Z; cbn [fst snd].
        -- rewrite fallback_eq, F, G, T, Z. reflexivity.
        -- rewrite fallback_eq. cbn [w_environ set_environ].
           rewrite lookup_insert_eq. cbn [falsy]. rewrite T. reflexivity.
      * cbn [fst snd]. rewrite fallback_eq, F, G, T. reflexivity.
    + cbn [fst snd]. rewrite fallback_eq, F, G. reflexivity.
  - cbn [fst snd]. rewrite fallback_eq, F. reflexivity.
Qed.

(** A fall-back that moves nothing in one world moves nothing, with the
    same outcome, in a world where its variable has the same value. *)
Lemma fallback_local (content var key : pystr) (w w' : World)
    (r : exn + unit) :
  fallback content var key w = (r, w) ->
  w_environ w' !! var = w_environ w !! var ->
  fallback content var key w' = (r, w').
Proof.
  rewrite !fallback_eq. intros H E. rewrite E.
  destruct (falsy (w_environ w !! var)) eqn:F; [|congruence].
  destruct (get_key content key) as [v|]; [|congruence].
  destruct (truthy v) eqn:T; [|congruence].
  destruct (existsb (N.eqb 0) v); [congruence|].
  exfalso. injection H as _ H.
  apply (f_equal (fun x => w_environ x !! var)) in H.
  cbn [w_environ set_environ] in H. rewrite lookup_insert_eq in H.
  rewrite <- H in F. cbn [falsy] in F. rewrite T in F. discriminate.
Qed.

Lemma fallback_others (content var key k : pystr) (w : World) :
  k <> var ->
  w_environ (snd (fallback content var key w)) !! k = w_environ w !! k.
Proof.
  intros Hk. destruct (fallback_cases content var key w) as (env' & E & N & _).
  rewrite E. cbn. exact (N k Hk).
Qed.

Lemma three_fallbacks_again (content : pystr) (w : World) :
  let run :=
    (fallback content BS_DB_NAME (py "DB_DATABASE") ;;
     fallback content BS_DB_USER (py "DB_USERNAME") ;;
     fallback content BS_DB_PASS (py "DB_PASSWORD")) in
  run (snd (run w)) = run w.
Proof.
  cbv zeta.
  set (f1 := fallback content BS_DB_NAME (py "DB_DATABASE")).
  set (f2 := fallback content BS_DB_USER (py "DB_USERNAME")).
  set (f3 := fallback content BS_DB_PASS (py "DB_PASSWORD")).
  assert (A1 : f1 (snd (f1 w)) = (fst (f1 w), snd (f1 w)))
    by apply fallback_again.
  destruct (f1 w) as [[e|[]] wa] eqn:E1; cbn [fst snd] in A1.
  { assert (R : bind f1 (fun _ => bind f2 (fun _ => f3)) w = (inl e, wa))
      by (unfold bind; rewrite E1; reflexivity).
    rewrite R. cbn [snd]. unfold bind. rewrite A1. reflexivity. }
  assert (A2 : f2 (snd (f2 wa)) = (fst (f2 wa), snd (f2 wa)))
    by apply fallback_again.
  assert (Nb : w_environ (snd (f2 wa)) !! BS_DB_NAME
               = w_environ wa !! BS_DB_NAME)
    by (apply fallback_others; discriminate).
  destruct (f2 wa) as [[e|[]] wb] eqn:E2; cbn [fst snd] in A2, Nb.
  { assert (R : bind f1 (fun _ => bind f2 (fun _ => f3)) w = (inl e, wb))
      by (unfold bind; rewrite E1, E2; reflexivity).
    rewrite R. cbn [snd]. unfold bind.
    unfold f1. rewrite (fallback_local _ _ _ wa wb _ A1 Nb).
    rewrite A2. reflexivity. }
  assert (A3 : f3 (snd (f3 wb)) = (fst (f3 wb), snd (f3 wb)))
    by apply fallback_again.
  assert (Nc1 : w_environ (snd (f3 wb)) !! BS_DB_NAME
                = w_environ wb !! BS_DB_NAME)
    by (apply fallback_others; discriminate).
  assert (Nc2 : w_environ (snd (f3 wb)) !! BS_DB_USER
                = w_environ wb !! BS_DB_USER)
    by (apply fallback_others; discriminate).
  destruct (f3 wb) as [r3 wc] eqn:E3; cbn [fst snd] in A3, Nc1, Nc2.
  assert (R : bind f1 (fun _ => bind f2 (fun _ => f3)) w = (r3, wc))
    by (unfold bind; rewrite E1, E2, E3; reflexivity).
  rewrite R. cbn [snd]. unfold bind.
  unfold f1. rewrite (fallback_local _ _ _ wa wc _ A1 (eq_trans Nc1 Nb)).
  unfold f2. rewrite (fallback_local _ _ _ wb wc _ A2 Nc2).
  exact A3.
Qed.

(** X7. When the settings file is not there, or cannot be read as UTF-8
    text (it is a directory, or its bytes do not decode),
    [_load_repo_env_fallbacks] returns normally and changes nothing. *)
Theorem load_repo_env_fallbacks_unreadable (w : World) :
  match file_at w (w_repo_env w) with
  | None => True
  | Some bytes => utf8_decode bytes = None
  end ->
  _load_repo_env_fallbacks w = (inr tt, w).
Proof.
  intros H. rewrite load_repo_env_fallbacks_eq.
  destruct (os_exists _ _ _); [|reflexivity].
  destruct (file_at w (w_repo_env w)) as [bytes|]; [|reflexivity].
  rewrite H. reflexivity.
Qed.

Lemma load_repo_env_fallbacks_unreadable_witness :
  os_exists (w_fs world_settings_dir) [] (p_parts sample_repo_env) = true
  /\ _load_repo_env_fallbacks world_settings_dir = (inr tt, world_settings_dir).
Proof.
  split; [vm_compute; reflexivity|].
  apply (load_repo_env_fallbacks_unreadable world_settings_dir).
  vm_compute. exact I.
Defined.

(** X8. Loading the fall-backs a second time has the outcome of the first
    and changes nothing more: a variable the first run has set is not
    empty, so it is left alone, and every other decision is taken from the
    same file and the same value. *)
Theorem load_repo_env_fallbacks_twice (w : World) :
  _load_repo_env_fallbacks (snd (_load_repo_env_fallbacks w))
  = _load_repo_env_fallbacks w.
Proof.
  destruct (load_repo_env_fallbacks_spec w) as [S _]. cbv zeta in S.
  set (w1 := snd (_load_repo_env_fallbacks w)) in *.
  assert (Fs : w_fs w1 = w_fs w) by (rewrite <- S; reflexivity).
  assert (Cw : w_cwd w1 = w_cwd w) by (rewrite <- S; reflexivity).
  assert (Re : w_repo_env w1 = w_repo_env w) by (rewrite <- S; reflexivity).
  assert (Fa : file_at w1 (w_repo_env w1) = file_at w (w_repo_env w)).
  { rewrite Re. apply file_at_same_tree; assumption. }
  assert (Ex : os_exists (w_fs w1) (base_of w1 (w_repo_env w1))
                 (p_parts (w_repo_env w1))
               = os_exists (w_fs w) (base_of w (w_repo_env w))
                   (p_parts (w_repo_env w))).
  { rewrite Re, Fs. unfold base_of. rewrite Cw. reflexivity. }
  rewrite (load_repo_env_fallbacks_eq w1), Ex, Fa.
  pose proof (load_repo_env_fallbacks_eq w) as E. fold w1.
  destruct (os_exists (w_fs w) _ _).
  2:{ subst w1. rewrite E. reflexivity. }
  destruct (file_at w (w_repo_env w)) as [bytes|].
  2:{ subst w1. rewrite E. reflexivity. }
  destruct (utf8_decode bytes) as [s|].
  2:{ subst w1. rewrite E. reflexivity. }
  subst w1. rewrite E. apply three_fallbacks_again.
Qed.

(** ** More on [_safe_name] *)

Lemma strip_all_space (s : pystr) : forallb isspace s = true -> strip s = [].
Proof.
  intros H. unfold strip. rewrite (lstrip_all_space s H). reflexivity.
Qed.

Lemma clean_ascii `{U : UnicodeDB} (c : N) :
  clean c = true -> c < 128 -> portable_char c = true.
Proof.
  unfold clean, name_char, isword, portable_char. intros H Hc.
  apply N.ltb_lt in Hc. rewrite Hc in H.
  destruct (ascii_alnum c), (c =? underscore) eqn:Eu, (c =? dash),
    (c =? dot), (isspace c); cbn in *;
    try reflexivity; try discriminate;
    unfold underscore in Eu; rewrite Eu in H; cbn in H; discriminate.
Qed.

(** X9. The names [_safe_name] leaves as they are, are exactly the names
    it can return: not empty, of at most 120 characters, each of them a
    word character, a dash or a dot and none of them white space. *)
Theorem safe_name_fixed_points `{U : UnicodeDB} (s : pystr) :
  _safe_name s = s
  <-> (s <> [] /\ (length s <= 120)%nat /\ forallb clean s = true).
Proof.
  split.
  - intros H. rewrite <- H. split; [|split].
    + pose proof (safe_name_truthy s) as T.
      destruct (_safe_name s); [discriminate|discriminate].
    + apply safe_name_length.
    + apply safe_name_clean.
  - intros (N & Len & C). apply safe_name_fixed; auto.
    destruct s; [congruence|reflexivity].
Qed.

(** X10. A name that is empty or made of white space only gives the
    placeholder ["untitled"]; so a page without a name is written as
    [<id>_untitled.<ext>]. *)
Theorem safe_name_blank `{U : UnicodeDB} (s : pystr) :
  forallb isspace s = true -> _safe_name s = py "untitled".
Proof.
  intros H. unfold _safe_name. rewrite (strip_all_space s H). reflexivity.
Qed.

Lemma safe_name_blank_witness :
  @_safe_name ascii_db [32; 9; 0xA0; 10] = py "untitled"
  /\ @_safe_name ascii_db [] = py "untitled".
Proof.
  split.
  - apply (@safe_name_blank ascii_db [32; 9; 0xA0; 10]). reflexivity.
  - apply (@safe_name_blank ascii_db []). reflexivity.
Defined.

(** X11. Every ASCII character of a name [_safe_name] returns is a letter,
    a digit, an underscore, a dash or a dot: no control character, no
    quote, no colon, no separator; whatever else the name holds is a
    non-ASCII code point the interpreter counts as alphanumeric. *)
Theorem safe_name_ascii_alphabet `{U : UnicodeDB} (s : pystr) (c : N) :
  In c (_safe_name s) ->
  (c < 128 /\ portable_char c = true)
  \/ (128 <= c /\ uni_alnum c = true /\ isspace c = false).
Proof.
  intros Hin.
  pose proof (safe_name_clean s) as C. rewrite forallb_forall in C.
  specialize (C c Hin).
  destruct (N.lt_ge_cases c 128) as [Hc|Hc].
  - left. split; [exact Hc|]. apply clean_ascii; assumption.
  - right. split; [exact Hc|].
    unfold clean, name_char, isword in C.
    assert (L : (c <? 128) = false) by (apply N.ltb_ge; exact Hc).
    rewrite L in C.
    assert (D1 : (c =? dash) = false) by (apply N.eqb_neq; unfold dash; lia).
    assert (D2 : (c =? dot) = false) by (apply N.eqb_neq; unfold dot; lia).
    rewrite D1, D2 in C.
    destruct (uni_alnum c), (isspace c); cbn in C; try discriminate; auto.
Qed.

Lemma safe_name_ascii_alphabet_witness :
  (45 < 128 /\ portable_char 45 = true)
  \/ (128 <= 45 /\ @uni_alnum latin1_db 45 = true /\ isspace 45 = false).
Proof.
  apply (@safe_name_ascii_alphabet latin1_db (py "a/b") 45).
  right. left. reflexivity.
Defined.

(** ** Names that are not plain names *)

Lemma removelast_not_below {A} (d : list A) (x : A) (rest : list A) :
  d <> [] -> rest <> [] -> removelast d ++ [x] <> d ++ rest.
Proof.
  intros Hd Hr E. apply (f_equal (@length A)) in E.
  rewrite !length_app in E. cbn in E.
  destruct (snoc_cases d) as [->|(init & y & ->)]; [congruence|].
  rewrite removelast_last, length_app in E. cbn in E.
  destruct rest; [congruence|]. cbn in E. lia.
Qed.

(** X12. The sanitizer lets the name [..] through, and the loop uses it as
    a directory: for a page of a book whose sanitized name is [..] and
    without chapter, a turn of the loop that completes has written the
    page file into the parent of the output directory, not inside it. *)
Theorem export_row_dotdot_escapes `{U : UnicodeDB} (out_dir : Path)
    (prefer_markdown : bool) (row : PageRow) (w w' : World)
    (record : ExportRecord) (d : loc) :
  book_dir row = py ".." ->
  r_chapter_name row = None ->
  walk_dirs (w_fs w) (base_of w out_dir) (p_parts out_dir) = inr d ->
  export_row out_dir prefer_markdown row w = (inr record, w') ->
  (exists bytes,
     utf8_encode (content_of prefer_markdown row) = Some bytes
     /\ w_fs w' !! (removelast d ++ [name_of prefer_markdown row])
        = Some (File bytes))
  /\ (d <> [] -> ~ below d (removelast d ++ [name_of prefer_markdown row])).
Proof.
  intros Hb Hc Wd R. split.
  2:{ intros Hd (rest & Hr & E). exact (removelast_not_below _ _ _ Hd Hr E). }
  destruct (export_row_ok _ _ _ _ _ _ R) as (_ & P & _ & K & _ & bytes & Enc & At).
  exists bytes. split; [exact Enc|].
  assert (Sub : subdir out_dir row
                = {| p_abs := p_abs out_dir;
                     p_parts := p_parts out_dir ++ [py ".."] |}).
  { unfold subdir. rewrite Hc, Hb.
    apply (path_join_single out_dir (py "..")); [|reflexivity].
    cbn. intuition discriminate. }
  unfold file_at in At. rewrite fpath_parts, Sub in At. cbn [p_parts] in At.
  unfold base_of in At. cbn [p_abs] in At. rewrite (proj1 P) in At.
  change (if p_abs out_dir then [] else w_cwd w)
    with (base_of w out_dir) in At.
  destruct (os_read (w_fs w') (base_of w out_dir)
              ((p_parts out_dir ++ [py ".."])
               ++ [fname row (snd (_pick_content row prefer_markdown))]))
    as [e|bs] eqn:Rd; [discriminate|]. injection At as ->.
  destruct (os_read_snoc_inv _ _ _ _ _ (fname_has_underscore _ _) Rd)
    as (d' & W' & F).
  rewrite walk_dirs_app, (walk_dirs_mono _ _ _ K _ _ Wd) in W'.
  cbn [walk_dirs] in W'.
  change (step d (py "..")) with (removelast d) in W'.
  destruct (node_at (w_fs w') (removelast d)) as [[|?]|]; try discriminate.
  injection W' as <-. exact F.
Qed.

Lemma export_row_dotdot_escapes_witness :
  let w' := snd (@export_row ascii_db sample_out true dotdot_row world_with_out) in
  (exists bytes,
     utf8_encode (content_of true dotdot_row) = Some bytes
     /\ w_fs w' !! (removelast [py "home"; py "out"]
                    ++ [@name_of ascii_db true dotdot_row])
        = Some (File bytes))
  /\ ([py "home"; py "out"] <> [] ->
      ~ below [py "home"; py "out"]
          (removelast [py "home"; py "out"]
           ++ [@name_of ascii_db true dotdot_row])).
Proof.
  cbv zeta.
  refine (@export_row_dotdot_escapes ascii_db sample_out true dotdot_row
            world_with_out _
            (@record_of ascii_db sample_out true dotdot_row)
            [py "home"; py "out"] _ _ _ _);
    vm_compute; reflexivity.
Defined.

(** After a loop that completes, the directory of every row is there. *)
Lemma export_rows_dirs `{U : UnicodeDB} (out_dir : Path)
    (prefer_markdown : bool) (rows : list PageRow) :
  forall (exports : list ExportRecord) (w w' : World) (m : list ExportRecord),
  export_rows out_dir prefer_markdown rows exports w = (inr m, w') ->
  Forall (fun row =>
    os_is_dir (w_fs w') (base_of w out_dir) (p_parts (subdir out_dir row))
    = true) rows.
Proof.
  induction rows as [|row rest IH]; intros exports w w' m H; [constructor|].
  revert H. cbn [export_rows]. unfold bind at 1.
  destruct (export_row out_dir prefer_markdown row w) as [[e|record] w1]
    eqn:R; [discriminate|]. intros H.
  pose proof (export_row_dir _ _ _ _ _ _ R) as D.
  destruct (export_row_frame out_dir prefer_markdown row w) as (P1 & _).
  rewrite R in P1. cbn [snd] in P1.
  pose proof (export_rows_frame out_dir prefer_markdown rest
                (exports ++ [record]) w1) as (_ & K2 & _).
  rewrite H in K2. cbn [snd] in K2.
  constructor.
  - exact (is_dir_mono _ _ _ _ K2 D).
  - rewrite <- (base_of_same w w1 out_dir out_dir (proj1 P1) eq_refl).
    exact (IH _ _ _ _ H).
Qed.

(** The directory of a row of a book named like the manifest lies at or
    below the place of the manifest. *)
Lemma is_dir_index_book `{U : UnicodeDB} (out_dir : Path) (row : PageRow)
    (fs : gmap loc node) (base : loc) :
  book_dir row = py "_index.csv" ->
  os_is_dir fs base (p_parts (subdir out_dir row)) = true ->
  exists d, walk_dirs fs base (p_parts out_dir) = inr d
            /\ node_at fs (d ++ [py "_index.csv"]) = Some Dir.
Proof.
  intros Hb.
  assert (Hi : In underscore (py "_index.csv")) by (left; reflexivity).
  assert (Plain : os_is_dir fs base (p_parts out_dir ++ [py "_index.csv"])
                  = true ->
    exists d, walk_dirs fs base (p_parts out_dir) = inr d
              /\ node_at fs (d ++ [py "_index.csv"]) = Some Dir).
  { unfold os_is_dir. rewrite locate_snoc.
    destruct (walk_dirs fs base (p_parts out_dir)) as [e|d];
      [intros X; discriminate X|].
    rewrite (step_name _ _ Hi).
    destruct (node_at fs (d ++ [py "_index.csv"])) as [[|?]|] eqn:E;
      intros X; try discriminate X.
    exists d. split; [reflexivity|exact E]. }
  assert (Book : path_join out_dir (py "_index.csv")
                 = {| p_abs := p_abs out_dir;
                      p_parts := p_parts out_dir ++ [py "_index.csv"] |})
    by apply index_path_parts.
  unfold subdir. rewrite Hb.
  destruct (r_chapter_name row) as [chapter|];
    [destruct (truthy chapter)|]; rewrite Book; try exact Plain.
  rewrite path_join_single;
    [|apply clean_not_in; [reflexivity|apply safe_name_clean]
     |apply safe_name_truthy].
  cbn [p_parts p_abs]. unfold LayoutSpec.component.
  destruct (pystr_eqb (_safe_name chapter) (py ".")).
  - rewrite app_nil_r. exact Plain.
  - unfold os_is_dir. rewrite locate_snoc, walk_dirs_app.
    destruct (walk_dirs fs base (p_parts out_dir)) as [e|d];
      [intros X; discriminate X|].
    cbn [walk_dirs]. rewrite (step_name _ _ Hi).
    destruct (node_at fs (d ++ [py "_index.csv"])) as [[|?]|] eqn:E;
      intros X; try discriminate X.
    exists d. split; [reflexivity|exact E].
Qed.

(** X13. The manifest is written into the output directory under the name
    [_index.csv], next to the book directories.  When a fetched page
    belongs to a book whose sanitized name is [_index.csv], that name is a
    directory by the time the manifest is written, so the run cannot
    complete. *)
Theorem export_pages_index_book `{U : UnicodeDB} `{L : Libs} (out_dir : Path)
    (prefer_markdown : bool) (w : World) (conn : ConnParams)
    (rows : list PageRow) (row : PageRow) :
  conn_params_of (w_environ w) = inr conn ->
  w_db w conn = Rows rows ->
  In row rows ->
  book_dir row = py "_index.csv" ->
  forall (m : list ExportRecord) (w' : World),
    export_pages out_dir prefer_markdown w <> (inr m, w').
Proof.
  intros Cp Db Hin Hb m w' Run.
  destruct (export_pages_stages _ _ _ _ _ Run)
    as (fs0 & conn' & rows' & w2 & d & text & _ & _ & Cp' & Db' & Lo & _
        & Wd & NotDir & _).
  rewrite Cp in Cp'. injection Cp' as <-.
  rewrite Db in Db'. injection Db' as <-.
  pose proof (export_rows_dirs _ _ _ _ _ _ _ Lo) as Ds.
  rewrite Forall_forall in Ds. rewrite <- list_elem_of_In in Hin.
  specialize (Ds row Hin).
  destruct (export_rows_frame out_dir prefer_markdown rows [] 
              (add_event (add_event (set_fs (add_event w (EvMkdir out_dir)) fs0)
                            (EvConnect conn)) (EvExecute conn)))
    as (P & _).
  rewrite Lo in P. cbn [snd] in P.
  rewrite <- (base_of_same _ w2 out_dir out_dir (proj1 P) eq_refl) in Ds.
  destruct (is_dir_index_book out_dir row _ _ Hb Ds) as (d' & Wd' & Dir').
  rewrite Wd in Wd'. injection Wd' as <-. exact (NotDir Dir').
Qed.

Lemma export_pages_index_book_witness :
  fst (@export_pages ascii_db plain_libs sample_out true world_index_book)
  = inl (OSError EISDIR (index_path sample_out))
  /\ forall (m : list ExportRecord) (w' : World),
       @export_pages ascii_db plain_libs sample_out true world_index_book
       <> (inr m, w').
Proof.
  split; [vm_compute; reflexivity|].
  refine (@export_pages_index_book ascii_db plain_libs sample_out true
            world_index_book _ [index_row] index_row _ _ _ _).
  - vm_compute. reflexivity.
  - reflexivity.
  - left. reflexivity.
  - vm_compute. reflexivity.
Defined.

(** ** [main] and the script *)

(** The records of a loop that completes, whatever the ids. *)
Lemma export_rows_manifest `{U : UnicodeDB} (out_dir : Path)
    (prefer_markdown : bool) (rows : list PageRow) :
  forall (exports : list ExportRecord) (w w' : World) (m : list ExportRecord),
  export_rows out_dir prefer_markdown rows exports w = (inr m, w') ->
  m = exports ++ map (record_of out_dir prefer_markdown) rows.
Proof.
  induction rows as [|row rest IH]; intros exports w w' m H.
  - cbn in H. injection H as <- _. rewrite app_nil_r. reflexivity.
  - revert H. cbn [export_rows]. unfold bind at 1.
    destruct (export_row out_dir prefer_markdown row w) as [[e|record] w1]
      eqn:R; [discriminate|]. intros H.
    destruct (export_row_ok _ _ _ _ _ _ R) as (-> & _).
    rewrite (IH _ _ _ _ H), <- app_assoc. reflexivity.
Qed.

(** X14. A run of [main] with [--html] that completes has loaded the
    fall-backs, exported with Markdown not preferred, and printed the
    number of rows the query returned: the manifest has one record per
    row, in order, and every record has the extension ["html"]. *)
Theorem main_html_flag `{U : UnicodeDB} `{L : Libs} (args : Args)
    (w w' : World) :
  a_html args = true ->
  main args w = (inr tt, w') ->
  exists w1 conn rows m w2,
    _load_repo_env_fallbacks w = (inr tt, w1)
    /\ w_db w conn = Rows rows
    /\ export_pages (a_out args) false w1 = (inr m, w2)
    /\ m = map (record_of (a_out args) false) rows
    /\ Forall (fun e => e_ext e = py "html") m
    /\ w' = add_event w2 (EvPrint (length rows) (a_out args)).
Proof.
  intros Ha. unfold main. unfold bind at 1.
  destruct (_load_repo_env_fallbacks w) as [[e|[]] w1] eqn:Ld; [discriminate|].
  rewrite Ha. cbn [negb]. unfold bind at 1.
  destruct (export_pages (a_out args) false w1) as [[e|m] w2] eqn:Ex;
    [discriminate|].
  unfold log. intros H. injection H as <-.
  destruct (export_pages_stages _ _ _ _ _ Ex)
    as (fs0 & conn & rows & w3 & d & text & _ & _ & _ & Db & Lo & _).
  apply export_rows_manifest in Lo. cbn [app] in Lo.
  destruct (load_repo_env_fallbacks_spec w) as [S _]. cbv zeta in S.
  rewrite Ld in S. cbn [snd] in S.
  assert (Dbw : w_db w = w_db w1) by (rewrite <- S; reflexivity).
  exists w1, conn, rows, m, w2. split; [reflexivity|].
  split; [rewrite Dbw; exact Db|]. split; [exact Ex|].
  split; [exact Lo|]. split.
  - rewrite Lo. apply Forall_forall. intros e He.
    apply list_elem_of_In, in_map_iff in He as (row & <- & _). reflexivity.
  - rewrite Lo, length_map. reflexivity.
Qed.

Lemma main_html_flag_witness :
  exists w1 conn rows m w2,
    _load_repo_env_fallbacks (sample_world env_complete) = (inr tt, w1)
    /\ w_db (sample_world env_complete) conn = Rows rows
    /\ @export_pages ascii_db plain_libs sample_out false w1 = (inr m, w2)
    /\ m = map (@record_of ascii_db sample_out false) rows
    /\ Forall (fun e => e_ext e = py "html") m
    /\ snd (@main ascii_db plain_libs sample_args_html
              (sample_world env_complete))
       = add_event w2 (EvPrint (length rows) sample_out).
Proof.
  apply (@main_html_flag ascii_db plain_libs sample_args_html
           (sample_world env_complete)
           (snd (@main ascii_db plain_libs sample_args_html
                   (sample_world env_complete)))).
  - reflexivity.
  - vm_compute. reflexivity.
Defined.

(** X15. Run as a script, the program stops at the first assertion of its
    own [_test_safe_name], which expects the slash of ["A/B:C*D?"] to be
    deleted while [_safe_name] turns it into a dash: the script ends with
    [AssertionError] and [main] is never reached, nothing is read or
    written.  The three other assertions of the self-tests hold. *)
Theorem script_self_test_fails `{U : UnicodeDB} `{L : Libs} (args : Args)
    (w : World) :
  script args w = (inl AssertionError, w)
  /\ _safe_name (py "A/B:C*D?") = py "A-BCD"
  /\ _safe_name (py "   Hello  World  ") = py "Hello_World"
  /\ _test_pick_content w = (inr tt, w).
Proof. repeat split. Qed.

Lemma fallback_outcome (content var key : pystr) (w : World) :
  fst (fallback content var key w) = inr tt
  \/ fst (fallback content var key w) = inl ValueError.
Proof.
  rewrite fallback_eq.
  destruct (falsy (w_environ w !! var)); [|auto].
  destruct (get_key content key) as [v|]; [|auto].
  destruct (truthy v); [|auto].
  destruct (existsb (N.eqb 0) v); auto.
Qed.

(** X16. [_load_repo_env_fallbacks] swallows every error of reading the
    settings file; the only way it can fail is the [ValueError] of
    [os.environ] for a value it is about to set (one that holds a NUL). *)
Theorem load_repo_env_fallbacks_only_value_error (w : World) :
  fst (_load_repo_env_fallbacks w) = inr tt
  \/ fst (_load_repo_env_fallbacks w) = inl ValueError.
Proof.
  rewrite load_repo_env_fallbacks_eq.
  destruct (os_exists _ _ _); [|auto].
  destruct (file_at w (w_repo_env w)) as [bytes|]; [|auto].
  destruct (utf8_decode bytes) as [s|]; [|auto].
  set (c := universal_newlines s).
  unfold bind.
  pose proof (fallback_outcome c BS_DB_NAME (py "DB_DATABASE") w) as O1.
  destruct (fallback c BS_DB_NAME (py "DB_DATABASE") w) as [[e|[]] w1];
    cbn [fst] in O1; [destruct O1 as [O1|O1]; [discriminate|right; exact O1]|].
  pose proof (fallback_outcome c BS_DB_USER (py "DB_USERNAME") w1) as O2.
  destruct (fallback c BS_DB_USER (py "DB_USERNAME") w1) as [[e|[]] w2];
    cbn [fst] in O2; [destruct O2 as [O2|O2]; [discriminate|right; exact O2]|].
  apply fallback_outcome.
Qed.
